(** * flow2go: a flow-based-programming network in plain Go

    A shallow embedding of [flow2go.go]: the four nodes ([splitter],
    [wordCounter], [letterCounter], [printer]), the printer's [merge]
    and the driver's final wait; then [main], which wires the nodes
    into the network, starts them and feeds it.  [main] of
    [interfaceVersion/flow2goWithInterface.go] runs the same nodes and
    differs by the order of the calls of [Process].

    - Go strings are byte sequences: a Go [string] is a Rocq [string]
      (a sequence of 8-bit [ascii] values), a [rune] and an [int] are
      [Z].  The lengths the program takes are lengths of in-memory
      slices, far below 2^63, so no wrap-around of [int] is reachable.
    - The pure part of each node body (the expression it sends) is a
      Rocq function; the functions of Go's standard library it calls
      ([strings.Split], [regexp.MustCompile], [FindAllString],
      [utf8.DecodeRuneInString]) are embedded after the library's code.
    - Goroutines are program counters in a state record, channels are
      buffers with a closed flag, and one scheduler step runs one
      statement of one goroutine. *)

From Stdlib Require Import ZArith List String Ascii Bool Lia Arith Permutation.
Import ListNotations.

Local Open Scope string_scope.
Local Open Scope list_scope.
Local Open Scope Z_scope.

(* ===================================================================== *)
(** * Go strings: bytes and slices *)
(* ===================================================================== *)

Module GoString.

(** [s[i]] as a number: the value of a byte. *)
Definition byteZ (c : ascii) : Z := Z.of_N (N_of_ascii c).

(** [len(s)] *)
Definition len (s : string) : nat := String.length s.

(** [s[n:]] for [n <= len(s)]. *)
Fixpoint drop (n : nat) (s : string) : string :=
  match n, s with
  | O, _ => s
  | S _, EmptyString => EmptyString
  | S n', String _ t => drop n' t
  end.

(** [s[:n]] for [n <= len(s)]. *)
Fixpoint take (n : nat) (s : string) : string :=
  match n, s with
  | O, _ => EmptyString
  | S _, EmptyString => EmptyString
  | S n', String c t => String c (take n' t)
  end.

(** [s[a:b]] for [a <= b <= len(s)]. *)
Definition slice (a b : nat) (s : string) : string := take (b - a) (drop a s).

(** [strings.HasPrefix(s, p)] *)
Fixpoint HasPrefix (s p : string) : bool :=
  match p, s with
  | EmptyString, _ => true
  | String _ _, EmptyString => false
  | String a p', String b s' => Ascii.eqb a b && HasPrefix s' p'
  end.

End GoString.

(* ===================================================================== *)
(** * unicode/utf8 *)
(* ===================================================================== *)

Module utf8.
Import GoString.

Definition RuneError : Z := 0xFFFD.
Definition RuneSelf : Z := 0x80.
Definition MaxRune : Z := 0x10FFFF.
Definition surrogateMin : Z := 0xD800.
Definition surrogateMax : Z := 0xDFFF.

Definition maskx : Z := 0x3F.
Definition mask2 : Z := 0x1F.
Definition mask3 : Z := 0x0F.
Definition mask4 : Z := 0x07.

Definition tx : Z := 0x80.
Definition t2 : Z := 0xC0.
Definition t3 : Z := 0xE0.
Definition t4 : Z := 0xF0.

Definition rune1Max : Z := 0x7F.
Definition rune2Max : Z := 0x7FF.
Definition rune3Max : Z := 0xFFFF.

Definition locb : Z := 0x80.
Definition hicb : Z := 0xBF.

(** The status bytes of the table [first]: the high nibble indexes
    [acceptRanges] (or is F for the one-byte cases), the low nibble is
    the length of the sequence. *)
Definition st_xx : Z := 0xF1.
Definition st_as : Z := 0xF0.
Definition st_s1 : Z := 0x02.
Definition st_s2 : Z := 0x13.
Definition st_s3 : Z := 0x03.
Definition st_s4 : Z := 0x23.
Definition st_s5 : Z := 0x34.
Definition st_s6 : Z := 0x04.
Definition st_s7 : Z := 0x44.

(** [first[b]]: the 256-entry table, written by its runs. *)
Definition first (b : Z) : Z :=
  if b <? 0x80 then st_as
  else if b <? 0xC2 then st_xx
  else if b <? 0xE0 then st_s1
  else if b =? 0xE0 then st_s2
  else if b <? 0xED then st_s3
  else if b =? 0xED then st_s4
  else if b <? 0xF0 then st_s3
  else if b =? 0xF0 then st_s5
  else if b <? 0xF4 then st_s6
  else if b =? 0xF4 then st_s7
  else st_xx.

(** [acceptRanges[i]] as the pair (lo, hi); the entries 5..15 of the Go
    array are zero values. *)
Definition acceptRanges (i : Z) : Z * Z :=
  if i =? 0 then (locb, hicb)
  else if i =? 1 then (0xA0, hicb)
  else if i =? 2 then (locb, 0x9F)
  else if i =? 3 then (0x90, hicb)
  else if i =? 4 then (locb, 0x8F)
  else (0, 0).

(** [utf8.DecodeRuneInString(s)]: the rune at the head of [s] and its
    width in bytes. *)
Definition DecodeRuneInString (s : string) : Z * nat :=
  match s with
  | EmptyString => (RuneError, 0%nat)
  | String c0 r0 =>
      let s0 := byteZ c0 in
      let x := first s0 in
      if st_as <=? x then
        (* mask := rune(x) << 31 >> 31: all ones when bit 0 of x is set *)
        (if Z.testbit x 0 then RuneError else s0, 1%nat)
      else
        let sz := Z.land x 7 in
        let accept := acceptRanges (Z.shiftr x 4) in
        if Z.of_nat (len s) <? sz then (RuneError, 1%nat)
        else
          match r0 with
          | EmptyString => (RuneError, 1%nat)
          | String c1 r1 =>
              let s1 := byteZ c1 in
              if (s1 <? fst accept) || (snd accept <? s1) then (RuneError, 1%nat)
              else if sz <=? 2 then
                (Z.lor (Z.shiftl (Z.land s0 mask2) 6) (Z.land s1 maskx), 2%nat)
              else
                match r1 with
                | EmptyString => (RuneError, 1%nat)
                | String c2 r2 =>
                    let s2 := byteZ c2 in
                    if (s2 <? locb) || (hicb <? s2) then (RuneError, 1%nat)
                    else if sz <=? 3 then
                      (Z.lor (Z.lor (Z.shiftl (Z.land s0 mask3) 12)
                                    (Z.shiftl (Z.land s1 maskx) 6))
                             (Z.land s2 maskx), 3%nat)
                    else
                      match r2 with
                      | EmptyString => (RuneError, 1%nat)
                      | String c3 _ =>
                          let s3 := byteZ c3 in
                          if (s3 <? locb) || (hicb <? s3) then (RuneError, 1%nat)
                          else
                            (Z.lor (Z.lor (Z.lor (Z.shiftl (Z.land s0 mask4) 18)
                                                 (Z.shiftl (Z.land s1 maskx) 12))
                                          (Z.shiftl (Z.land s2 maskx) 6))
                                   (Z.land s3 maskx), 4%nat)
                      end
                end
          end
  end.

(** [byte(x)]: the low eight bits. *)
Definition to_byte (x : Z) : ascii := ascii_of_N (Z.to_N (Z.land x 0xFF)).

(** [utf8.EncodeRune]/[AppendRune]: the UTF-8 encoding of a rune [r]
    (given as a 32-bit integer, [0 <= r < 2^32] after [uint32(r)]). *)
Definition EncodeRune (r : Z) : string :=
  if r <=? rune1Max then String (to_byte r) EmptyString
  else if r <=? rune2Max then
    String (to_byte (Z.lor t2 (Z.shiftr r 6)))
      (String (to_byte (Z.lor tx (Z.land r maskx))) EmptyString)
  else
    let enc3 (r : Z) :=
      String (to_byte (Z.lor t3 (Z.shiftr r 12)))
        (String (to_byte (Z.lor tx (Z.land (Z.shiftr r 6) maskx)))
          (String (to_byte (Z.lor tx (Z.land r maskx))) EmptyString)) in
    if (MaxRune <? r) || ((surrogateMin <=? r) && (r <=? surrogateMax)) then
      enc3 RuneError
    else if r <=? rune3Max then enc3 r
    else
      String (to_byte (Z.lor t4 (Z.shiftr r 18)))
        (String (to_byte (Z.lor tx (Z.land (Z.shiftr r 12) maskx)))
          (String (to_byte (Z.lor tx (Z.land (Z.shiftr r 6) maskx)))
            (String (to_byte (Z.lor tx (Z.land r maskx))) EmptyString))).

End utf8.

(* ===================================================================== *)
(** * strings *)
(* ===================================================================== *)

Module strings.
Import GoString.

(** [strings.Index(s, substr)]: the index of the first instance of
    [substr] in [s]; [None] stands for Go's [-1]. *)
Fixpoint Index (s substr : string) : option nat :=
  if HasPrefix s substr then Some O
  else match s with
       | EmptyString => None
       | String _ t => option_map S (Index t substr)
       end.

(** [bytealg.CountString(s, c)] *)
Fixpoint CountString (s : string) (c : ascii) : nat :=
  match s with
  | EmptyString => O
  | String b t => ((if Ascii.eqb b c then 1 else 0) + CountString t c)%nat
  end.

(** [utf8.RuneCountInString(s)]; every rune takes at least one byte, so
    [len(s)] rounds are enough. *)
Fixpoint runeCount (rounds : nat) (s : string) : nat :=
  match rounds, s with
  | O, _ => O
  | _, EmptyString => O
  | S k, String _ _ => S (runeCount k (drop (snd (utf8.DecodeRuneInString s)) s))
  end.

Definition RuneCountInString (s : string) : nat := runeCount (len s) s.

(** The loop of [strings.Count] for a separator of two bytes or more:
    [for { i := Index(s, substr); if i == -1 { return n }; n++;
    s = s[i+len(substr):] }]; at most [len(s)] rounds. *)
Fixpoint countLoop (rounds : nat) (s substr : string) : nat :=
  match rounds with
  | O => O
  | S k => match Index s substr with
           | None => O
           | Some i => S (countLoop k (drop (i + len substr) s) substr)
           end
  end.

(** [strings.Count(s, substr)] *)
Definition Count (s substr : string) : nat :=
  match substr with
  | EmptyString => (RuneCountInString s + 1)%nat
  | String c EmptyString => CountString s c
  | _ => countLoop (len s) s substr
  end.

(** [explode(s, n)], the branch of [genSplit] for the empty separator:
    [s] cut into UTF-8 sequences, at most [n] of them ([n >= 1] here). *)
Fixpoint explodeLoop (k : nat) (s : string) : list string :=
  match k with
  | O => [s]
  | S k' =>
      let size := snd (utf8.DecodeRuneInString s) in
      take size s :: explodeLoop k' (drop size s)
  end.

Definition explode (s : string) (n : Z) : list string :=
  let l := Z.of_nat (RuneCountInString s) in
  let n := if (n <? 0) || (l <? n) then l else n in
  if 0 <? n then explodeLoop (Z.to_nat (n - 1)) s else [].

(** The loop of [genSplit]: [k] is [n - i], the number of cuts still
    allowed; the result is [a[i:i+1]] onwards. *)
Fixpoint genSplitLoop (k : nat) (s sep : string) (sepSave : nat) : list string :=
  match k with
  | O => [s]
  | S k' =>
      match Index s sep with
      | None => [s]
      | Some m => take (m + sepSave) s
                  :: genSplitLoop k' (drop (m + len sep) s) sep sepSave
      end
  end.

(** [genSplit(s, sep, sepSave, n)] *)
Definition genSplit (s sep : string) (sepSave : nat) (n : Z) : list string :=
  if n =? 0 then []
  else if String.eqb sep "" then explode s n
  else
    let n := if n <? 0 then Z.of_nat (Count s sep) + 1 else n in
    let n := if Z.of_nat (len s) + 1 <? n then Z.of_nat (len s) + 1 else n in
    genSplitLoop (Z.to_nat (n - 1)) s sep sepSave.

(** [strings.Split(s, sep)] *)
Definition Split (s sep : string) : list string := genSplit s sep 0 (-1).

End strings.

(* ===================================================================== *)
(** * regexp, for patterns that are one bracket expression *)
(* ===================================================================== *)

Module regexp.
Import GoString.

(** A compiled pattern: the ranges (lo, hi) of its character class. *)
Record Regexp : Type := mkRegexp { ranges : list (Z * Z) }.

(** The items of a bracket expression after the opening bracket:
    [lo-hi] or a single byte, up to the closing bracket, which must end
    the pattern.  The fragment has no negation, escapes, named classes
    or literal dash; [None] is a pattern outside it. *)
Fixpoint parseClass (rounds : nat) (p : string) : option (list (Z * Z)) :=
  match rounds with
  | O => None
  | S k =>
      match p with
      | String "]" EmptyString => Some []
      | String lo (String "-" (String hi rest)) =>
          if Ascii.eqb hi "]" || (byteZ hi <? byteZ lo) then None
          else option_map (cons (byteZ lo, byteZ hi)) (parseClass k rest)
      | String c rest =>
          if Ascii.eqb c "]" || Ascii.eqb c "\" || Ascii.eqb c "["
          then None
          else option_map (cons (byteZ c, byteZ c)) (parseClass k rest)
      | EmptyString => None
      end
  end.

(** [regexp.Compile(expr)] on the fragment. *)
Definition Compile (expr : string) : option Regexp :=
  match expr with
  | String "[" (String c rest) =>
      if Ascii.eqb c "^" || Ascii.eqb c "]" then None
      else option_map mkRegexp (parseClass (len expr) (String c rest))
  | _ => None
  end.

(** Does rune [r] belong to the class? *)
Definition matchRune (re : Regexp) (r : Z) : bool :=
  existsb (fun lh => (fst lh <=? r) && (r <=? snd lh)) (ranges re).

(** [inputString.step(pos)] on the suffix [s = str[pos:]]. *)
Definition step (s : string) : Z * nat :=
  match s with
  | EmptyString => (-1, O)
  | String c _ =>
      if byteZ c <? utf8.RuneSelf then (byteZ c, 1%nat)
      else utf8.DecodeRuneInString s
  end.

(** [re.doExecute] on [s]: the leftmost match as (start, end), [None]
    when there is none.  A class matches one rune, so the search steps
    rune by rune; [len(s)] rounds reach the end of the text. *)
Fixpoint leftmost (rounds : nat) (re : Regexp) (s : string) : option (nat * nat) :=
  match rounds with
  | O => None
  | S k =>
      match s with
      | EmptyString => None
      | String _ _ =>
          let (r, w) := step s in
          if matchRune re r then Some (O, w)
          else option_map (fun m => ((w + fst m)%nat, (w + snd m)%nat))
                          (leftmost k re (drop w s))
      end
  end.

Definition doExecute (re : Regexp) (s : string) : option (nat * nat) :=
  leftmost (len s) re s.

(** [re.allMatches]: successive non-overlapping matches, at most [k].
    A match of a class is never empty, so the loop goes on from the end
    of the match ([pos = matches[1]]) and delivers each one. *)
Fixpoint allMatches (k : nat) (re : Regexp) (s : string) : list string :=
  match k with
  | O => []
  | S k' =>
      match doExecute re s with
      | None => []
      | Some (a, b) => slice a b s :: allMatches k' re (drop b s)
      end
  end.

(** [re.FindAllString(s, n)] *)
Definition FindAllString (re : Regexp) (s : string) (n : Z) : list string :=
  let n := if n <? 0 then Z.of_nat (len s) + 1 else n in
  allMatches (Z.to_nat n) re s.

End regexp.

(* ===================================================================== *)
(** * The values on the wires and the node bodies *)
(* ===================================================================== *)

(** [type count struct { tag string; count int }] *)
Record count : Type := mkCount { tag : string; count_n : Z }.

(** The value [wordCounter.Process] sends for a sentence:
    [&count{"Words", len(strings.Split(sentence, " "))}]. *)
Definition wordCounter_emit (sentence : string) : count :=
  mkCount "Words" (Z.of_nat (List.length (strings.Split sentence " "))).

(** [letterCounter.Init]: [lc.re = regexp.MustCompile("[a-zA-Z]")];
    [None] is the panic of [MustCompile]. *)
Definition letterCounter_Init : option regexp.Regexp := regexp.Compile "[a-zA-Z]".

(** The value [letterCounter.Process] sends for a sentence, with the
    matcher [re] stored in the node:
    [&count{"Letters", len(lc.re.FindAllString(sentence, -1))}]. *)
Definition letterCounter_emit (re : regexp.Regexp) (sentence : string) : count :=
  mkCount "Letters" (Z.of_nat (List.length (regexp.FindAllString re sentence (-1)))).

(** The three sentences [main] sends. *)
Definition sentence1 : string :=
  "I never put off till tomorrow what I can do the day after.".
Definition sentence2 : string :=
  "Fashion is a form of ugliness so intolerable that we have to alter it every six months.".
Definition sentence3 : string :=
  "Life is too important to be taken seriously.".

(* ===================================================================== *)
(** * Goroutines, channels and the scheduler *)
(* ===================================================================== *)

(** What happens when the scheduler picks one goroutine (or one move of
    the environment) in a state. *)
Inductive outcome (S : Type) : Type :=
| Next (s : S)   (** its next statement runs *)
| Blocked        (** it waits at a channel operation or at [wg.Wait] *)
| Halted         (** it has nothing to run: not started yet, or returned *)
| Panic.         (** the statement panics *)

Arguments Next {S} s.
Arguments Blocked {S}.
Arguments Halted {S}.
Arguments Panic {S}.

Section Runs.
Context {S L : Type}.
Variable step : L -> S -> outcome S.
Variable init : S -> Prop.

(** The states of all interleavings from an initial state. *)
Inductive reachable : S -> Prop :=
| reach_init (s : S) : init s -> reachable s
| reach_step (s : S) (l : L) (s' : S) :
    reachable s -> step l s = Next s' -> reachable s'.

(** A schedule run from a state; [None] when a move of the schedule
    cannot run where it stands. *)
Fixpoint run (ls : list L) (s : S) : option S :=
  match ls with
  | [] => Some s
  | l :: ls' => match step l s with
                | Next s' => run ls' s'
                | _ => None
                end
  end.

(** [P] is met on every maximal interleaving from [s]: either now, or
    some move can run and [P] is inevitable after each move that can. *)
Inductive inevitably (P : S -> Prop) : S -> Prop :=
| inev_now (s : S) : P s -> inevitably P s
| inev_later (s : S) :
    (exists l s', step l s = Next s') ->
    (forall l s', step l s = Next s' -> inevitably P s') ->
    inevitably P s.
End Runs.

(** Go channels: the buffer, its capacity and the closed flag. *)
Module Chan.

Record chan (T : Type) : Type := mkChan { buf : list T; cap : nat; closed : bool }.
Arguments mkChan {T} buf cap closed.
Arguments buf {T} c.
Arguments cap {T} c.
Arguments closed {T} c.

(** [make(chan T, n)] *)
Definition make {T : Type} (n : nat) : chan T := mkChan [] n false.

Inductive send_result (T : Type) : Type :=
| SendOk (c : chan T)  (** the value went into the buffer *)
| SendFull             (** no room: the sender waits, or hands the value
                           to a waiting receiver *)
| SendPanic.           (** send on a closed channel *)
Arguments SendOk {T} c.
Arguments SendFull {T}.
Arguments SendPanic {T}.

(** [c <- v] *)
Definition send {T : Type} (c : chan T) (v : T) : send_result T :=
  if closed c then SendPanic
  else if (List.length (buf c) <? cap c)%nat
       then SendOk (mkChan (buf c ++ [v]) (cap c) (closed c))
       else SendFull.

Inductive recv_result (T : Type) : Type :=
| RecvVal (v : T) (c : chan T)  (** a buffered value, [ok = true] *)
| RecvClosed                    (** closed and drained, [ok = false] *)
| RecvEmpty.                    (** open and empty: the receiver waits, or
                                    takes the value of a waiting sender *)
Arguments RecvVal {T} v c.
Arguments RecvClosed {T}.
Arguments RecvEmpty {T}.

(** [v, ok := <-c] *)
Definition recv {T : Type} (c : chan T) : recv_result T :=
  match buf c with
  | v :: b => RecvVal v (mkChan b (cap c) (closed c))
  | [] => if closed c then RecvClosed else RecvEmpty
  end.

(** [close(c)]; [None] is the panic of closing a closed channel. *)
Definition close {T : Type} (c : chan T) : option (chan T) :=
  if closed c then None else Some (mkChan (buf c) (cap c) true).

End Chan.

(** Standard output: one entry per [fmt.Println] call, its operands. *)
Inductive operand : Type := Str (s : string) | Int (n : Z).
Definition line : Type := list operand.

(* ===================================================================== *)
(** * splitter *)
(* ===================================================================== *)

Module Splitter.
Import Chan.

(** The caller inside [splitter.Process]. *)
Inductive main_pc : Type :=
| MPrintStart   (** [fmt.Println("Splitter starts.")] *)
| MGo           (** [go func() {...}()] *)
| MReturned.

(** The goroutine of [Process], by the statement it runs next.  At
    [Returned] only its [return] is left; the node on its own has no
    step for it, since it changes nothing the node or its neighbours
    can see ([Network], below, runs it as a step). *)
Inductive pc : Type :=
| NotStarted
| Recv                  (** [s, ok := <-t.In] *)
| Send1 (s : string)    (** [t.Out1 <- s] *)
| Send2 (s : string)    (** [t.Out2 <- s] *)
| PrintFinished         (** [fmt.Println("Splitter has finished.")] *)
| Close1                (** [close(t.Out1)] *)
| Close2                (** [close(t.Out2)] *)
| Returned.

(** The node, its wires and caller; the last six fields are history
    variables: written along, never read by a step. *)
Record state : Type := mkState {
  In : chan string;
  Out1 : chan string;
  Out2 : chan string;
  main : main_pc;
  gor : pc;
  stdout : list line;
  sent : list string;     (** values the producer sent on [In] *)
  rcvd : list string;     (** values the goroutine received *)
  wrote1 : list string;   (** values the goroutine sent on [Out1] *)
  wrote2 : list string;   (** values the goroutine sent on [Out2] *)
  got1 : list string;     (** values the reader of [Out1] received *)
  got2 : list string      (** values the reader of [Out2] received *)
}.

Inductive label : Type :=
| Main                 (** the caller of [Process] *)
| Goroutine            (** the goroutine [Process] starts *)
| EnvSend (v : string) (** the producer: [in <- v] *)
| EnvClose             (** the producer: [close(in)] *)
| EnvRecv1             (** the reader of [Out1]: [<-sToWc] *)
| EnvRecv2.            (** the reader of [Out2]: [<-sToLc] *)

Definition step (l : label) (st : state) : outcome state :=
  let '(mkState i o1 o2 m g out sn rc w1 w2 r1 r2) := st in
  match l with
  | Main =>
      match m with
      | MPrintStart =>
          Next (mkState i o1 o2 MGo g (out ++ [[Str "Splitter starts."]]) sn rc w1 w2 r1 r2)
      | MGo => Next (mkState i o1 o2 MReturned Recv out sn rc w1 w2 r1 r2)
      | MReturned => Halted
      end
  | Goroutine =>
      match g with
      | NotStarted => Halted
      | Recv =>
          match recv i with
          | RecvVal s i' => Next (mkState i' o1 o2 m (Send1 s) out sn (rc ++ [s]) w1 w2 r1 r2)
          | RecvClosed => Next (mkState i o1 o2 m PrintFinished out sn rc w1 w2 r1 r2)
          | RecvEmpty => Blocked
          end
      | Send1 s =>
          match send o1 s with
          | SendOk o1' => Next (mkState i o1' o2 m (Send2 s) out sn rc (w1 ++ [s]) w2 r1 r2)
          | SendFull => Blocked
          | SendPanic => Panic
          end
      | Send2 s =>
          match send o2 s with
          | SendOk o2' => Next (mkState i o1 o2' m Recv out sn rc w1 (w2 ++ [s]) r1 r2)
          | SendFull => Blocked
          | SendPanic => Panic
          end
      | PrintFinished =>
          Next (mkState i o1 o2 m Close1 (out ++ [[Str "Splitter has finished."]]) sn rc w1 w2 r1 r2)
      | Close1 =>
          match close o1 with
          | Some o1' => Next (mkState i o1' o2 m Close2 out sn rc w1 w2 r1 r2)
          | None => Panic
          end
      | Close2 =>
          match close o2 with
          | Some o2' => Next (mkState i o1 o2' m Returned out sn rc w1 w2 r1 r2)
          | None => Panic
          end
      | Returned => Halted
      end
  | EnvSend v =>
      match send i v with
      | SendOk i' => Next (mkState i' o1 o2 m g out (sn ++ [v]) rc w1 w2 r1 r2)
      | SendFull =>
          (* unbuffered wire: the value goes straight to the waiting receive *)
          match g with
          | Recv => if (cap i =? 0)%nat
                    then Next (mkState i o1 o2 m (Send1 v) out (sn ++ [v]) (rc ++ [v]) w1 w2 r1 r2)
                    else Blocked
          | _ => Blocked
          end
      | SendPanic => Panic
      end
  | EnvClose =>
      match close i with
      | Some i' => Next (mkState i' o1 o2 m g out sn rc w1 w2 r1 r2)
      | None => Panic
      end
  | EnvRecv1 =>
      match recv o1 with
      | RecvVal v o1' => Next (mkState i o1' o2 m g out sn rc w1 w2 (r1 ++ [v]) r2)
      | RecvClosed => Next st
      | RecvEmpty =>
          match g with
          | Send1 s => if (cap o1 =? 0)%nat
                       then Next (mkState i o1 o2 m (Send2 s) out sn rc
                                    (w1 ++ [s]) w2 (r1 ++ [s]) r2)
                       else Blocked
          | _ => Blocked
          end
      end
  | EnvRecv2 =>
      match recv o2 with
      | RecvVal v o2' => Next (mkState i o1 o2' m g out sn rc w1 w2 r1 (r2 ++ [v]))
      | RecvClosed => Next st
      | RecvEmpty =>
          match g with
          | Send2 s => if (cap o2 =? 0)%nat
                       then Next (mkState i o1 o2 m Recv out sn rc
                                    w1 (w2 ++ [s]) r1 (r2 ++ [s]))
                       else Blocked
          | _ => Blocked
          end
      end
  end.

(** The node wired to three fresh channels, [Process] not yet called. *)
Definition init (st : state) : Prop :=
  exists c c1 c2 : nat,
    st = mkState (make c) (make c1) (make c2) MPrintStart NotStarted [] [] [] [] [] [] [].

(** The goroutine has seen its input exhausted. *)
Definition exhausted (g : pc) : bool :=
  match g with
  | PrintFinished | Close1 | Close2 | Returned => true
  | _ => false
  end.

(** What the goroutine has done for the values it received, by the
    statement it stands at. *)
Definition copies (st : state) : Prop :=
  match gor st with
  | Send1 s => rcvd st = wrote1 st ++ [s] /\ wrote2 st = wrote1 st
  | Send2 s => rcvd st = wrote1 st /\ wrote1 st = wrote2 st ++ [s]
  | _ => wrote1 st = rcvd st /\ wrote2 st = rcvd st
  end.

Definition inv (st : state) : Prop :=
  copies st
  /\ sent st = rcvd st ++ buf (In st)
  /\ (gor st = NotStarted <-> main st <> MReturned)
  /\ (exhausted (gor st) = true -> closed (In st) = true /\ buf (In st) = [])
  /\ closed (Out1 st) = match gor st with Close2 | Returned => true | _ => false end
  /\ closed (Out2 st) = match gor st with Returned => true | _ => false end
  /\ (List.length (buf (In st)) <= cap (In st))%nat
  (* what was written to an output is what its reader has taken and
     what the channel holds *)
  /\ wrote1 st = got1 st ++ buf (Out1 st)
  /\ wrote2 st = got2 st ++ buf (Out2 st).

(** The run of [main] on channels of capacity 10: the three sentences
    go through, the reader of [Out1] takes the first one, the input is
    closed and the node shuts down; the reader of [Out2] takes the
    first one after that. *)
Definition schedule_three : list label :=
  [Main; Main; EnvSend sentence1; EnvSend sentence2; EnvSend sentence3;
   Goroutine; Goroutine; Goroutine; Goroutine; Goroutine; Goroutine;
   Goroutine; Goroutine; Goroutine;
   EnvRecv1; EnvClose; Goroutine; Goroutine; Goroutine; Goroutine; EnvRecv2].

Definition start10 : state :=
  mkState (make 10) (make 10) (make 10) MPrintStart NotStarted [] [] [] [] [] [] [].

Definition final_three : state :=
  match run step schedule_three start10 with
  | Some st => st
  | None => start10
  end.

(** The same on unbuffered outputs: each write waits for its reader. *)
Definition schedule_handover : list label :=
  [Main; Main; EnvSend sentence1; EnvSend sentence2; Goroutine;
   EnvRecv1; EnvRecv2; Goroutine; EnvRecv1; EnvRecv2; EnvClose;
   Goroutine; Goroutine; Goroutine; Goroutine].

Definition start_unbuffered : state :=
  mkState (make 10) (make O) (make O) MPrintStart NotStarted [] [] [] [] [] [] [].

Definition final_handover : state :=
  match run step schedule_handover start_unbuffered with
  | Some st => st
  | None => start_unbuffered
  end.

End Splitter.

(* ===================================================================== *)
(** * wordCounter *)
(* ===================================================================== *)

Module WordCounter.
Import Chan.

(** The caller inside [wordCounter.Process]. *)
Inductive main_pc : Type :=
| MPrintStart   (** [fmt.Println("WordCounter starts.")] *)
| MGo           (** [go func() {...}()] *)
| MReturned.

(** The goroutine of [Process], by the statement it runs next.  At
    [Returned] only its [return] is left; the node on its own has no
    step for it, since it changes nothing the node or its neighbours
    can see ([Network], below, runs it as a step). *)
Inductive pc : Type :=
| NotStarted
| Recv                      (** [sentence, ok := <-wc.Sentence] *)
| Send (sentence : string)  (** [wc.Count <- &count{"Words", ...}] *)
| PrintFinished             (** [fmt.Println("WordCounter has finished.")] *)
| Close                     (** [close(wc.Count)] *)
| Returned.

(** The last four fields are history variables. *)
Record state : Type := mkState {
  Sentence : chan string;
  Count : chan count;
  main : main_pc;
  gor : pc;
  stdout : list line;
  sent : list string;     (** values the producer sent on [Sentence] *)
  rcvd : list string;     (** sentences the goroutine received *)
  emitted : list count;   (** counts the goroutine sent on [Count] *)
  taken : list count      (** counts the reader of [Count] received *)
}.

Inductive label : Type :=
| Main                 (** the caller of [Process] *)
| Goroutine            (** the goroutine [Process] starts *)
| EnvSend (v : string) (** the writer of [Sentence] sends *)
| EnvClose             (** the writer of [Sentence] closes it *)
| EnvRecv.             (** the reader of [Count] receives *)

Definition step (l : label) (st : state) : outcome state :=
  let '(mkState i o m g out sn rc em tk) := st in
  match l with
  | Main =>
      match m with
      | MPrintStart =>
          Next (mkState i o MGo g (out ++ [[Str "WordCounter starts."]]) sn rc em tk)
      | MGo => Next (mkState i o MReturned Recv out sn rc em tk)
      | MReturned => Halted
      end
  | Goroutine =>
      match g with
      | NotStarted => Halted
      | Recv =>
          match recv i with
          | RecvVal s i' => Next (mkState i' o m (Send s) out sn (rc ++ [s]) em tk)
          | RecvClosed => Next (mkState i o m PrintFinished out sn rc em tk)
          | RecvEmpty => Blocked
          end
      | Send s =>
          match send o (wordCounter_emit s) with
          | SendOk o' => Next (mkState i o' m Recv out sn rc (em ++ [wordCounter_emit s]) tk)
          | SendFull => Blocked
          | SendPanic => Panic
          end
      | PrintFinished =>
          Next (mkState i o m Close (out ++ [[Str "WordCounter has finished."]]) sn rc em tk)
      | Close =>
          match close o with
          | Some o' => Next (mkState i o' m Returned out sn rc em tk)
          | None => Panic
          end
      | Returned => Halted
      end
  | EnvSend v =>
      match send i v with
      | SendOk i' => Next (mkState i' o m g out (sn ++ [v]) rc em tk)
      | SendFull =>
          match g with
          | Recv => if (cap i =? 0)%nat
                    then Next (mkState i o m (Send v) out (sn ++ [v]) (rc ++ [v]) em tk)
                    else Blocked
          | _ => Blocked
          end
      | SendPanic => Panic
      end
  | EnvClose =>
      match close i with
      | Some i' => Next (mkState i' o m g out sn rc em tk)
      | None => Panic
      end
  | EnvRecv =>
      match recv o with
      | RecvVal v o' => Next (mkState i o' m g out sn rc em (tk ++ [v]))
      | RecvClosed => Next st
      | RecvEmpty =>
          match g with
          | Send s => if (cap o =? 0)%nat
                      then Next (mkState i o m Recv out sn rc
                                   (em ++ [wordCounter_emit s])
                                   (tk ++ [wordCounter_emit s]))
                      else Blocked
          | _ => Blocked
          end
      end
  end.

Definition init (st : state) : Prop :=
  exists c c1 : nat,
    st = mkState (make c) (make c1) MPrintStart NotStarted [] [] [] [] [].

(** The count still in the goroutine's hands. *)
Definition pending (g : pc) : list count :=
  match g with
  | Send s => [wordCounter_emit s]
  | _ => []
  end.

Definition inv (st : state) : Prop :=
  map wordCounter_emit (rcvd st) = emitted st ++ pending (gor st)
  /\ sent st = rcvd st ++ buf (Sentence st)
  /\ (gor st = NotStarted <-> main st <> MReturned)
  /\ (match gor st with
      | PrintFinished | Close | Returned =>
          closed (Sentence st) = true /\ buf (Sentence st) = []
      | _ => True
      end)
  /\ closed (Count st) = match gor st with Returned => true | _ => false end
  /\ (List.length (buf (Sentence st)) <= cap (Sentence st))%nat
  (* what was sent on [Count] is what its reader has taken and what the
     channel holds *)
  /\ emitted st = taken st ++ buf (Count st).

(** The run of [main]: the three sentences arrive, each count is sent,
    then the input is closed and the node shuts down. *)
Definition schedule_three : list label :=
  [Main; Main;
   EnvSend sentence1; EnvSend sentence2; EnvSend sentence3; EnvClose;
   Goroutine; Goroutine; Goroutine; Goroutine; Goroutine; Goroutine;
   Goroutine; Goroutine; Goroutine].

Definition start10 : state :=
  mkState (make 10) (make 10) MPrintStart NotStarted [] [] [] [] [].

Definition final_three : state :=
  match run step schedule_three start10 with
  | Some st => st
  | None => start10
  end.

End WordCounter.

(* ===================================================================== *)
(** * letterCounter *)
(* ===================================================================== *)

Module LetterCounter.
Import Chan.

(** The caller inside [letterCounter.Process]. *)
Inductive main_pc : Type :=
| MPrintStart   (** [fmt.Println("LetterCounter starts.")] *)
| MGo           (** [go func() {...}()] *)
| MReturned.

(** The goroutine of [Process], by the statement it runs next.  At
    [Returned] only its [return] is left; the node on its own has no
    step for it, since it changes nothing the node or its neighbours
    can see ([Network], below, runs it as a step). *)
Inductive pc : Type :=
| NotStarted
| Init                      (** [lc.Init()] *)
| Recv                      (** [sentence, ok := <-lc.Sentence] *)
| Send (sentence : string)  (** [lc.Count <- &count{"Letters", ...}] *)
| PrintFinished             (** [fmt.Println("LetterCounter has finished.")] *)
| Close                     (** [close(lc.Count)] *)
| Returned.

(** [re] is the field [lc.re], [nil] at first; the last five fields are
    history variables, [compiles] counting the calls of
    [regexp.MustCompile] and [taken] the counts the reader of [Count]
    received. *)
Record state : Type := mkState {
  Sentence : chan string;
  Count : chan count;
  re : option regexp.Regexp;
  main : main_pc;
  gor : pc;
  stdout : list line;
  sent : list string;
  rcvd : list string;
  emitted : list count;
  compiles : nat;
  taken : list count
}.

Inductive label : Type :=
| Main
| Goroutine
| EnvSend (v : string)
| EnvClose
| EnvRecv.

Definition step (l : label) (st : state) : outcome state :=
  let '(mkState i o r m g out sn rc em nc tk) := st in
  match l with
  | Main =>
      match m with
      | MPrintStart =>
          Next (mkState i o r MGo g (out ++ [[Str "LetterCounter starts."]]) sn rc em nc tk)
      | MGo => Next (mkState i o r MReturned Init out sn rc em nc tk)
      | MReturned => Halted
      end
  | Goroutine =>
      match g with
      | NotStarted => Halted
      | Init =>
          match letterCounter_Init with
          | Some r' => Next (mkState i o (Some r') m Recv out sn rc em (S nc) tk)
          | None => Panic
          end
      | Recv =>
          match recv i with
          | RecvVal s i' => Next (mkState i' o r m (Send s) out sn (rc ++ [s]) em nc tk)
          | RecvClosed => Next (mkState i o r m PrintFinished out sn rc em nc tk)
          | RecvEmpty => Blocked
          end
      | Send s =>
          match r with
          | None => Panic   (* nil pointer dereference *)
          | Some r' =>
              match send o (letterCounter_emit r' s) with
              | SendOk o' =>
                  Next (mkState i o' r m Recv out sn rc (em ++ [letterCounter_emit r' s]) nc tk)
              | SendFull => Blocked
              | SendPanic => Panic
              end
          end
      | PrintFinished =>
          Next (mkState i o r m Close (out ++ [[Str "LetterCounter has finished."]]) sn rc em nc tk)
      | Close =>
          match close o with
          | Some o' => Next (mkState i o' r m Returned out sn rc em nc tk)
          | None => Panic
          end
      | Returned => Halted
      end
  | EnvSend v =>
      match send i v with
      | SendOk i' => Next (mkState i' o r m g out (sn ++ [v]) rc em nc tk)
      | SendFull =>
          match g with
          | Recv => if (cap i =? 0)%nat
                    then Next (mkState i o r m (Send v) out (sn ++ [v]) (rc ++ [v]) em nc tk)
                    else Blocked
          | _ => Blocked
          end
      | SendPanic => Panic
      end
  | EnvClose =>
      match close i with
      | Some i' => Next (mkState i' o r m g out sn rc em nc tk)
      | None => Panic
      end
  | EnvRecv =>
      match recv o with
      | RecvVal v o' => Next (mkState i o' r m g out sn rc em nc (tk ++ [v]))
      | RecvClosed => Next st
      | RecvEmpty =>
          match g, r with
          | Send s, Some r' =>
              if (cap o =? 0)%nat
              then Next (mkState i o r m Recv out sn rc
                           (em ++ [letterCounter_emit r' s]) nc
                           (tk ++ [letterCounter_emit r' s]))
              else Blocked
          | _, _ => Blocked
          end
      end
  end.

Definition init (st : state) : Prop :=
  exists c c1 : nat,
    st = mkState (make c) (make c1) None MPrintStart NotStarted [] [] [] [] O [].

(** The sentence whose count is still in the goroutine's hands. *)
Definition pending (g : pc) : list string :=
  match g with
  | Send s => [s]
  | _ => []
  end.

Definition inv (st : state) : Prop :=
  (match gor st with
   | NotStarted | Init => re st = None /\ compiles st = O
   | _ => re st = letterCounter_Init /\ re st <> None /\ compiles st = 1%nat
   end)
  /\ (match re st with
      | Some r => map (letterCounter_emit r) (rcvd st)
                  = emitted st ++ map (letterCounter_emit r) (pending (gor st))
      | None => rcvd st = [] /\ emitted st = [] /\ pending (gor st) = []
      end)
  /\ sent st = rcvd st ++ buf (Sentence st)
  /\ (gor st = NotStarted <-> main st <> MReturned)
  /\ (match gor st with
      | PrintFinished | Close | Returned =>
          closed (Sentence st) = true /\ buf (Sentence st) = []
      | _ => True
      end)
  /\ closed (Count st) = match gor st with Returned => true | _ => false end
  /\ (List.length (buf (Sentence st)) <= cap (Sentence st))%nat
  (* what was sent on [Count] is what its reader has taken and what the
     channel holds *)
  /\ emitted st = taken st ++ buf (Count st).

(** The run of [main]: the matcher is compiled, the three sentences
    arrive, each count is sent, then the input is closed and the node
    shuts down. *)
Definition schedule_three : list label :=
  [Main; Main; Goroutine;
   EnvSend sentence1; EnvSend sentence2; EnvSend sentence3; EnvClose;
   Goroutine; Goroutine; Goroutine; Goroutine; Goroutine; Goroutine;
   Goroutine; Goroutine; Goroutine].

Definition start10 : state :=
  mkState (make 10) (make 10) None MPrintStart NotStarted [] [] [] [] O [].

Definition final_three : state :=
  match run step schedule_three start10 with
  | Some st => st
  | None => start10
  end.

End LetterCounter.

(* ===================================================================== *)
(** * printer: merge, the sink and the driver's wait *)
(* ===================================================================== *)

Module Printer.
Import Chan.

(** The two inputs of the printer. *)
Inductive line_id : Type := L1 | L2.

Definition line_eqb (i j : line_id) : bool :=
  match i, j with
  | L1, L1 | L2, L2 => true
  | _, _ => false
  end.

(** The goroutine [main] from its call of [p.Process()] on: [Process],
    [merge] inside it, and the wait for the network at the end. *)
Inductive main_pc : Type :=
| MPrintStart     (** [fmt.Println("Printer starts.")] *)
| MMake           (** [var wg sync.WaitGroup; out := make(chan *count)] *)
| MAdd            (** [wg.Add(2)] *)
| MGo1            (** [go output(p.Line1)] *)
| MGo2            (** [go output(p.Line2)] *)
| MGoCloser       (** [go func() { wg.Wait(); close(out) }()] *)
| MGoSink         (** [return out]; [in := p.merge()]; [go func() {...}()] *)
| MReturned       (** [Process] has returned; [main] feeds and closes the
                      network's input, a channel of the splitter *)
| MWait           (** [<-done] *)
| MPrintShutdown  (** [fmt.Println("Network has shut down.")] *)
| MExit.

(** [output(c)], one goroutine per input. *)
Inductive output_pc : Type :=
| ONotStarted
| ORange            (** [for n := range c] *)
| OSend (n : count) (** [out <- n] *)
| OWgDone           (** [wg.Done()] *)
| OReturned.

(** The goroutine that closes [out]. *)
Inductive closer_pc : Type :=
| CNotStarted
| CWait     (** [wg.Wait()] *)
| CClose    (** [close(out)] *)
| CReturned.

(** The goroutine of [Process]; at [SReturned] only its [return] is
    left. *)
Inductive sink_pc : Type :=
| SNotStarted
| SRecv             (** [c, ok := <-in] *)
| SPrint (c : count)(** [fmt.Println(c.tag+":", c.count)] *)
| SPrintFinished    (** [fmt.Println("Printer has finished.")] *)
| SCloseDone        (** [close(p.Done)] *)
| SReturned.

(** The last five fields are history variables: [merged] lists the
    values that went through [out], each with the input it came from;
    [closes_out] and [closes_done] count the [close] calls that ran. *)
Record state : Type := mkState {
  Line1 : chan count;
  Line2 : chan count;
  out : chan count;
  Done : chan unit;
  wg : Z;
  main : main_pc;
  output1 : output_pc;
  output2 : output_pc;
  closer : closer_pc;
  sink : sink_pc;
  stdout : list line;
  sent1 : list count;
  sent2 : list count;
  merged : list (line_id * count);
  closes_out : nat;
  closes_done : nat
}.

Definition set_Line1 (c : chan count) (s : state) : state :=
  mkState c (Line2 s) (out s) (Done s) (wg s) (main s) (output1 s) (output2 s) (closer s) (sink s) (stdout s) (sent1 s) (sent2 s) (merged s) (closes_out s) (closes_done s).
Definition set_Line2 (c : chan count) (s : state) : state :=
  mkState (Line1 s) c (out s) (Done s) (wg s) (main s) (output1 s) (output2 s) (closer s) (sink s) (stdout s) (sent1 s) (sent2 s) (merged s) (closes_out s) (closes_done s).
Definition set_out (c : chan count) (s : state) : state :=
  mkState (Line1 s) (Line2 s) c (Done s) (wg s) (main s) (output1 s) (output2 s) (closer s) (sink s) (stdout s) (sent1 s) (sent2 s) (merged s) (closes_out s) (closes_done s).
Definition set_Done (c : chan unit) (s : state) : state :=
  mkState (Line1 s) (Line2 s) (out s) c (wg s) (main s) (output1 s) (output2 s) (closer s) (sink s) (stdout s) (sent1 s) (sent2 s) (merged s) (closes_out s) (closes_done s).
Definition set_wg (n : Z) (s : state) : state :=
  mkState (Line1 s) (Line2 s) (out s) (Done s) n (main s) (output1 s) (output2 s) (closer s) (sink s) (stdout s) (sent1 s) (sent2 s) (merged s) (closes_out s) (closes_done s).
Definition set_main (m : main_pc) (s : state) : state :=
  mkState (Line1 s) (Line2 s) (out s) (Done s) (wg s) m (output1 s) (output2 s) (closer s) (sink s) (stdout s) (sent1 s) (sent2 s) (merged s) (closes_out s) (closes_done s).
Definition set_output1 (o : output_pc) (s : state) : state :=
  mkState (Line1 s) (Line2 s) (out s) (Done s) (wg s) (main s) o (output2 s) (closer s) (sink s) (stdout s) (sent1 s) (sent2 s) (merged s) (closes_out s) (closes_done s).
Definition set_output2 (o : output_pc) (s : state) : state :=
  mkState (Line1 s) (Line2 s) (out s) (Done s) (wg s) (main s) (output1 s) o (closer s) (sink s) (stdout s) (sent1 s) (sent2 s) (merged s) (closes_out s) (closes_done s).
Definition set_closer (c : closer_pc) (s : state) : state :=
  mkState (Line1 s) (Line2 s) (out s) (Done s) (wg s) (main s) (output1 s) (output2 s) c (sink s) (stdout s) (sent1 s) (sent2 s) (merged s) (closes_out s) (closes_done s).
Definition set_sink (k : sink_pc) (s : state) : state :=
  mkState (Line1 s) (Line2 s) (out s) (Done s) (wg s) (main s) (output1 s) (output2 s) (closer s) k (stdout s) (sent1 s) (sent2 s) (merged s) (closes_out s) (closes_done s).
(** [fmt.Println(operands...)] *)
Definition println (l : line) (s : state) : state :=
  mkState (Line1 s) (Line2 s) (out s) (Done s) (wg s) (main s) (output1 s) (output2 s) (closer s) (sink s) (stdout s ++ [l]) (sent1 s) (sent2 s) (merged s) (closes_out s) (closes_done s).
Definition add_sent1 (v : count) (s : state) : state :=
  mkState (Line1 s) (Line2 s) (out s) (Done s) (wg s) (main s) (output1 s) (output2 s) (closer s) (sink s) (stdout s) (sent1 s ++ [v]) (sent2 s) (merged s) (closes_out s) (closes_done s).
Definition add_sent2 (v : count) (s : state) : state :=
  mkState (Line1 s) (Line2 s) (out s) (Done s) (wg s) (main s) (output1 s) (output2 s) (closer s) (sink s) (stdout s) (sent1 s) (sent2 s ++ [v]) (merged s) (closes_out s) (closes_done s).
Definition add_merged (e : line_id * count) (s : state) : state :=
  mkState (Line1 s) (Line2 s) (out s) (Done s) (wg s) (main s) (output1 s) (output2 s) (closer s) (sink s) (stdout s) (sent1 s) (sent2 s) (merged s ++ [e]) (closes_out s) (closes_done s).
Definition tick_out (s : state) : state :=
  mkState (Line1 s) (Line2 s) (out s) (Done s) (wg s) (main s) (output1 s) (output2 s) (closer s) (sink s) (stdout s) (sent1 s) (sent2 s) (merged s) (S (closes_out s)) (closes_done s).
Definition tick_done (s : state) : state :=
  mkState (Line1 s) (Line2 s) (out s) (Done s) (wg s) (main s) (output1 s) (output2 s) (closer s) (sink s) (stdout s) (sent1 s) (sent2 s) (merged s) (closes_out s) (S (closes_done s)).

(** The fields of input [i]. *)
Definition input (i : line_id) (s : state) : chan count :=
  match i with L1 => Line1 s | L2 => Line2 s end.
Definition set_input (i : line_id) (c : chan count) (s : state) : state :=
  match i with L1 => set_Line1 c s | L2 => set_Line2 c s end.
Definition output (i : line_id) (s : state) : output_pc :=
  match i with L1 => output1 s | L2 => output2 s end.
Definition set_output (i : line_id) (o : output_pc) (s : state) : state :=
  match i with L1 => set_output1 o s | L2 => set_output2 o s end.
Definition sent (i : line_id) (s : state) : list count :=
  match i with L1 => sent1 s | L2 => sent2 s end.
Definition add_sent (i : line_id) (v : count) (s : state) : state :=
  match i with L1 => add_sent1 v s | L2 => add_sent2 v s end.

Inductive label : Type :=
| Main                              (** the goroutine [main] *)
| Output (i : line_id)              (** [output(p.Line1)], [output(p.Line2)] *)
| Closer                            (** the goroutine that closes [out] *)
| Sink                              (** the goroutine of [Process] *)
| EnvSend (i : line_id) (v : count) (** the writer of an input sends *)
| EnvClose (i : line_id).           (** the writer of an input closes it *)

(** The operands of [fmt.Println(c.tag+":", c.count)]. *)
Definition render (c : count) : line := [Str (tag c ++ ":")%string; Int (count_n c)].

Definition step (l : label) (st : state) : outcome state :=
  match l with
  | Main =>
      match main st with
      | MPrintStart => Next (set_main MMake (println [Str "Printer starts."] st))
      | MMake => Next (set_main MAdd (set_out (make O) (set_wg 0 st)))
      | MAdd => Next (set_main MGo1 (set_wg (wg st + 2) st))
      | MGo1 => Next (set_main MGo2 (set_output1 ORange st))
      | MGo2 => Next (set_main MGoCloser (set_output2 ORange st))
      | MGoCloser => Next (set_main MGoSink (set_closer CWait st))
      | MGoSink => Next (set_main MReturned (set_sink SRecv st))
      | MReturned => Next (set_main MWait st)
      | MWait =>
          match recv (Done st) with
          | RecvVal _ d => Next (set_main MPrintShutdown (set_Done d st))
          | RecvClosed => Next (set_main MPrintShutdown st)
          | RecvEmpty => Blocked
          end
      | MPrintShutdown =>
          Next (set_main MExit (println [Str "Network has shut down."] st))
      | MExit => Halted
      end
  | Output i =>
      match output i st with
      | ONotStarted => Halted
      | ORange =>
          match recv (input i st) with
          | RecvVal n c => Next (set_output i (OSend n) (set_input i c st))
          | RecvClosed => Next (set_output i OWgDone st)
          | RecvEmpty => Blocked
          end
      | OSend n =>
          match send (out st) n with
          | SendOk c => Next (set_output i ORange (set_out c (add_merged (i, n) st)))
          | SendFull =>
              (* unbuffered: the value goes straight to the waiting receive *)
              match sink st with
              | SRecv => Next (set_sink (SPrint n)
                                 (set_output i ORange (add_merged (i, n) st)))
              | _ => Blocked
              end
          | SendPanic => Panic
          end
      | OWgDone =>
          if wg st - 1 <? 0 then Panic   (* negative WaitGroup counter *)
          else Next (set_output i OReturned (set_wg (wg st - 1) st))
      | OReturned => Halted
      end
  | Closer =>
      match closer st with
      | CNotStarted => Halted
      | CWait => if wg st =? 0 then Next (set_closer CClose st) else Blocked
      | CClose =>
          match close (out st) with
          | Some c => Next (set_closer CReturned (set_out c (tick_out st)))
          | None => Panic
          end
      | CReturned => Halted
      end
  | Sink =>
      match sink st with
      | SNotStarted => Halted
      | SRecv =>
          match recv (out st) with
          | RecvVal c o => Next (set_sink (SPrint c) (set_out o st))
          | RecvClosed => Next (set_sink SPrintFinished st)
          | RecvEmpty => Blocked
          end
      | SPrint c => Next (set_sink SRecv (println (render c) st))
      | SPrintFinished =>
          Next (set_sink SCloseDone (println [Str "Printer has finished."] st))
      | SCloseDone =>
          match close (Done st) with
          | Some d => Next (set_sink SReturned (set_Done d (tick_done st)))
          | None => Panic
          end
      | SReturned => Halted
      end
  | EnvSend i v =>
      match send (input i st) v with
      | SendOk c => Next (add_sent i v (set_input i c st))
      | SendFull =>
          match output i st with
          | ORange => if (cap (input i st) =? 0)%nat
                      then Next (add_sent i v (set_output i (OSend v) st))
                      else Blocked
          | _ => Blocked
          end
      | SendPanic => Panic
      end
  | EnvClose i =>
      match close (input i st) with
      | Some c => Next (set_input i c st)
      | None => Panic
      end
  end.

(** The printer wired to its inputs of capacities [c1], [c2] and to an
    unbuffered [done], [Process] not yet called. *)
Definition init_state (c1 c2 : nat) : state :=
  mkState (make c1) (make c2) (make O) (make O) 0
          MPrintStart ONotStarted ONotStarted CNotStarted SNotStarted
          [] [] [] [] O O.

Definition init (st : state) : Prop := exists c1 c2 : nat, st = init_state c1 c2.

(** The moves of the printer's own goroutines. *)
Definition internal (l : label) : bool :=
  match l with
  | Main | Output _ | Closer | Sink => true
  | EnvSend _ _ | EnvClose _ => false
  end.

(** The values of [merged] that came from input [i], in order. *)
Definition from (i : line_id) (m : list (line_id * count)) : list count :=
  map snd (filter (fun e => line_eqb (fst e) i) m).

(** The count lines of standard output, in order. *)
Definition is_count_line (l : line) : bool :=
  match l with
  | [Str _; Int _] => true
  | _ => false
  end.
Definition printed (o : list line) : list line := filter is_count_line o.

Definition main_rank (m : main_pc) : nat :=
  match m with
  | MPrintStart => 0 | MMake => 1 | MAdd => 2 | MGo1 => 3 | MGo2 => 4
  | MGoCloser => 5 | MGoSink => 6 | MReturned => 7 | MWait => 8
  | MPrintShutdown => 9 | MExit => 10
  end.

Definition returned (o : output_pc) : Z :=
  match o with OReturned => 1 | _ => 0 end.

(** The value a forwarder holds between its receive and its send. *)
Definition inflight (o : output_pc) : list count :=
  match o with OSend n => [n] | _ => [] end.

(** The value the sink holds between its receive and its print. *)
Definition unprinted (k : sink_pc) : list count :=
  match k with SPrint c => [c] | _ => [] end.

Definition input_done (o : output_pc) : bool :=
  match o with OWgDone | OReturned => true | _ => false end.

Definition sink_done (k : sink_pc) : bool :=
  match k with SPrintFinished | SCloseDone | SReturned => true | _ => false end.

(** What holds of one input, its forwarder [o], the values [snt] sent
    on it and the values [frm] it has passed to [out]. *)
Definition input_inv (o : output_pc) (c : chan count)
                     (snt frm : list count) : Prop :=
  (input_done o = true -> closed c = true /\ buf c = [])
  /\ snt = frm ++ inflight o ++ buf c
  /\ (List.length (buf c) <= cap c)%nat.

Definition spawned_output (o : output_pc) : bool :=
  match o with ONotStarted => false | _ => true end.
Definition spawned_closer (c : closer_pc) : bool :=
  match c with CNotStarted => false | _ => true end.
Definition spawned_sink (k : sink_pc) : bool :=
  match k with SNotStarted => false | _ => true end.
Definition past_wait (c : closer_pc) : bool :=
  match c with CClose | CReturned => true | _ => false end.

Definition inv (st : state) : Prop :=
  spawned_output (output1 st) = (3 <? main_rank (main st))%nat
  /\ spawned_output (output2 st) = (4 <? main_rank (main st))%nat
  /\ spawned_closer (closer st) = (5 <? main_rank (main st))%nat
  /\ spawned_sink (sink st) = (6 <? main_rank (main st))%nat
  /\ wg st = (if (2 <? main_rank (main st))%nat then 2 else 0)
             - returned (output1 st) - returned (output2 st)
  /\ buf (out st) = [] /\ cap (out st) = O
  /\ closed (out st) = match closer st with CReturned => true | _ => false end
  /\ (past_wait (closer st) = true -> wg st = 0)
  /\ (sink_done (sink st) = true -> closed (out st) = true)
  /\ buf (Done st) = []
  /\ closed (Done st) = match sink st with SReturned => true | _ => false end
  /\ ((8 <? main_rank (main st))%nat = true -> closed (Done st) = true)
  /\ printed (stdout st) ++ map render (unprinted (sink st))
     = map render (map snd (merged st))
  /\ closes_out st = (if closed (out st) then 1 else 0)%nat
  /\ closes_done st = (if closed (Done st) then 1 else 0)%nat
  /\ input_inv (output1 st) (Line1 st) (sent1 st) (from L1 (merged st))
  /\ input_inv (output2 st) (Line2 st) (sent2 st) (from L2 (merged st)).

(** A bound on the moves the printer's goroutines can still make. *)
Definition output_weight (o : output_pc) : nat :=
  match o with
  | ONotStarted => 2 | ORange => 2 | OSend _ => 4 | OWgDone => 1 | OReturned => 0
  end.
Definition closer_weight (c : closer_pc) : nat :=
  match c with
  | CNotStarted => 2 | CWait => 2 | CClose => 1 | CReturned => 0
  end.
Definition sink_weight (k : sink_pc) : nat :=
  match k with
  | SNotStarted => 3 | SRecv => 3 | SPrint _ => 4 | SPrintFinished => 2
  | SCloseDone => 1 | SReturned => 0
  end.
Definition moves_left (st : state) : nat :=
  ((10 - main_rank (main st))
   + 3 * List.length (buf (Line1 st)) + output_weight (output1 st)
   + 3 * List.length (buf (Line2 st)) + output_weight (output2 st)
   + closer_weight (closer st) + sink_weight (sink st))%nat.

(** Both inputs of the printer have been closed by their writers. *)
Definition inputs_closed (st : state) : Prop :=
  closed (Line1 st) = true /\ closed (Line2 st) = true.

(** Two interleavings of one scenario: the word count and the letter
    count of the third sentence of [main] are sent, one on each input,
    and both inputs are closed. *)
Definition words3 : count := mkCount "Words" 8.
Definition letters3 : count := mkCount "Letters" 36.

Definition schedule_start : list label :=
  [Main; Main; Main; Main; Main; Main; Main; Main;
   EnvSend L1 words3; EnvSend L2 letters3; EnvClose L1; EnvClose L2].

Definition schedule_end : list label :=
  [Output L1; Output L1; Output L2; Output L2;
   Closer; Closer; Sink; Sink; Sink; Main; Main].

(** [Line1] is served first. *)
Definition schedule_words_first : list label :=
  schedule_start
  ++ [Output L1; Output L1; Sink; Output L2; Output L2; Sink]
  ++ schedule_end.


Definition final_of (ls : list label) : state :=
  match run step ls (init_state 10 10) with
  | Some st => st
  | None => init_state 10 10
  end.

Definition final_words_first : state := final_of schedule_words_first.

End Printer.

(* ===================================================================== *)
(** * main: the whole network *)
(* ===================================================================== *)

(** The network as [main] wires it, closed: [main] and the goroutines of
    the four nodes are the only ones to touch the channels.  [main] of
    [flow2go.go] calls the four [Process] methods in program order;
    [main] of [interfaceVersion/flow2goWithInterface.go] calls them in
    the order the range over the map [net] yields, which Go leaves
    open.  The sentences [main] sends are a parameter; the program's are
    [sentences]. *)
Module Network.
Import Chan.

(** The keys of [counterNet]. *)
Inductive node : Type := NSplitter | NWordCounter | NLetterCounter | NPrinter.

Inductive start_order : Type :=
| InOrder    (** [s.Process(); wc.Process(); lc.Process(); p.Process()] *)
| MapRange.  (** [for node := range net { net[node].Process() }] *)

(** [main], by the statement it runs next; the statements of a
    [Process] it has called are its own. *)
Inductive main_pc : Type :=
| MPrintStartNodes     (** [fmt.Println("Start the nodes.")] *)
| MNext                (** the next call of [Process] *)
| MSplitterPrint       (** [fmt.Println("Splitter starts.")] *)
| MSplitterGo          (** [go func() {...}()] of the splitter *)
| MWordCounterPrint    (** [fmt.Println("WordCounter starts.")] *)
| MWordCounterGo
| MLetterCounterPrint  (** [fmt.Println("LetterCounter starts.")] *)
| MLetterCounterGo
| MPrinterPrint        (** [fmt.Println("Printer starts.")] *)
| MPrinterMake         (** [var wg sync.WaitGroup; out := make(chan *count)] *)
| MPrinterAdd          (** [wg.Add(2)] *)
| MPrinterGo1          (** [go output(p.Line1)] *)
| MPrinterGo2          (** [go output(p.Line2)] *)
| MPrinterGoCloser     (** [go func() { wg.Wait(); close(out) }()] *)
| MPrinterGoSink       (** [go func() {...}()] of the printer *)
| MPrintSend           (** [fmt.Println("Send the data into the network.")] *)
| MFeed (rest : list string)  (** [in <- sentence], the sentences left *)
| MCloseIn             (** [close(in)] *)
| MWait                (** [<-done] *)
| MPrintShutdown       (** [fmt.Println("Network has shut down.")] *)
| MExit.

(** The state after [main] has made the channels and wired the nodes.
    The goroutines have the program counters of the nodes.  Four of
    them end with a [return] statement: the goroutines of [splitter],
    [wordCounter], [letterCounter] and the printer's own; for these the
    counter [Returned] stands at that statement and the flag
    [returned_...] says it has run.  [output] and the goroutine that
    closes [out] end with their last statement, [wg.Done()] and
    [close(out)].  The last two fields are history variables. *)
Record state : Type := mkState {
  input : chan string;   (** the network's input, [in] *)
  sToWc : chan string;
  sToLc : chan string;
  wcToP : chan count;
  lcToP : chan count;
  out : chan count;   (** the channel [merge] makes *)
  done : chan unit;
  wg : Z;   (** the WaitGroup of [merge] *)
  re : option regexp.Regexp;   (** [lc.re] *)
  main : main_pc;
  called_s : bool;   (** [Process] of the splitter has been called *)
  called_wc : bool;
  called_lc : bool;
  called_p : bool;
  returned_s : bool;   (** the splitter's goroutine has run its [return] *)
  returned_wc : bool;
  returned_lc : bool;
  returned_p : bool;   (** the printer's goroutine has run its [return] *)
  sp : Splitter.pc;   (** the splitter's goroutine *)
  wc : WordCounter.pc;   (** the wordCounter's goroutine *)
  lc : LetterCounter.pc;   (** the letterCounter's goroutine *)
  o1 : Printer.output_pc;   (** [output(p.Line1)] *)
  o2 : Printer.output_pc;   (** [output(p.Line2)] *)
  cl : Printer.closer_pc;   (** the goroutine that closes [out] *)
  sk : Printer.sink_pc;   (** the printer's goroutine *)
  stdout : list line;
  fed : list string;   (** history: the sentences [main] has sent *)
  merged : list (Printer.line_id * count)   (** history: the counts that went through [out] *)
}.

Definition set_input (v : chan string) (s : state) : state :=
  mkState v (sToWc s) (sToLc s) (wcToP s) (lcToP s) (out s) (done s) (wg s)
    (re s) (main s) (called_s s) (called_wc s) (called_lc s) (called_p s)
    (returned_s s) (returned_wc s) (returned_lc s) (returned_p s) (sp s) (wc
    s) (lc s) (o1 s) (o2 s) (cl s) (sk s) (stdout s) (fed s) (merged s).
Definition set_sToWc (v : chan string) (s : state) : state :=
  mkState (input s) v (sToLc s) (wcToP s) (lcToP s) (out s) (done s) (wg s)
    (re s) (main s) (called_s s) (called_wc s) (called_lc s) (called_p s)
    (returned_s s) (returned_wc s) (returned_lc s) (returned_p s) (sp s) (wc
    s) (lc s) (o1 s) (o2 s) (cl s) (sk s) (stdout s) (fed s) (merged s).
Definition set_sToLc (v : chan string) (s : state) : state :=
  mkState (input s) (sToWc s) v (wcToP s) (lcToP s) (out s) (done s) (wg s)
    (re s) (main s) (called_s s) (called_wc s) (called_lc s) (called_p s)
    (returned_s s) (returned_wc s) (returned_lc s) (returned_p s) (sp s) (wc
    s) (lc s) (o1 s) (o2 s) (cl s) (sk s) (stdout s) (fed s) (merged s).
Definition set_wcToP (v : chan count) (s : state) : state :=
  mkState (input s) (sToWc s) (sToLc s) v (lcToP s) (out s) (done s) (wg s)
    (re s) (main s) (called_s s) (called_wc s) (called_lc s) (called_p s)
    (returned_s s) (returned_wc s) (returned_lc s) (returned_p s) (sp s) (wc
    s) (lc s) (o1 s) (o2 s) (cl s) (sk s) (stdout s) (fed s) (merged s).
Definition set_lcToP (v : chan count) (s : state) : state :=
  mkState (input s) (sToWc s) (sToLc s) (wcToP s) v (out s) (done s) (wg s)
    (re s) (main s) (called_s s) (called_wc s) (called_lc s) (called_p s)
    (returned_s s) (returned_wc s) (returned_lc s) (returned_p s) (sp s) (wc
    s) (lc s) (o1 s) (o2 s) (cl s) (sk s) (stdout s) (fed s) (merged s).
Definition set_out (v : chan count) (s : state) : state :=
  mkState (input s) (sToWc s) (sToLc s) (wcToP s) (lcToP s) v (done s) (wg
    s) (re s) (main s) (called_s s) (called_wc s) (called_lc s) (called_p s)
    (returned_s s) (returned_wc s) (returned_lc s) (returned_p s) (sp s) (wc
    s) (lc s) (o1 s) (o2 s) (cl s) (sk s) (stdout s) (fed s) (merged s).
Definition set_done (v : chan unit) (s : state) : state :=
  mkState (input s) (sToWc s) (sToLc s) (wcToP s) (lcToP s) (out s) v (wg s)
    (re s) (main s) (called_s s) (called_wc s) (called_lc s) (called_p s)
    (returned_s s) (returned_wc s) (returned_lc s) (returned_p s) (sp s) (wc
    s) (lc s) (o1 s) (o2 s) (cl s) (sk s) (stdout s) (fed s) (merged s).
Definition set_wg (v : Z) (s : state) : state :=
  mkState (input s) (sToWc s) (sToLc s) (wcToP s) (lcToP s) (out s) (done s)
    v (re s) (main s) (called_s s) (called_wc s) (called_lc s) (called_p s)
    (returned_s s) (returned_wc s) (returned_lc s) (returned_p s) (sp s) (wc
    s) (lc s) (o1 s) (o2 s) (cl s) (sk s) (stdout s) (fed s) (merged s).
Definition set_re (v : option regexp.Regexp) (s : state) : state :=
  mkState (input s) (sToWc s) (sToLc s) (wcToP s) (lcToP s) (out s) (done s)
    (wg s) v (main s) (called_s s) (called_wc s) (called_lc s) (called_p s)
    (returned_s s) (returned_wc s) (returned_lc s) (returned_p s) (sp s) (wc
    s) (lc s) (o1 s) (o2 s) (cl s) (sk s) (stdout s) (fed s) (merged s).
Definition set_main (v : main_pc) (s : state) : state :=
  mkState (input s) (sToWc s) (sToLc s) (wcToP s) (lcToP s) (out s) (done s)
    (wg s) (re s) v (called_s s) (called_wc s) (called_lc s) (called_p s)
    (returned_s s) (returned_wc s) (returned_lc s) (returned_p s) (sp s) (wc
    s) (lc s) (o1 s) (o2 s) (cl s) (sk s) (stdout s) (fed s) (merged s).
Definition set_called_s (v : bool) (s : state) : state :=
  mkState (input s) (sToWc s) (sToLc s) (wcToP s) (lcToP s) (out s) (done s)
    (wg s) (re s) (main s) v (called_wc s) (called_lc s) (called_p s)
    (returned_s s) (returned_wc s) (returned_lc s) (returned_p s) (sp s) (wc
    s) (lc s) (o1 s) (o2 s) (cl s) (sk s) (stdout s) (fed s) (merged s).
Definition set_called_wc (v : bool) (s : state) : state :=
  mkState (input s) (sToWc s) (sToLc s) (wcToP s) (lcToP s) (out s) (done s)
    (wg s) (re s) (main s) (called_s s) v (called_lc s) (called_p s)
    (returned_s s) (returned_wc s) (returned_lc s) (returned_p s) (sp s) (wc
    s) (lc s) (o1 s) (o2 s) (cl s) (sk s) (stdout s) (fed s) (merged s).
Definition set_called_lc (v : bool) (s : state) : state :=
  mkState (input s) (sToWc s) (sToLc s) (wcToP s) (lcToP s) (out s) (done s)
    (wg s) (re s) (main s) (called_s s) (called_wc s) v (called_p s)
    (returned_s s) (returned_wc s) (returned_lc s) (returned_p s) (sp s) (wc
    s) (lc s) (o1 s) (o2 s) (cl s) (sk s) (stdout s) (fed s) (merged s).
Definition set_called_p (v : bool) (s : state) : state :=
  mkState (input s) (sToWc s) (sToLc s) (wcToP s) (lcToP s) (out s) (done s)
    (wg s) (re s) (main s) (called_s s) (called_wc s) (called_lc s) v
    (returned_s s) (returned_wc s) (returned_lc s) (returned_p s) (sp s) (wc
    s) (lc s) (o1 s) (o2 s) (cl s) (sk s) (stdout s) (fed s) (merged s).
Definition set_returned_s (v : bool) (s : state) : state :=
  mkState (input s) (sToWc s) (sToLc s) (wcToP s) (lcToP s) (out s) (done s)
    (wg s) (re s) (main s) (called_s s) (called_wc s) (called_lc s)
    (called_p s) v (returned_wc s) (returned_lc s) (returned_p s) (sp s) (wc
    s) (lc s) (o1 s) (o2 s) (cl s) (sk s) (stdout s) (fed s) (merged s).
Definition set_returned_wc (v : bool) (s : state) : state :=
  mkState (input s) (sToWc s) (sToLc s) (wcToP s) (lcToP s) (out s) (done s)
    (wg s) (re s) (main s) (called_s s) (called_wc s) (called_lc s)
    (called_p s) (returned_s s) v (returned_lc s) (returned_p s) (sp s) (wc
    s) (lc s) (o1 s) (o2 s) (cl s) (sk s) (stdout s) (fed s) (merged s).
Definition set_returned_lc (v : bool) (s : state) : state :=
  mkState (input s) (sToWc s) (sToLc s) (wcToP s) (lcToP s) (out s) (done s)
    (wg s) (re s) (main s) (called_s s) (called_wc s) (called_lc s)
    (called_p s) (returned_s s) (returned_wc s) v (returned_p s) (sp s) (wc
    s) (lc s) (o1 s) (o2 s) (cl s) (sk s) (stdout s) (fed s) (merged s).
Definition set_returned_p (v : bool) (s : state) : state :=
  mkState (input s) (sToWc s) (sToLc s) (wcToP s) (lcToP s) (out s) (done s)
    (wg s) (re s) (main s) (called_s s) (called_wc s) (called_lc s)
    (called_p s) (returned_s s) (returned_wc s) (returned_lc s) v (sp s) (wc
    s) (lc s) (o1 s) (o2 s) (cl s) (sk s) (stdout s) (fed s) (merged s).
Definition set_sp (v : Splitter.pc) (s : state) : state :=
  mkState (input s) (sToWc s) (sToLc s) (wcToP s) (lcToP s) (out s) (done s)
    (wg s) (re s) (main s) (called_s s) (called_wc s) (called_lc s)
    (called_p s) (returned_s s) (returned_wc s) (returned_lc s) (returned_p
    s) v (wc s) (lc s) (o1 s) (o2 s) (cl s) (sk s) (stdout s) (fed s)
    (merged s).
Definition set_wc (v : WordCounter.pc) (s : state) : state :=
  mkState (input s) (sToWc s) (sToLc s) (wcToP s) (lcToP s) (out s) (done s)
    (wg s) (re s) (main s) (called_s s) (called_wc s) (called_lc s)
    (called_p s) (returned_s s) (returned_wc s) (returned_lc s) (returned_p
    s) (sp s) v (lc s) (o1 s) (o2 s) (cl s) (sk s) (stdout s) (fed s)
    (merged s).
Definition set_lc (v : LetterCounter.pc) (s : state) : state :=
  mkState (input s) (sToWc s) (sToLc s) (wcToP s) (lcToP s) (out s) (done s)
    (wg s) (re s) (main s) (called_s s) (called_wc s) (called_lc s)
    (called_p s) (returned_s s) (returned_wc s) (returned_lc s) (returned_p
    s) (sp s) (wc s) v (o1 s) (o2 s) (cl s) (sk s) (stdout s) (fed s)
    (merged s).
Definition set_o1 (v : Printer.output_pc) (s : state) : state :=
  mkState (input s) (sToWc s) (sToLc s) (wcToP s) (lcToP s) (out s) (done s)
    (wg s) (re s) (main s) (called_s s) (called_wc s) (called_lc s)
    (called_p s) (returned_s s) (returned_wc s) (returned_lc s) (returned_p
    s) (sp s) (wc s) (lc s) v (o2 s) (cl s) (sk s) (stdout s) (fed s)
    (merged s).
Definition set_o2 (v : Printer.output_pc) (s : state) : state :=
  mkState (input s) (sToWc s) (sToLc s) (wcToP s) (lcToP s) (out s) (done s)
    (wg s) (re s) (main s) (called_s s) (called_wc s) (called_lc s)
    (called_p s) (returned_s s) (returned_wc s) (returned_lc s) (returned_p
    s) (sp s) (wc s) (lc s) (o1 s) v (cl s) (sk s) (stdout s) (fed s)
    (merged s).
Definition set_cl (v : Printer.closer_pc) (s : state) : state :=
  mkState (input s) (sToWc s) (sToLc s) (wcToP s) (lcToP s) (out s) (done s)
    (wg s) (re s) (main s) (called_s s) (called_wc s) (called_lc s)
    (called_p s) (returned_s s) (returned_wc s) (returned_lc s) (returned_p
    s) (sp s) (wc s) (lc s) (o1 s) (o2 s) v (sk s) (stdout s) (fed s)
    (merged s).
Definition set_sk (v : Printer.sink_pc) (s : state) : state :=
  mkState (input s) (sToWc s) (sToLc s) (wcToP s) (lcToP s) (out s) (done s)
    (wg s) (re s) (main s) (called_s s) (called_wc s) (called_lc s)
    (called_p s) (returned_s s) (returned_wc s) (returned_lc s) (returned_p
    s) (sp s) (wc s) (lc s) (o1 s) (o2 s) (cl s) v (stdout s) (fed s)
    (merged s).
(** [fmt.Println(operands...)] *)
Definition println (l : line) (s : state) : state :=
  mkState (input s) (sToWc s) (sToLc s) (wcToP s) (lcToP s) (out s) (done s)
    (wg s) (re s) (main s) (called_s s) (called_wc s) (called_lc s)
    (called_p s) (returned_s s) (returned_wc s) (returned_lc s) (returned_p
    s) (sp s) (wc s) (lc s) (o1 s) (o2 s) (cl s) (sk s) (stdout s ++ [l])
    (fed s) (merged s).
Definition add_fed (v : string) (s : state) : state :=
  mkState (input s) (sToWc s) (sToLc s) (wcToP s) (lcToP s) (out s) (done s)
    (wg s) (re s) (main s) (called_s s) (called_wc s) (called_lc s)
    (called_p s) (returned_s s) (returned_wc s) (returned_lc s) (returned_p
    s) (sp s) (wc s) (lc s) (o1 s) (o2 s) (cl s) (sk s) (stdout s) (fed s ++
    [v]) (merged s).
Definition add_merged (e : Printer.line_id * count) (s : state) : state :=
  mkState (input s) (sToWc s) (sToLc s) (wcToP s) (lcToP s) (out s) (done s)
    (wg s) (re s) (main s) (called_s s) (called_wc s) (called_lc s)
    (called_p s) (returned_s s) (returned_wc s) (returned_lc s) (returned_p
    s) (sp s) (wc s) (lc s) (o1 s) (o2 s) (cl s) (sk s) (stdout s) (fed s)
    (merged s ++ [e]).

Definition called (n : node) (s : state) : bool :=
  match n with
  | NSplitter => called_s s
  | NWordCounter => called_wc s
  | NLetterCounter => called_lc s
  | NPrinter => called_p s
  end.

Definition set_called (n : node) (s : state) : state :=
  match n with
  | NSplitter => set_called_s true s
  | NWordCounter => set_called_wc true s
  | NLetterCounter => set_called_lc true s
  | NPrinter => set_called_p true s
  end.

(** May [main] call [Process] of node [n] next? *)
Definition may_start (ord : start_order) (n : node) (s : state) : bool :=
  negb (called n s)
  && match ord with
     | MapRange => true
     | InOrder =>
         match n with
         | NSplitter => true
         | NWordCounter => called_s s
         | NLetterCounter => called_s s && called_wc s
         | NPrinter => called_s s && called_wc s && called_lc s
         end
     end.

Definition all_called (s : state) : bool :=
  called_s s && called_wc s && called_lc s && called_p s.

(** The first statement of [Process] of node [n]. *)
Definition first_pc (n : node) : main_pc :=
  match n with
  | NSplitter => MSplitterPrint
  | NWordCounter => MWordCounterPrint
  | NLetterCounter => MLetterCounterPrint
  | NPrinter => MPrinterPrint
  end.

(** Where [main] stands with the sentences [rest] left to send. *)
Definition feed_pc (rest : list string) : main_pc :=
  match rest with
  | [] => MCloseIn
  | _ :: _ => MFeed rest
  end.

Inductive label : Type :=
| Main                          (** [main] runs its next statement *)
| Start (n : node)              (** [main] calls [Process] of node [n] *)
| SplitterG                     (** the splitter's goroutine *)
| WordCounterG                  (** the wordCounter's goroutine *)
| LetterCounterG                (** the letterCounter's goroutine *)
| Output (i : Printer.line_id)  (** [output(p.Line1)], [output(p.Line2)] *)
| Closer                        (** the goroutine that closes [out] *)
| Sink.                         (** the printer's goroutine *)

Definition line_of (i : Printer.line_id) (s : state) : chan count :=
  match i with Printer.L1 => wcToP s | Printer.L2 => lcToP s end.
Definition set_line_of (i : Printer.line_id) (c : chan count) (s : state) : state :=
  match i with Printer.L1 => set_wcToP c s | Printer.L2 => set_lcToP c s end.
Definition output_of (i : Printer.line_id) (s : state) : Printer.output_pc :=
  match i with Printer.L1 => o1 s | Printer.L2 => o2 s end.
Definition set_output_of (i : Printer.line_id) (o : Printer.output_pc)
                         (s : state) : state :=
  match i with Printer.L1 => set_o1 o s | Printer.L2 => set_o2 o s end.

Section Program.
Variable ord : start_order.
Variable feed : list string.

Definition step (l : label) (st : state) : outcome state :=
  match l with
  | Start n =>
      match main st with
      | MNext => if may_start ord n st
                 then Next (set_main (first_pc n) (set_called n st))
                 else Halted
      | _ => Halted
      end
  | Main =>
      match main st with
      | MPrintStartNodes =>
          Next (set_main MNext (println [Str "Start the nodes."] st))
      | MNext =>
          (* every node is started: the calls are over *)
          if all_called st then Next (set_main MPrintSend st) else Halted
      | MSplitterPrint =>
          Next (set_main MSplitterGo (println [Str "Splitter starts."] st))
      | MSplitterGo => Next (set_main MNext (set_sp Splitter.Recv st))
      | MWordCounterPrint =>
          Next (set_main MWordCounterGo (println [Str "WordCounter starts."] st))
      | MWordCounterGo => Next (set_main MNext (set_wc WordCounter.Recv st))
      | MLetterCounterPrint =>
          Next (set_main MLetterCounterGo (println [Str "LetterCounter starts."] st))
      | MLetterCounterGo => Next (set_main MNext (set_lc LetterCounter.Init st))
      | MPrinterPrint =>
          Next (set_main MPrinterMake (println [Str "Printer starts."] st))
      | MPrinterMake => Next (set_main MPrinterAdd (set_out (make O) (set_wg 0 st)))
      | MPrinterAdd => Next (set_main MPrinterGo1 (set_wg (wg st + 2) st))
      | MPrinterGo1 => Next (set_main MPrinterGo2 (set_o1 Printer.ORange st))
      | MPrinterGo2 => Next (set_main MPrinterGoCloser (set_o2 Printer.ORange st))
      | MPrinterGoCloser => Next (set_main MPrinterGoSink (set_cl Printer.CWait st))
      | MPrinterGoSink => Next (set_main MNext (set_sk Printer.SRecv st))
      | MPrintSend =>
          Next (set_main (feed_pc feed)
                  (println [Str "Send the data into the network."] st))
      | MFeed [] => Halted
      | MFeed (s :: rest) =>
          match send (input st) s with
          | SendOk c => Next (set_main (feed_pc rest) (add_fed s (set_input c st)))
          | SendFull => Blocked
          | SendPanic => Panic
          end
      | MCloseIn =>
          match close (input st) with
          | Some c => Next (set_main MWait (set_input c st))
          | None => Panic
          end
      | MWait =>
          match recv (done st) with
          | RecvVal _ d => Next (set_main MPrintShutdown (set_done d st))
          | RecvClosed => Next (set_main MPrintShutdown st)
          | RecvEmpty => Blocked
          end
      | MPrintShutdown =>
          Next (set_main MExit (println [Str "Network has shut down."] st))
      | MExit => Halted
      end
  | SplitterG =>
      match sp st with
      | Splitter.NotStarted => Halted
      | Splitter.Recv =>
          match recv (input st) with
          | RecvVal s c => Next (set_sp (Splitter.Send1 s) (set_input c st))
          | RecvClosed => Next (set_sp Splitter.PrintFinished st)
          | RecvEmpty => Blocked
          end
      | Splitter.Send1 s =>
          match send (sToWc st) s with
          | SendOk c => Next (set_sp (Splitter.Send2 s) (set_sToWc c st))
          | SendFull => Blocked
          | SendPanic => Panic
          end
      | Splitter.Send2 s =>
          match send (sToLc st) s with
          | SendOk c => Next (set_sp Splitter.Recv (set_sToLc c st))
          | SendFull => Blocked
          | SendPanic => Panic
          end
      | Splitter.PrintFinished =>
          Next (set_sp Splitter.Close1 (println [Str "Splitter has finished."] st))
      | Splitter.Close1 =>
          match close (sToWc st) with
          | Some c => Next (set_sp Splitter.Close2 (set_sToWc c st))
          | None => Panic
          end
      | Splitter.Close2 =>
          match close (sToLc st) with
          | Some c => Next (set_sp Splitter.Returned (set_sToLc c st))
          | None => Panic
          end
      | Splitter.Returned =>
          (* [return] *)
          if returned_s st then Halted else Next (set_returned_s true st)
      end
  | WordCounterG =>
      match wc st with
      | WordCounter.NotStarted => Halted
      | WordCounter.Recv =>
          match recv (sToWc st) with
          | RecvVal s c => Next (set_wc (WordCounter.Send s) (set_sToWc c st))
          | RecvClosed => Next (set_wc WordCounter.PrintFinished st)
          | RecvEmpty => Blocked
          end
      | WordCounter.Send s =>
          match send (wcToP st) (wordCounter_emit s) with
          | SendOk c => Next (set_wc WordCounter.Recv (set_wcToP c st))
          | SendFull => Blocked
          | SendPanic => Panic
          end
      | WordCounter.PrintFinished =>
          Next (set_wc WordCounter.Close
                  (println [Str "WordCounter has finished."] st))
      | WordCounter.Close =>
          match close (wcToP st) with
          | Some c => Next (set_wc WordCounter.Returned (set_wcToP c st))
          | None => Panic
          end
      | WordCounter.Returned =>
          if returned_wc st then Halted else Next (set_returned_wc true st)
      end
  | LetterCounterG =>
      match lc st with
      | LetterCounter.NotStarted => Halted
      | LetterCounter.Init =>
          match letterCounter_Init with
          | Some r => Next (set_lc LetterCounter.Recv (set_re (Some r) st))
          | None => Panic
          end
      | LetterCounter.Recv =>
          match recv (sToLc st) with
          | RecvVal s c => Next (set_lc (LetterCounter.Send s) (set_sToLc c st))
          | RecvClosed => Next (set_lc LetterCounter.PrintFinished st)
          | RecvEmpty => Blocked
          end
      | LetterCounter.Send s =>
          match re st with
          | None => Panic   (* nil pointer dereference *)
          | Some r =>
              match send (lcToP st) (letterCounter_emit r s) with
              | SendOk c => Next (set_lc LetterCounter.Recv (set_lcToP c st))
              | SendFull => Blocked
              | SendPanic => Panic
              end
          end
      | LetterCounter.PrintFinished =>
          Next (set_lc LetterCounter.Close
                  (println [Str "LetterCounter has finished."] st))
      | LetterCounter.Close =>
          match close (lcToP st) with
          | Some c => Next (set_lc LetterCounter.Returned (set_lcToP c st))
          | None => Panic
          end
      | LetterCounter.Returned =>
          if returned_lc st then Halted else Next (set_returned_lc true st)
      end
  | Output i =>
      match output_of i st with
      | Printer.ONotStarted => Halted
      | Printer.ORange =>
          match recv (line_of i st) with
          | RecvVal n c => Next (set_output_of i (Printer.OSend n) (set_line_of i c st))
          | RecvClosed => Next (set_output_of i Printer.OWgDone st)
          | RecvEmpty => Blocked
          end
      | Printer.OSend n =>
          match send (out st) n with
          | SendOk c =>
              Next (set_output_of i Printer.ORange (set_out c (add_merged (i, n) st)))
          | SendFull =>
              (* unbuffered: the value goes straight to the waiting receive *)
              match sk st with
              | Printer.SRecv =>
                  Next (set_sk (Printer.SPrint n)
                          (set_output_of i Printer.ORange (add_merged (i, n) st)))
              | _ => Blocked
              end
          | SendPanic => Panic
          end
      | Printer.OWgDone =>
          if wg st - 1 <? 0 then Panic   (* negative WaitGroup counter *)
          else Next (set_output_of i Printer.OReturned (set_wg (wg st - 1) st))
      | Printer.OReturned => Halted
      end
  | Closer =>
      match cl st with
      | Printer.CNotStarted => Halted
      | Printer.CWait =>
          if wg st =? 0 then Next (set_cl Printer.CClose st) else Blocked
      | Printer.CClose =>
          match close (out st) with
          | Some c => Next (set_cl Printer.CReturned (set_out c st))
          | None => Panic
          end
      | Printer.CReturned => Halted
      end
  | Sink =>
      match sk st with
      | Printer.SNotStarted => Halted
      | Printer.SRecv =>
          match recv (out st) with
          | RecvVal c o => Next (set_sk (Printer.SPrint c) (set_out o st))
          | RecvClosed => Next (set_sk Printer.SPrintFinished st)
          | RecvEmpty => Blocked
          end
      | Printer.SPrint c => Next (set_sk Printer.SRecv (println (Printer.render c) st))
      | Printer.SPrintFinished =>
          Next (set_sk Printer.SCloseDone
                  (println [Str "Printer has finished."] st))
      | Printer.SCloseDone =>
          match close (done st) with
          | Some d => Next (set_sk Printer.SReturned (set_done d st))
          | None => Panic
          end
      | Printer.SReturned =>
          if returned_p st then Halted else Next (set_returned_p true st)
      end
  end.

End Program.

(** [main] up to the wiring: the five buffered channels of capacity 10,
    the unbuffered [done], the four node structs. *)
Definition init_state : state :=
  mkState (make 10) (make 10) (make 10) (make 10) (make 10) (make O) (make O)
    0 None MPrintStartNodes false false false false false false false false
    Splitter.NotStarted WordCounter.NotStarted LetterCounter.NotStarted
    Printer.ONotStarted Printer.ONotStarted Printer.CNotStarted
    Printer.SNotStarted [] [] [].

Definition init (st : state) : Prop := st = init_state.

(** The sentences [main] sends. *)
Definition sentences : list string := [sentence1; sentence2; sentence3].

(** The output listed at the end of [flow2go.go]. *)
Definition sample_output : list line :=
  [[Str "Start the nodes."];
   [Str "Splitter starts."];
   [Str "WordCounter starts."];
   [Str "LetterCounter starts."];
   [Str "Printer starts."];
   [Str "Send the data into the network."];
   [Str "Splitter has finished."];
   [Str "WordCounter has finished."];
   [Str "Words:"; Int 13];
   [Str "Words:"; Int 17];
   [Str "Words:"; Int 8];
   [Str "Letters:"; Int 45];
   [Str "LetterCounter has finished."];
   [Str "Letters:"; Int 70];
   [Str "Letters:"; Int 36];
   [Str "Printer has finished."];
   [Str "Network has shut down."]].

(** An interleaving that prints it. *)
Definition sample_schedule : list label :=
  [Main; Start NSplitter; Main; Main; Start NWordCounter; Main; Main;
   Start NLetterCounter; Main; Main;
   Start NPrinter; Main; Main; Main; Main; Main; Main; Main;
   Main; Main; Main; Main; Main; Main]
  (* the splitter passes the three sentences on and finishes *)
  ++ [SplitterG; SplitterG; SplitterG; SplitterG; SplitterG; SplitterG;
      SplitterG; SplitterG; SplitterG; SplitterG; SplitterG; SplitterG; SplitterG]
  (* the wordCounter counts them and finishes *)
  ++ [WordCounterG; WordCounterG; WordCounterG; WordCounterG; WordCounterG;
      WordCounterG; WordCounterG; WordCounterG; WordCounterG]
  (* the three word counts are printed *)
  ++ [Output Printer.L1; Output Printer.L1; Sink;
      Output Printer.L1; Output Printer.L1; Sink;
      Output Printer.L1; Output Printer.L1; Sink]
  (* the letterCounter counts; its first count is printed before it finishes *)
  ++ [LetterCounterG; LetterCounterG; LetterCounterG; LetterCounterG;
      LetterCounterG; LetterCounterG; LetterCounterG;
      Output Printer.L2; Output Printer.L2; Sink;
      LetterCounterG; LetterCounterG; LetterCounterG;
      Output Printer.L2; Output Printer.L2; Sink;
      Output Printer.L2; Output Printer.L2; Sink]
  (* the shutdown reaches the printer and [main] *)
  ++ [Output Printer.L1; Output Printer.L1; Output Printer.L2; Output Printer.L2;
      Closer; Closer; Sink; Sink; Sink; Main; Main].

(** Where [sample_schedule] ends. *)
Definition sample_final : state :=
  match run (step InOrder sentences) sample_schedule init_state with
  | Some st => st
  | None => init_state
  end.

(** ** What holds of every reachable state of the network *)

Definition in_splitter (m : main_pc) : bool :=
  match m with MSplitterPrint | MSplitterGo => true | _ => false end.
Definition in_wordCounter (m : main_pc) : bool :=
  match m with MWordCounterPrint | MWordCounterGo => true | _ => false end.
Definition in_letterCounter (m : main_pc) : bool :=
  match m with MLetterCounterPrint | MLetterCounterGo => true | _ => false end.
Definition in_printer (m : main_pc) : bool :=
  match m with
  | MPrinterPrint | MPrinterMake | MPrinterAdd | MPrinterGo1 | MPrinterGo2
  | MPrinterGoCloser | MPrinterGoSink => true
  | _ => false
  end.

(** How far [Process] of the printer has run, on the scale of
    [Printer.main_rank]. *)
Definition printer_rank (m : main_pc) (called_p : bool) : nat :=
  match m with
  | MPrinterPrint => 0 | MPrinterMake => 1 | MPrinterAdd => 2 | MPrinterGo1 => 3
  | MPrinterGo2 => 4 | MPrinterGoCloser => 5 | MPrinterGoSink => 6
  | _ => if called_p then 7 else 0
  end.

(** [main] is past the calls of [Process]. *)
Definition past_calls (m : main_pc) : bool :=
  match m with
  | MPrintSend | MFeed _ | MCloseIn | MWait | MPrintShutdown | MExit => true
  | _ => false
  end.

(** [main] has closed the input. *)
Definition past_close (m : main_pc) : bool :=
  match m with MWait | MPrintShutdown | MExit => true | _ => false end.

(** [main] is past [<-done]. *)
Definition past_wait (m : main_pc) : bool :=
  match m with MPrintShutdown | MExit => true | _ => false end.

(** The sentences [main] has still to send. *)
Definition unsent (feed : list string) (m : main_pc) : list string :=
  match m with
  | MFeed rest => rest
  | MCloseIn | MWait | MPrintShutdown | MExit => []
  | _ => feed
  end.

Definition spawned_sp (g : Splitter.pc) : bool :=
  match g with Splitter.NotStarted => false | _ => true end.
Definition spawned_wc (g : WordCounter.pc) : bool :=
  match g with WordCounter.NotStarted => false | _ => true end.
Definition spawned_lc (g : LetterCounter.pc) : bool :=
  match g with LetterCounter.NotStarted => false | _ => true end.

(** The sentence a goroutine holds between its receive and its sends. *)
Definition hold1 (g : Splitter.pc) : list string :=
  match g with Splitter.Send1 s => [s] | _ => [] end.
Definition hold2 (g : Splitter.pc) : list string :=
  match g with Splitter.Send1 s | Splitter.Send2 s => [s] | _ => [] end.
Definition hold_wc (g : WordCounter.pc) : list string :=
  match g with WordCounter.Send s => [s] | _ => [] end.

(** The matcher [letterCounter.Init] stores. *)
Definition lettersRe : regexp.Regexp :=
  match letterCounter_Init with
  | Some r => r
  | None => regexp.mkRegexp []
  end.

(** Goroutines, flags and channels agree. *)
Definition inv_control (feed : list string) (st : state) : Prop :=
  feed = fed st ++ unsent feed (main st)
  /\ match main st with MFeed [] => False | _ => True end
  /\ closed (input st) = past_close (main st)
  /\ (if past_calls (main st) then all_called st = true else True)
  /\ (if in_splitter (main st) then called_s st = true else True)
  /\ (if in_wordCounter (main st) then called_wc st = true else True)
  /\ (if in_letterCounter (main st) then called_lc st = true else True)
  /\ (if in_printer (main st) then called_p st = true else True)
  /\ spawned_sp (sp st) = called_s st && negb (in_splitter (main st))
  /\ spawned_wc (wc st) = called_wc st && negb (in_wordCounter (main st))
  /\ spawned_lc (lc st) = called_lc st && negb (in_letterCounter (main st))
  /\ Printer.spawned_output (o1 st)
     = (3 <? printer_rank (main st) (called_p st))%nat
  /\ Printer.spawned_output (o2 st)
     = (4 <? printer_rank (main st) (called_p st))%nat
  /\ Printer.spawned_closer (cl st)
     = (5 <? printer_rank (main st) (called_p st))%nat
  /\ Printer.spawned_sink (sk st)
     = (6 <? printer_rank (main st) (called_p st))%nat
  /\ wg st = (if (2 <? printer_rank (main st) (called_p st))%nat then 2 else 0)
             - Printer.returned (o1 st) - Printer.returned (o2 st)
  /\ cap (input st) = 10%nat /\ cap (sToWc st) = 10%nat /\ cap (sToLc st) = 10%nat
  /\ cap (wcToP st) = 10%nat /\ cap (lcToP st) = 10%nat
  /\ buf (out st) = [] /\ cap (out st) = O /\ buf (done st) = []
  /\ closed (sToWc st)
     = match sp st with Splitter.Close2 | Splitter.Returned => true | _ => false end
  /\ closed (sToLc st)
     = match sp st with Splitter.Returned => true | _ => false end
  /\ closed (wcToP st)
     = match wc st with WordCounter.Returned => true | _ => false end
  /\ closed (lcToP st)
     = match lc st with LetterCounter.Returned => true | _ => false end
  /\ closed (out st)
     = match cl st with Printer.CReturned => true | _ => false end
  /\ closed (done st)
     = match sk st with Printer.SReturned => true | _ => false end
  /\ (if Splitter.exhausted (sp st)
      then closed (input st) = true /\ buf (input st) = [] else True)
  /\ match wc st with
     | WordCounter.PrintFinished | WordCounter.Close | WordCounter.Returned =>
         closed (sToWc st) = true /\ buf (sToWc st) = []
     | _ => True
     end
  /\ match lc st with
     | LetterCounter.PrintFinished | LetterCounter.Close | LetterCounter.Returned =>
         closed (sToLc st) = true /\ buf (sToLc st) = []
     | _ => True
     end
  /\ (if Printer.input_done (o1 st)
      then closed (wcToP st) = true /\ buf (wcToP st) = [] else True)
  /\ (if Printer.input_done (o2 st)
      then closed (lcToP st) = true /\ buf (lcToP st) = [] else True)
  /\ (if Printer.past_wait (cl st) then wg st = 0 else True)
  /\ (if Printer.sink_done (sk st) then closed (out st) = true else True)
  /\ (if past_wait (main st) then closed (done st) = true else True)
  /\ match lc st with
     | LetterCounter.NotStarted | LetterCounter.Init => re st = None
     | _ => re st = Some lettersRe
     end.

(** Every sentence sent is at one place on its way to each of the two
    counts; the counts are printed in the order they leave [merge]. *)
Definition inv_data (st : state) : Prop :=
  map wordCounter_emit (fed st)
  = Printer.from Printer.L1 (merged st) ++ Printer.inflight (o1 st)
    ++ buf (wcToP st)
    ++ map wordCounter_emit
         (hold_wc (wc st) ++ buf (sToWc st) ++ hold1 (sp st) ++ buf (input st))
  /\ map (letterCounter_emit lettersRe) (fed st)
     = Printer.from Printer.L2 (merged st) ++ Printer.inflight (o2 st)
       ++ buf (lcToP st)
       ++ map (letterCounter_emit lettersRe)
            (LetterCounter.pending (lc st) ++ buf (sToLc st)
             ++ hold2 (sp st) ++ buf (input st))
  /\ Printer.printed (stdout st) ++ map Printer.render (Printer.unprinted (sk st))
     = map Printer.render (map snd (merged st)).

Definition inv (feed : list string) (st : state) : Prop :=
  inv_control feed st /\ inv_data st.

(** A bound on the moves left. *)
Definition calls_left (st : state) : nat :=
  ((if called_s st then 0 else 3) + (if called_wc st then 0 else 3)
   + (if called_lc st then 0 else 3) + (if called_p st then 0 else 8))%nat.

Definition main_weight (feed : list string) (st : state) : nat :=
  match main st with
  | MPrintStartNodes => 14 * List.length feed + 6 + calls_left st
  | MNext => 14 * List.length feed + 5 + calls_left st
  | MSplitterPrint | MWordCounterPrint | MLetterCounterPrint =>
      14 * List.length feed + 7 + calls_left st
  | MSplitterGo | MWordCounterGo | MLetterCounterGo =>
      14 * List.length feed + 6 + calls_left st
  | MPrinterPrint => 14 * List.length feed + 12 + calls_left st
  | MPrinterMake => 14 * List.length feed + 11 + calls_left st
  | MPrinterAdd => 14 * List.length feed + 10 + calls_left st
  | MPrinterGo1 => 14 * List.length feed + 9 + calls_left st
  | MPrinterGo2 => 14 * List.length feed + 8 + calls_left st
  | MPrinterGoCloser => 14 * List.length feed + 7 + calls_left st
  | MPrinterGoSink => 14 * List.length feed + 6 + calls_left st
  | MPrintSend => 14 * List.length feed + 4
  | MFeed rest => 14 * List.length rest + 3
  | MCloseIn => 3
  | MWait => 2
  | MPrintShutdown => 1
  | MExit => 0
  end%nat.

Definition splitter_weight (g : Splitter.pc) : nat :=
  match g with
  | Splitter.NotStarted => 4 | Splitter.Recv => 4 | Splitter.Send1 _ => 16
  | Splitter.Send2 _ => 10 | Splitter.PrintFinished => 3 | Splitter.Close1 => 2
  | Splitter.Close2 => 1 | Splitter.Returned => 0
  end.
Definition wordCounter_weight (g : WordCounter.pc) : nat :=
  match g with
  | WordCounter.NotStarted => 3 | WordCounter.Recv => 3 | WordCounter.Send _ => 7
  | WordCounter.PrintFinished => 2 | WordCounter.Close => 1
  | WordCounter.Returned => 0
  end.
Definition letterCounter_weight (g : LetterCounter.pc) : nat :=
  match g with
  | LetterCounter.NotStarted => 4 | LetterCounter.Init => 4
  | LetterCounter.Recv => 3 | LetterCounter.Send _ => 7
  | LetterCounter.PrintFinished => 2 | LetterCounter.Close => 1
  | LetterCounter.Returned => 0
  end.

(** The [return] statements not yet run. *)
Definition returns_left (st : state) : nat :=
  ((if returned_s st then 0 else 1) + (if returned_wc st then 0 else 1)
   + (if returned_lc st then 0 else 1) + (if returned_p st then 0 else 1))%nat.

Definition moves_left (feed : list string) (st : state) : nat :=
  (main_weight feed st + returns_left st
   + 13 * List.length (buf (input st)) + splitter_weight (sp st)
   + 5 * List.length (buf (sToWc st)) + wordCounter_weight (wc st)
   + 5 * List.length (buf (sToLc st)) + letterCounter_weight (lc st)
   + 3 * List.length (buf (wcToP st)) + Printer.output_weight (o1 st)
   + 3 * List.length (buf (lcToP st)) + Printer.output_weight (o2 st)
   + Printer.closer_weight (cl st) + Printer.sink_weight (sk st))%nat.

(** Some goroutine can run its next statement. *)
Definition can_move (ord : start_order) (feed : list string) (st : state) : Prop :=
  exists l st', step ord feed l st = Next st'.

(** [main] is past the calls, and the printer's goroutine waits for a
    value of [out], which is open. *)
Definition sink_waits (st : state) : Prop :=
  past_calls (main st) = true /\ sk st = Printer.SRecv
  /\ closed (out st) = false.

(** The count lines with a given first operand. *)
Definition tagged (t : string) (l : line) : bool :=
  match l with
  | [Str x; Int _] => String.eqb x t
  | _ => false
  end.


(** ** The order of the lines printed *)

(** Is the line the message [m]? *)
Definition is_message (m : string) (x : line) : bool :=
  match x with
  | [Str y] => String.eqb m y
  | _ => false
  end.

(** Has the message [m] been printed? *)
Definition seen (m : string) (o : list line) : bool := existsb (is_message m) o.

(** May the line [x] follow the lines [before]?  The rules read off the
    output listed in [flow2go.go]. *)
Definition may_print (before : list line) (x : line) : bool :=
  (* the output begins with "Start the nodes." *)
  (is_message "Start the nodes." x || seen "Start the nodes." before)
  (* a message is printed once *)
  && match x with
     | [Str m] => negb (seen m before)
     | _ => true
     end
  (* the data is sent when the four nodes have been started *)
  && (if is_message "Send the data into the network." x
      then seen "Splitter starts." before && seen "WordCounter starts." before
           && seen "LetterCounter starts." before && seen "Printer starts." before
      else true)
  (* counts and the ends of the nodes come after the data is sent *)
  && (if Printer.is_count_line x
         || is_message "Splitter has finished." x
         || is_message "WordCounter has finished." x
         || is_message "LetterCounter has finished." x
         || is_message "Printer has finished." x
      then seen "Send the data into the network." before
      else true)
  (* the counters finish after the splitter *)
  && (if is_message "WordCounter has finished." x
         || is_message "LetterCounter has finished." x
      then seen "Splitter has finished." before
      else true)
  (* the printer finishes after the counters *)
  && (if is_message "Printer has finished." x
      then seen "WordCounter has finished." before
           && seen "LetterCounter has finished." before
      else true)
  (* after the printer has finished only the shutdown is printed *)
  && (if is_message "Network has shut down." x
      then seen "Printer has finished." before
      else negb (seen "Printer has finished." before))
  (* and nothing after the shutdown *)
  && negb (seen "Network has shut down." before).

(** Every line of [o] may follow the lines before it. *)
Fixpoint well_ordered (before o : list line) : bool :=
  match o with
  | [] => true
  | x :: rest => may_print before x && well_ordered (before ++ [x]) rest
  end.

Definition starting (m : main_pc) : bool :=
  match m with MPrintStartNodes => true | _ => false end.
Definition exited (m : main_pc) : bool :=
  match m with MExit => true | _ => false end.
(** [main] has printed "Send the data into the network.". *)
Definition past_send (m : main_pc) : bool :=
  match m with
  | MFeed _ | MCloseIn | MWait | MPrintShutdown | MExit => true
  | _ => false
  end.
(** [main] has printed the start of a node. *)
Definition started (n : node) (s : state) : bool :=
  called n s
  && negb match n, main s with
          | NSplitter, MSplitterPrint | NWordCounter, MWordCounterPrint
          | NLetterCounter, MLetterCounterPrint | NPrinter, MPrinterPrint => true
          | _, _ => false
          end.
(** A goroutine has printed its end. *)
Definition sp_printed (g : Splitter.pc) : bool :=
  match g with
  | Splitter.Close1 | Splitter.Close2 | Splitter.Returned => true
  | _ => false
  end.
Definition wc_printed (g : WordCounter.pc) : bool :=
  match g with WordCounter.Close | WordCounter.Returned => true | _ => false end.
Definition lc_printed (g : LetterCounter.pc) : bool :=
  match g with LetterCounter.Close | LetterCounter.Returned => true | _ => false end.
Definition sk_printed (k : Printer.sink_pc) : bool :=
  match k with Printer.SCloseDone | Printer.SReturned => true | _ => false end.

(** The lines printed keep the order, and each message stands for the
    statement that prints it. *)
Definition inv_log (st : state) : Prop :=
  well_ordered [] (stdout st) = true
  /\ seen "Start the nodes." (stdout st) = negb (starting (main st))
  /\ seen "Splitter starts." (stdout st) = started NSplitter st
  /\ seen "WordCounter starts." (stdout st) = started NWordCounter st
  /\ seen "LetterCounter starts." (stdout st) = started NLetterCounter st
  /\ seen "Printer starts." (stdout st) = started NPrinter st
  /\ seen "Send the data into the network." (stdout st) = past_send (main st)
  /\ seen "Splitter has finished." (stdout st) = sp_printed (sp st)
  /\ seen "WordCounter has finished." (stdout st) = wc_printed (wc st)
  /\ seen "LetterCounter has finished." (stdout st) = lc_printed (lc st)
  /\ seen "Printer has finished." (stdout st) = sk_printed (sk st)
  /\ seen "Network has shut down." (stdout st) = exited (main st)
  /\ (if starting (main st)
      then called_s st = false /\ called_wc st = false
           /\ called_lc st = false /\ called_p st = false
      else True)
  /\ match fed st with
     | [] => True
     | _ :: _ => past_send (main st) = true
     end.

End Network.

(* ===================================================================== *)
(** * The counts as the specification words them *)
(* ===================================================================== *)

Module Spec.
Import GoString.

(** The number of space characters of a string. *)
Fixpoint spaces (s : string) : nat :=
  match s with
  | EmptyString => O
  | String c t => ((if Ascii.eqb c " " then 1 else 0) + spaces t)%nat
  end.

(** The tokens between single spaces, empty ones included. *)
Fixpoint tokens (s : string) : list string :=
  match s with
  | EmptyString => [EmptyString]
  | String c t =>
      if Ascii.eqb c " " then EmptyString :: tokens t
      else match tokens t with
           | tok :: rest => String c tok :: rest
           | [] => [String c EmptyString]
           end
  end.

(** A byte of the class [A-Z, a-z]. *)
Definition isLetter (c : ascii) : bool :=
  ((byteZ "A" <=? byteZ c) && (byteZ c <=? byteZ "Z"))
  || ((byteZ "a" <=? byteZ c) && (byteZ c <=? byteZ "z")).

(** A rune of the class [A-Z, a-z]. *)
Definition isLetterRune (r : Z) : bool :=
  ((0x41 <=? r) && (r <=? 0x5A)) || ((0x61 <=? r) && (r <=? 0x7A)).

(** The number of bytes of a string that are letters of the class. *)
Fixpoint letters (s : string) : nat :=
  match s with
  | EmptyString => O
  | String c t => ((if isLetter c then 1 else 0) + letters t)%nat
  end.

End Spec.

(** The matches [FindAllString] delivers for the class [a-zA-Z] as the
    specification words them: the letter bytes of the string, each a
    string of its own, in the order they stand. *)
Fixpoint letterMatches (s : string) : list string :=
  match s with
  | EmptyString => []
  | String c t =>
      if Spec.isLetter c then String c EmptyString :: letterMatches t
      else letterMatches t
  end.

(* ===================================================================== *)
(** * Proofs *)
(* ===================================================================== *)

Section StringFacts.
Import GoString.

Lemma byteZ_range (c : ascii) : 0 <= byteZ c < 256.
Proof.
  unfold byteZ. pose proof (N_ascii_bounded c) as H. lia.
Qed.

Lemma len_drop (n : nat) (s : string) : len (drop n s) = (len s - n)%nat.
Proof.
  revert s; induction n as [|n IH]; intros [|c t]; simpl; auto.
Qed.

Lemma take_drop (n : nat) (s : string) : (take n s ++ drop n s)%string = s.
Proof.
  revert s; induction n as [|n IH]; intros [|c t]; simpl; auto.
  now rewrite IH.
Qed.

Lemma letters_app (s t : string) :
  Spec.letters (s ++ t)%string = (Spec.letters s + Spec.letters t)%nat.
Proof.
  induction s as [|c s IH]; simpl; auto. rewrite IH. lia.
Qed.

Lemma spaces_le_len (s : string) : (Spec.spaces s <= len s)%nat.
Proof.
  induction s as [|c s IH]; simpl; auto. destruct (Ascii.eqb c " "); unfold len in *; lia.
Qed.

Lemma letters_le_len (s : string) : (Spec.letters s <= len s)%nat.
Proof.
  induction s as [|c s IH]; simpl; auto. destruct (Spec.isLetter c); unfold len in *; lia.
Qed.

Lemma CountString_spaces (s : string) : strings.CountString s " " = Spec.spaces s.
Proof.
  induction s as [|c s IH]; simpl; auto.
Qed.

Lemma length_tokens (s : string) : List.length (Spec.tokens s) = S (Spec.spaces s).
Proof.
  induction s as [|c s IH]; simpl; auto.
  destruct (Ascii.eqb c " "); simpl.
  - now rewrite IH.
  - destruct (Spec.tokens s); simpl in *; lia.
Qed.

Lemma HasPrefix_empty (s : string) : HasPrefix s "" = true.
Proof. destruct s; reflexivity. Qed.

(** What [Index] finds for the separator of one space. *)
Lemma Index_space (s : string) :
  match strings.Index s " " with
  | None => Spec.tokens s = [s] /\ Spec.spaces s = O
  | Some m => Spec.tokens s = take m s :: Spec.tokens (drop (m + 1) s)
              /\ Spec.spaces s = S (Spec.spaces (drop (m + 1) s))
  end.
Proof.
  induction s as [|c s IH].
  - simpl. auto.
  - cbn [strings.Index HasPrefix]. rewrite HasPrefix_empty, andb_true_r.
    destruct (Ascii.eqb " " c) eqn:E.
    + apply Ascii.eqb_eq in E. subst c. simpl. auto.
    + rewrite Ascii.eqb_sym in E. simpl. rewrite E.
      destruct (strings.Index s " ") as [m|]; simpl;
        destruct IH as [IH1 IH2]; rewrite IH1, IH2; auto.
Qed.

Lemma genSplitLoop_space (k : nat) (s : string) :
  (Spec.spaces s <= k)%nat -> strings.genSplitLoop k s " " 0 = Spec.tokens s.
Proof.
  revert s; induction k as [|k IH]; intros s H; simpl;
    pose proof (Index_space s) as HI.
  - destruct (strings.Index s " ") as [m|]; destruct HI as [H1 H2]; try lia.
    now rewrite H1.
  - destruct (strings.Index s " ") as [m|]; destruct HI as [H1 H2].
    + rewrite H1. f_equal.
      * f_equal. lia.
      * apply IH. lia.
    + now rewrite H1.
Qed.

Lemma Split_space (s : string) : strings.Split s " " = Spec.tokens s.
Proof.
  unfold strings.Split, strings.genSplit. simpl.
  rewrite CountString_spaces.
  pose proof (spaces_le_len s) as H.
  destruct (Z.of_nat (len s) + 1 <? Z.of_nat (Spec.spaces s) + 1) eqn:E.
  - apply Z.ltb_lt in E. lia.
  - apply genSplitLoop_space. lia.
Qed.

End StringFacts.

(* ===================================================================== *)
(** * Facts on UTF-8 decoding and on the matcher *)
(* ===================================================================== *)

Section MatcherFacts.
Import GoString.

Lemma lor_ge_l (a b : Z) : 0 <= a -> 0 <= b -> a <= Z.lor a b.
Proof.
  intros Ha Hb. pose proof (Z.sub_lor_l_same_l b a) as H.
  assert (0 <= Z.land b (Z.lnot a)) by (apply Z.land_nonneg; auto).
  lia.
Qed.

Lemma lor_ge_r (a b : Z) : 0 <= a -> 0 <= b -> b <= Z.lor a b.
Proof. intros. rewrite Z.lor_comm. now apply lor_ge_l. Qed.

Lemma land_31 a : Z.land a 0x1F = a mod 32.
Proof. change 0x1F with (Z.ones 5). now rewrite Z.land_ones. Qed.
Lemma land_15 a : Z.land a 0x0F = a mod 16.
Proof. change 0x0F with (Z.ones 4). now rewrite Z.land_ones. Qed.
Lemma land_7 a : Z.land a 0x07 = a mod 8.
Proof. change 0x07 with (Z.ones 3). now rewrite Z.land_ones. Qed.
Lemma land_63 a : Z.land a 0x3F = a mod 64.
Proof. change 0x3F with (Z.ones 6). now rewrite Z.land_ones. Qed.

Lemma isLetter_high (c : ascii) : 0x80 <= byteZ c -> Spec.isLetter c = false.
Proof.
  intros H. unfold Spec.isLetter.
  change (byteZ "Z") with 90. change (byteZ "z") with 122.
  destruct (byteZ c <=? 90) eqn:E1; [apply Z.leb_le in E1; lia|].
  destruct (byteZ c <=? 122) eqn:E2; [apply Z.leb_le in E2; lia|].
  now rewrite !andb_false_r.
Qed.

Lemma isLetterRune_high (r : Z) : 0x80 <= r -> Spec.isLetterRune r = false.
Proof.
  intros H. unfold Spec.isLetterRune.
  destruct (r <=? 90) eqn:E1; [apply Z.leb_le in E1; lia|].
  destruct (r <=? 122) eqn:E2; [apply Z.leb_le in E2; lia|].
  now rewrite !andb_false_r.
Qed.

Lemma isLetterRune_byte (c : ascii) : Spec.isLetterRune (byteZ c) = Spec.isLetter c.
Proof. reflexivity. Qed.

Lemma first_high (b : Z) :
  0x80 <= b < 256 ->
  utf8.first b = utf8.st_xx
  \/ (utf8.first b = utf8.st_s1 /\ 0xC2 <= b <= 0xDF)
  \/ (utf8.first b = utf8.st_s2 /\ b = 0xE0)
  \/ (utf8.first b = utf8.st_s3 /\ 0xE1 <= b <= 0xEF)
  \/ (utf8.first b = utf8.st_s4 /\ b = 0xED)
  \/ (utf8.first b = utf8.st_s5 /\ b = 0xF0)
  \/ (utf8.first b = utf8.st_s6 /\ 0xF1 <= b <= 0xF3)
  \/ (utf8.first b = utf8.st_s7 /\ b = 0xF4).
Proof.
  intros H. unfold utf8.first.
  repeat match goal with
  | |- context [if ?x <? ?k then _ else _] =>
      let E := fresh "E" in destruct (x <? k) eqn:E;
      [apply Z.ltb_lt in E | apply Z.ltb_ge in E]
  | |- context [if ?x =? ?k then _ else _] =>
      let E := fresh "E" in destruct (x =? k) eqn:E;
      [apply Z.eqb_eq in E | apply Z.eqb_neq in E]
  end; try lia; intuition lia.
Qed.

Ltac const_eval t := let v := eval vm_compute in t in change t with v.

Ltac split_cond :=
  match goal with
  | |- context [if (?a <? ?b) || (?c <? ?d) then _ else _] =>
      let E := fresh "E" in
      destruct ((a <? b) || (c <? d)) eqn:E;
      [| apply orb_false_iff in E; destruct E as [?E ?E];
         match goal with H : (a <? b) = false |- _ => apply Z.ltb_ge in H end;
         match goal with H : (c <? d) = false |- _ => apply Z.ltb_ge in H end]
  | |- context [if Z.of_nat ?n <? ?k then _ else _] =>
      let E := fresh "E" in
      destruct (Z.of_nat n <? k) eqn:E;
      [apply Z.ltb_lt in E | apply Z.ltb_ge in E]
  end.

Lemma lor_nonneg' (a b : Z) : 0 <= a -> 0 <= b -> 0 <= Z.lor a b.
Proof. intros. apply Z.lor_nonneg. auto. Qed.

Lemma lor_lb_l (k a b : Z) : 0 <= a -> 0 <= b -> k <= a -> k <= Z.lor a b.
Proof. intros Ha Hb Hk. pose proof (lor_ge_l a b Ha Hb). lia. Qed.

Lemma lor_lb_r (k a b : Z) : 0 <= a -> 0 <= b -> k <= b -> k <= Z.lor a b.
Proof. intros Ha Hb Hk. pose proof (lor_ge_r a b Ha Hb). lia. Qed.

Ltac arith_leaf := Z.div_mod_to_equations; lia.

Ltac nonneg := repeat apply lor_nonneg'; arith_leaf.

Ltac rune_lb :=
  first [ arith_leaf
        | apply lor_lb_l; [nonneg | nonneg | rune_lb]
        | apply lor_lb_r; [nonneg | nonneg | rune_lb] ].

Ltac decode_leaf :=
  cbn [fst snd take Spec.letters len String.length];
  repeat match goal with
  | |- context [Spec.isLetter ?c] => rewrite (isLetter_high c) by lia
  end;
  repeat split; try reflexivity; try lia;
  rewrite ?land_31, ?land_15, ?land_7, ?land_63, ?Z.shiftl_mul_pow2 by lia;
  change (2 ^ 6) with 64; change (2 ^ 12) with 4096; change (2 ^ 18) with 262144;
  rune_lb.

(** A sequence that starts beyond ASCII decodes to a rune beyond ASCII,
    and every byte it takes is beyond ASCII. *)
Lemma DecodeRune_high (c : ascii) (t : string) :
  0x80 <= byteZ c ->
  let rw := utf8.DecodeRuneInString (String c t) in
  0x80 <= fst rw /\ (1 <= snd rw <= len (String c t))%nat
  /\ Spec.letters (take (snd rw) (String c t)) = O.
Proof.
  intros Hc. pose proof (byteZ_range c) as Rc.
  cbv zeta. unfold utf8.DecodeRuneInString.
  destruct (first_high (byteZ c) (conj Hc (proj2 Rc)))
    as [F|[[F R]|[[F R]|[[F R]|[[F R]|[[F R]|[[F R]|[F R]]]]]]]];
    rewrite F; clear F.
  all: match goal with |- context [utf8.st_as <=? ?x] =>
         const_eval (utf8.st_as <=? x) end; cbv iota.
  all: try match goal with |- context [Z.testbit ?x 0] =>
         const_eval (Z.testbit x 0) end; cbv iota.
  all: try (unfold utf8.RuneError; decode_leaf; fail).
  all: repeat match goal with |- context [Z.land ?x 7] =>
         const_eval (Z.land x 7) end.
  all: match goal with |- context [utf8.acceptRanges ?x] =>
         const_eval (utf8.acceptRanges x) end; cbn [fst snd].
  all: unfold utf8.RuneError, utf8.locb, utf8.hicb, utf8.mask2, utf8.mask3,
         utf8.mask4, utf8.maskx.
  all: split_cond; [decode_leaf|].
  all: destruct t as [|c1 t1]; [decode_leaf|].
  all: pose proof (byteZ_range c1).
  all: split_cond; [decode_leaf|].
  all: match goal with |- context [?a <=? 2] => const_eval (a <=? 2) end; cbv iota.
  1: decode_leaf.
  all: destruct t1 as [|c2 t2]; [decode_leaf|].
  all: pose proof (byteZ_range c2).
  all: split_cond; [decode_leaf|].
  all: match goal with |- context [?a <=? 3] => const_eval (a <=? 3) end; cbv iota.
  1-3: decode_leaf.
  all: destruct t2 as [|c3 t3]; [decode_leaf|].
  all: pose proof (byteZ_range c3).
  all: split_cond; decode_leaf.
Qed.

Lemma take_add (n m : nat) (s : string) :
  take (n + m) s = (take n s ++ take m (drop n s))%string.
Proof.
  revert s; induction n as [|n IH]; intros s; simpl; auto.
  destruct s as [|c t]; simpl.
  - destruct m; reflexivity.
  - now rewrite IH.
Qed.

Lemma matchRune_class (r : Z) :
  regexp.matchRune (regexp.mkRegexp [(97, 122); (65, 90)]) r = Spec.isLetterRune r.
Proof.
  unfold regexp.matchRune, Spec.isLetterRune. simpl.
  now rewrite orb_false_r, orb_comm.
Qed.

(** One step of the matcher's input: a letter rune is one letter byte,
    any other rune covers no letter byte. *)
Lemma step_letters (c : ascii) (t : string) :
  let rw := regexp.step (String c t) in
  (1 <= snd rw <= len (String c t))%nat
  /\ (if Spec.isLetterRune (fst rw)
      then snd rw = 1%nat /\ Spec.isLetter c = true
      else Spec.letters (take (snd rw) (String c t)) = O).
Proof.
  cbv zeta. unfold regexp.step, utf8.RuneSelf.
  destruct (byteZ c <? 128) eqn:E.
  - cbn [fst snd]. rewrite isLetterRune_byte. split.
    + simpl. lia.
    + destruct (Spec.isLetter c) eqn:L; auto.
      simpl. now rewrite L.
  - apply Z.ltb_ge in E.
    destruct (DecodeRune_high c t E) as (H1 & H2 & H3).
    rewrite (isLetterRune_high _ H1). auto.
Qed.

Lemma leftmost_letters (k : nat) (s : string) :
  (len s <= k)%nat ->
  match regexp.leftmost k (regexp.mkRegexp [(97, 122); (65, 90)]) s with
  | None => Spec.letters s = O
  | Some (a, b) => (a < b <= len s)%nat /\ Spec.letters (take b s) = 1%nat
  end.
Proof.
  revert s; induction k as [|k IH]; intros s Hk.
  - destruct s; simpl in *; [reflexivity | lia].
  - destruct s as [|c t]; [reflexivity|].
    cbn [regexp.leftmost].
    pose proof (step_letters c t) as St. cbv zeta in St.
    destruct (regexp.step (String c t)) as [r w]. cbn [fst snd] in St.
    rewrite matchRune_class. destruct St as [Hw St].
    destruct (Spec.isLetterRune r).
    + destruct St as [-> L]. split; [lia|].
      simpl. now rewrite L.
    + assert (Hd : (len (drop w (String c t)) <= k)%nat).
      { rewrite len_drop. unfold len in *. cbn [String.length] in *. lia. }
      specialize (IH _ Hd).
      destruct (regexp.leftmost k _ (drop w (String c t))) as [[a b]|];
        cbn [option_map fst snd].
      * destruct IH as [Hab L]. rewrite len_drop in Hab. split; [lia|].
        rewrite take_add, letters_app, St, L. reflexivity.
      * rewrite <- (take_drop w (String c t)), letters_app, St, IH. reflexivity.
Qed.

Lemma allMatches_letters (k : nat) (s : string) :
  (Spec.letters s <= k)%nat ->
  List.length (regexp.allMatches k (regexp.mkRegexp [(97, 122); (65, 90)]) s)
  = Spec.letters s.
Proof.
  revert s; induction k as [|k IH]; intros s Hk; simpl.
  - lia.
  - unfold regexp.doExecute.
    pose proof (leftmost_letters (len s) s (Nat.le_refl _)) as Hl.
    destruct (regexp.leftmost (len s) _ s) as [[a b]|]; simpl.
    + destruct Hl as [Hab L].
      assert (E : Spec.letters s = S (Spec.letters (drop b s))).
      { rewrite <- (take_drop b s) at 1. rewrite letters_app, L. reflexivity. }
      rewrite IH; lia.
    + lia.
Qed.

Lemma FindAllString_letters (s : string) :
  List.length (regexp.FindAllString (regexp.mkRegexp [(97, 122); (65, 90)]) s (-1))
  = Spec.letters s.
Proof.
  unfold regexp.FindAllString. change (-1 <? 0) with true. cbv beta iota zeta.
  apply allMatches_letters. pose proof (letters_le_len s). lia.
Qed.

Lemma letterCounter_Init_class :
  letterCounter_Init = Some (regexp.mkRegexp [(97, 122); (65, 90)]).
Proof. vm_compute. reflexivity. Qed.

End MatcherFacts.

(* ===================================================================== *)
(** * Facts on runs and the invariants of the nodes *)
(* ===================================================================== *)

Import Chan.
Local Close Scope Z_scope.

Section RunFacts.
Context {S L : Type}.
Variable step : L -> S -> outcome S.
Variable init : S -> Prop.

Lemma reachable_ind_inv (P : S -> Prop) :
  (forall s, init s -> P s) ->
  (forall s l s', P s -> step l s = Next s' -> P s') ->
  forall s, reachable step init s -> P s.
Proof.
  intros Hi Hs s R. induction R; eauto.
Qed.

Lemma reachable_run (ls : list L) (s s' : S) :
  reachable step init s -> run step ls s = Some s' -> reachable step init s'.
Proof.
  revert s; induction ls as [|l ls IH]; intros s R H; simpl in H.
  - now inversion H; subst.
  - destruct (step l s) eqn:E; try discriminate.
    eapply IH; [|exact H]. eapply reach_step; eauto.
Qed.
End RunFacts.

Ltac boolprop :=
  repeat match goal with
  | H : (_ <? _)%nat = true |- _ => apply Nat.ltb_lt in H
  | H : (_ <? _)%nat = false |- _ => apply Nat.ltb_ge in H
  | H : (_ =? _)%nat = true |- _ => apply Nat.eqb_eq in H
  | H : (_ =? _)%nat = false |- _ => apply Nat.eqb_neq in H
  | H : (_ =? _)%Z = true |- _ => apply Z.eqb_eq in H
  | H : (_ =? _)%Z = false |- _ => apply Z.eqb_neq in H
  | H : (_ <? _)%Z = true |- _ => apply Z.ltb_lt in H
  | H : (_ <? _)%Z = false |- _ => apply Z.ltb_ge in H
  end.

(** Split the outcome of a step along the tests the step makes. *)
Ltac step_cases H :=
  unfold recv, send, close in H; cbn [buf cap closed] in H;
  repeat match type of H with
  | context [match ?x with _ => _ end] =>
      lazymatch x with
      | context [match _ with _ => _ end] => fail
      | _ => destruct x eqn:?
      end
  end;
  try discriminate; inversion H; subst; clear H; boolprop.

Ltac fin :=
  repeat match goal with
  | H : cap ?c = O, H' : (List.length (buf ?c) <= cap ?c)%nat |- _ =>
      let E := fresh "E" in
      destruct (buf c) eqn:E; [| rewrite H in H'; simpl in H'; lia]
  end;
  cbn in *;
  intuition (subst; cbn in *; try congruence; try discriminate; try lia);
  repeat match goal with
  | H : _ ++ [_] = [] |- _ => apply app_eq_nil in H; destruct H; discriminate
  | H : buf ?c = _ |- _ => rewrite H in *
  end;
  rewrite <- ?app_assoc, ?app_nil_r, ?length_app in *; cbn in *;
  try congruence; try lia.

Lemma splitter_inv_step (s : Splitter.state) (l : Splitter.label) (s' : Splitter.state) :
  Splitter.inv s -> Splitter.step l s = Next s' -> Splitter.inv s'.
Proof.
  intros I H. destruct s as [i o1 o2 m g out sn rc w1 w2 r1 r2].
  unfold Splitter.inv, Splitter.copies in *. cbn [Splitter.In Splitter.Out1 Splitter.Out2 Splitter.main Splitter.gor Splitter.stdout Splitter.sent Splitter.rcvd Splitter.wrote1 Splitter.wrote2 Splitter.got1 Splitter.got2] in *.
  destruct I as (I1 & I2 & I3 & I4 & I5 & I6 & I7 & I8 & I9).
  destruct l; cbn [Splitter.step] in H; destruct m, g; step_cases H.
  all: fin.
Qed.

Lemma printer_inv_init st : Printer.init st -> Printer.inv st.
Proof.
  intros (c1 & c2 & ->). unfold Printer.inv, Printer.input_inv, Printer.init_state. cbn.
  repeat split; cbn; auto; try lia; try discriminate.
Qed.

Ltac psimpl :=
  cbn -[Z.add Z.sub Z.opp Z.mul Z.leb Z.ltb Z.eqb Nat.ltb Nat.leb Nat.add Nat.mul Nat.sub] in *.

Ltac pc_cases :=
  repeat match goal with
  | H : Printer.spawned_output ?o = false |- _ => is_var o; destruct o; try discriminate H
  | H : Printer.spawned_closer ?o = false |- _ => is_var o; destruct o; try discriminate H
  | H : Printer.spawned_sink ?o = false |- _ => is_var o; destruct o; try discriminate H
  | H : true = match ?x with _ => _ end |- _ => is_var x; destruct x; try discriminate H
  | H : match ?x with _ => _ end = true |- _ => is_var x; destruct x; try discriminate H
  end.

Ltac pfin :=
  cbn [Printer.main_rank Nat.ltb Nat.leb] in *;
  repeat match goal with
  | H : cap ?c = O, H' : (List.length (buf ?c) <= cap ?c)%nat |- _ =>
      let E := fresh "E" in
      destruct (buf c) eqn:E; [| rewrite H in H'; simpl in H'; lia]
  end;
  psimpl; pc_cases; psimpl;
  unfold Printer.from, Printer.printed in *;
  rewrite ?filter_app, ?map_app in *; psimpl;
  repeat match goal with
  | H : context [if ?b then _ else _] |- _ => destruct b eqn:?
  | |- context [if ?b then _ else _] => destruct b eqn:?
  end;
  pc_cases; psimpl;
  intuition (subst; psimpl; try congruence; try discriminate; try lia);
  repeat match goal with
  | H : _ ++ [_] = [] |- _ => apply app_eq_nil in H; destruct H; discriminate
  | H : buf ?c = _ |- _ => rewrite H in *
  end;
  rewrite <- ?app_assoc, ?app_nil_r, ?length_app in *; psimpl;
  try congruence; try lia.

Lemma printer_inv_step st l st' :
  Printer.inv st -> Printer.step l st = Next st' -> Printer.inv st'.
Proof.
  intros I H. destruct st as [l1 l2 o d w m o1 o2 c k so s1 s2 mg co cd].
  unfold Printer.inv, Printer.input_inv in *. cbn [Printer.Line1 Printer.Line2 Printer.out Printer.Done Printer.wg Printer.main Printer.output1 Printer.output2 Printer.closer Printer.sink Printer.stdout Printer.sent1 Printer.sent2 Printer.merged Printer.closes_out Printer.closes_done] in *.
  destruct I as (I1 & I2 & I3 & I4 & I5 & I6 & I7 & I8 & I9 & I10 & I11 & I12 & I13 & I14 & I15 & I16 & (I17 & I18 & I19) & (I20 & I21 & I22)).
  destruct l as [| i | | | i v | i].
  - cbn in H. destruct m; step_cases H.
    all: pfin.
  - destruct i; cbn in H; [destruct o1 | destruct o2]; step_cases H.
    all: pfin.
  - cbn in H. destruct c; step_cases H.
    all: pfin.
  - cbn in H. destruct k; step_cases H.
    all: pfin.
  - destruct i; cbn in H; step_cases H.
    all: pfin.
  - destruct i; cbn in H; step_cases H.
    all: pfin.
Qed.

Section MeasureFacts.
Context {S L : Type}.
Variable step : L -> S -> outcome S.

Lemma inevitably_mono (P Q : S -> Prop) (s : S) :
  (forall x, P x -> Q x) -> inevitably step P s -> inevitably step Q s.
Proof.
  intros PQ H. induction H as [s H | s He _ IH].
  - apply inev_now. auto.
  - apply inev_later; auto.
Qed.

(** A bound that every move lowers, with moves left while the goal is
    not met, makes the goal inevitable. *)
Lemma inevitably_by_measure (mu : S -> nat) (I P : S -> Prop) :
  (forall s l s', I s -> step l s = Next s' -> I s' /\ (mu s' < mu s)%nat) ->
  (forall s, I s -> P s \/ exists l s', step l s = Next s') ->
  forall s, I s -> inevitably step (fun x => I x /\ P x) s.
Proof.
  intros Hstep Hprog.
  assert (G : forall n s, (mu s < n)%nat -> I s ->
                          inevitably step (fun x => I x /\ P x) s).
  { induction n as [|n IH]; intros s Hn Hi; [lia|].
    destruct (Hprog s Hi) as [Hp | He].
    - apply inev_now. auto.
    - apply inev_later; auto.
      intros l s' E. destruct (Hstep s l s' Hi E) as [Hi' Hm].
      apply IH; auto. lia. }
  intros s Hi. apply (G (Datatypes.S (mu s))); auto.
Qed.
End MeasureFacts.

Lemma printer_reachable_inv st :
  reachable Printer.step Printer.init st -> Printer.inv st.
Proof.
  apply reachable_ind_inv.
  - apply printer_inv_init.
  - intros s l s' I E. exact (printer_inv_step s l s' I E).
Qed.

Ltac pstart st I :=
  destruct st as [l1 l2 o d w m o1 o2 c k so s1 s2 mg co cd];
  unfold Printer.inv, Printer.input_inv in I;
  cbn [Printer.Line1 Printer.Line2 Printer.out Printer.Done Printer.wg Printer.main Printer.output1 Printer.output2 Printer.closer Printer.sink Printer.stdout Printer.sent1 Printer.sent2 Printer.merged Printer.closes_out Printer.closes_done] in *;
  destruct I as (I1 & I2 & I3 & I4 & I5 & I6 & I7 & I8 & I9 & I10 & I11 & I12 & I13 & I14 & I15 & I16 & (I17 & I18 & I19) & (I20 & I21 & I22)).

(** With both inputs closed every move keeps them closed, keeps what
    was sent, and lowers the bound. *)
Lemma printer_step_closed st l st' :
  Printer.inv st -> Printer.inputs_closed st -> Printer.step l st = Next st' ->
  Printer.inputs_closed st'
  /\ Printer.sent1 st' = Printer.sent1 st /\ Printer.sent2 st' = Printer.sent2 st
  /\ (Printer.moves_left st' < Printer.moves_left st)%nat.
Proof.
  intros I [C1 C2] H. unfold Printer.inputs_closed, Printer.moves_left.
  pstart st I.
  destruct l as [| i | | | i v | i].
  - cbn in H. destruct m; step_cases H; pfin.
  - destruct i; cbn in H; [destruct o1 | destruct o2]; step_cases H; pfin.
  - cbn in H. destruct c; step_cases H; pfin.
  - cbn in H. destruct k; step_cases H; pfin.
  - destruct i; cbn in H; step_cases H; pfin.
  - destruct i; cbn in H; step_cases H; pfin.
Qed.

Lemma returned_range o : (0 <= Printer.returned o <= 1)%Z.
Proof. destruct o; cbn; lia. Qed.

Ltac symprop :=
  repeat match goal with
  | H : true = (_ <? _)%nat |- _ => symmetry in H
  | H : false = (_ <? _)%nat |- _ => symmetry in H
  end; boolprop.

(** No statement of the printer's goroutines panics. *)
Lemma printer_no_panic st l :
  Printer.inv st -> Printer.internal l = true -> Printer.step l st <> Panic.
Proof.
  intros I Hl H. pstart st I.
  pose proof (returned_range o1). pose proof (returned_range o2).
  destruct l as [| i | | | i v | i]; try discriminate Hl.
  - cbn in H. destruct m; unfold recv in H; cbn in H;
      repeat match type of H with
      | context [match ?x with _ => _ end] => destruct x eqn:?
      end; discriminate.
  - destruct i; cbn in H; [destruct o1 | destruct o2]; try discriminate;
      unfold recv, send in H; cbn in H;
      repeat match type of H with
      | context [match ?x with _ => _ end] =>
          lazymatch x with
          | context [match _ with _ => _ end] => fail
          | _ => destruct x eqn:?
          end
      end; try discriminate; boolprop; psimpl; symprop;
      repeat match goal with
      | H : context [if ?b then _ else _] |- _ => destruct b eqn:?
      end; symprop; pfin.
  - cbn in H. destruct c; try discriminate; unfold close in H; cbn in H;
      repeat match type of H with
      | context [match ?x with _ => _ end] => destruct x eqn:?
      end; try discriminate; boolprop; pfin.
  - cbn in H. destruct k; try discriminate; unfold close, recv in H; cbn in H;
      repeat match type of H with
      | context [match ?x with _ => _ end] =>
          lazymatch x with
          | context [match _ with _ => _ end] => fail
          | _ => destruct x eqn:?
          end
      end; try discriminate; boolprop; pfin.
Qed.

Ltac fire l :=
  cbn [Printer.returned] in *;
  right; exists l; cbn -[Z.sub Z.ltb Z.eqb];
  unfold recv, send, close; cbn [buf cap closed];
  repeat match goal with
  | H : buf ?c = _ |- context [buf ?c] => rewrite H
  | H : closed ?c = _ |- context [closed ?c] => rewrite H
  | H : cap ?c = _ |- context [cap ?c] => rewrite H
  end; cbn -[Z.sub Z.ltb Z.eqb];
  try match goal with
  | |- context [(?a <? ?b)%Z] =>
      replace (a <? b)%Z with false by (symmetry; apply Z.ltb_ge; lia)
  | |- context [(?a =? ?b)%Z] =>
      replace (a =? b)%Z with true by (symmetry; apply Z.eqb_eq; lia)
  end;
  eexists; reflexivity.

(** With both inputs closed some goroutine of the printer can move,
    until [main] has left. *)
Lemma printer_progress st :
  Printer.inv st -> Printer.inputs_closed st ->
  Printer.main st = Printer.MExit \/ exists l st', Printer.step l st = Next st'.
Proof.
  intros I [C1 C2]. pstart st I.
  pose proof (returned_range o1) as R1. pose proof (returned_range o2) as R2.
  destruct m; try (fire Printer.Main; fail); [| left; reflexivity].
  (* [main] waits at [<-done] *)
  cbn [Printer.main_rank Nat.ltb Nat.leb] in *.
  destruct k; try discriminate I4; try (fire Printer.Sink; fail).
  - (* the sink waits at [<-in] *)
    cbn in I12.
    destruct (closed o) eqn:Co; [fire Printer.Sink|].
    destruct (buf l1) eqn:B1; destruct (buf l2) eqn:B2;
    destruct o1; try discriminate I1; try (fire (Printer.Output Printer.L1); fail);
    destruct o2; try discriminate I2; try (fire (Printer.Output Printer.L2); fail);
    cbn in I5; destruct c; try discriminate I3; try discriminate I8;
      try (fire Printer.Closer; fail).
  - (* the sink has closed [done] *)
    cbn in I12. fire Printer.Main.
Qed.

(** Once both inputs are closed, on every interleaving [main] leaves;
    nothing more is sent meanwhile. *)
Lemma printer_inevitably_exit st :
  Printer.inv st -> Printer.inputs_closed st ->
  inevitably Printer.step
    (fun s => (Printer.inv s /\ Printer.inputs_closed s
               /\ Printer.sent1 s = Printer.sent1 st
               /\ Printer.sent2 s = Printer.sent2 st)
              /\ Printer.main s = Printer.MExit) st.
Proof.
  intros I C.
  apply (inevitably_by_measure Printer.step Printer.moves_left
           (fun s => Printer.inv s /\ Printer.inputs_closed s
                     /\ Printer.sent1 s = Printer.sent1 st
                     /\ Printer.sent2 s = Printer.sent2 st)).
  - intros s l s' (Is & Cs & E1 & E2) H.
    destruct (printer_step_closed s l s' Is Cs H) as (Cs' & F1 & F2 & M).
    split; [split; [eapply printer_inv_step; eauto
                   | split; [exact Cs' | split; congruence]]
           | exact M].
  - intros s (Is & Cs & _). apply printer_progress; auto.
  - auto.
Qed.

(** What holds once [out] is closed. *)
Lemma printer_out_closed st :
  Printer.inv st -> closed (Printer.out st) = true ->
  Printer.closer st = Printer.CReturned
  /\ Printer.output1 st = Printer.OReturned /\ Printer.output2 st = Printer.OReturned
  /\ Printer.wg st = 0%Z
  /\ closed (Printer.Line1 st) = true /\ buf (Printer.Line1 st) = []
  /\ closed (Printer.Line2 st) = true /\ buf (Printer.Line2 st) = []
  /\ Printer.from Printer.L1 (Printer.merged st) = Printer.sent1 st
  /\ Printer.from Printer.L2 (Printer.merged st) = Printer.sent2 st
  /\ Printer.closes_out st = 1%nat.
Proof.
  intros I C. pstart st I.
  pose proof (returned_range o1) as R1. pose proof (returned_range o2) as R2.
  rewrite C in *. destruct c; try discriminate I8.
  cbn [Printer.spawned_closer] in I3. symprop. specialize (I9 eq_refl).
  destruct (2 <? Printer.main_rank m)%nat eqn:E; symprop; [|lia].
  destruct o1; cbn [Printer.returned] in *; try lia.
  destruct o2; cbn [Printer.returned] in *; try lia.
  cbn [Printer.input_done Printer.inflight app] in *. destruct (I17 eq_refl) as [? B1]. destruct (I20 eq_refl) as [? B2].
  rewrite B1, B2, ?app_nil_r in *. repeat split; auto.
Qed.

(** What holds once [done] is closed. *)
Lemma printer_done_closed st :
  Printer.inv st -> closed (Printer.Done st) = true ->
  Printer.sink st = Printer.SReturned
  /\ closed (Printer.out st) = true
  /\ Printer.printed (Printer.stdout st)
     = map Printer.render (map snd (Printer.merged st))
  /\ Printer.closes_done st = 1%nat.
Proof.
  intros I C. pstart st I.
  rewrite C in *. destruct k; try discriminate I12.
  cbn in *. rewrite app_nil_r in I14. repeat split; auto.
Qed.

Lemma printer_exit_done st :
  Printer.inv st -> Printer.main st = Printer.MExit -> closed (Printer.Done st) = true.
Proof.
  intros I E. pstart st I. subst m. apply I13. reflexivity.
Qed.

(** Only the closer's [close(out)] takes [out] from open to closed, and
    it runs after both forwarders have returned. *)
Lemma printer_who_closes_out st l st' :
  Printer.inv st -> Printer.step l st = Next st' ->
  closed (Printer.out st) = false -> closed (Printer.out st') = true ->
  l = Printer.Closer /\ Printer.closer st = Printer.CClose
  /\ Printer.output1 st = Printer.OReturned /\ Printer.output2 st = Printer.OReturned
  /\ Printer.wg st = 0%Z.
Proof.
  intros I H C C'.
  assert (I' : Printer.inv st') by (eapply printer_inv_step; eauto).
  pstart st I.
  pose proof (returned_range o1) as R1. pose proof (returned_range o2) as R2.
  destruct l as [| i | | | i v | i].
  - cbn in H. destruct m; step_cases H; cbn in C'; congruence.
  - destruct i; cbn in H; [destruct o1 | destruct o2]; step_cases H; cbn in C';
      try congruence; rewrite I7 in *; cbn in *; boolprop; lia.
  - cbn in H. destruct c; step_cases H; cbn in C'; try congruence.
    cbn [Printer.spawned_closer Printer.past_wait] in I9, I3. specialize (I9 eq_refl). symprop.
    destruct (2 <? Printer.main_rank m)%nat eqn:E; symprop; [|lia].
    destruct o1; cbn [Printer.returned] in *; try lia.
    destruct o2; cbn [Printer.returned] in *; try lia.
    auto.
  - cbn in H. destruct k; step_cases H; cbn in C'; congruence.
  - destruct i; cbn in H; step_cases H; cbn in C'; congruence.
  - destruct i; cbn in H; step_cases H; cbn in C'; congruence.
Qed.

(** Only the sink's [close(p.Done)] takes [done] from open to closed. *)
Lemma printer_who_closes_done st l st' :
  Printer.inv st -> Printer.step l st = Next st' ->
  closed (Printer.Done st) = false -> closed (Printer.Done st') = true ->
  l = Printer.Sink /\ Printer.sink st = Printer.SCloseDone.
Proof.
  intros I H C C'. pstart st I.
  destruct l as [| i | | | i v | i].
  - cbn in H. destruct m; step_cases H; cbn in C'; congruence.
  - destruct i; cbn in H; [destruct o1 | destruct o2]; step_cases H; cbn in C';
      congruence.
  - cbn in H. destruct c; step_cases H; cbn in C'; congruence.
  - cbn in H. destruct k; step_cases H; cbn in C'; try congruence. auto.
  - destruct i; cbn in H; step_cases H; cbn in C'; congruence.
  - destruct i; cbn in H; step_cases H; cbn in C'; congruence.
Qed.

(* ===================================================================== *)
(** * The printer: merge, completion signal *)
(* ===================================================================== *)


Lemma final_of_reachable (ls : list Printer.label) (st : Printer.state) :
  run Printer.step ls (Printer.init_state 10 10) = Some st ->
  reachable Printer.step Printer.init st.
Proof.
  intros H. eapply reachable_run; [|exact H].
  apply reach_init. exists 10%nat, 10%nat. reflexivity.
Qed.

Lemma final_words_first_reachable :
  reachable Printer.step Printer.init Printer.final_words_first.
Proof.
  apply (final_of_reachable Printer.schedule_words_first). vm_compute. reflexivity.
Qed.


(** C1. The merge of the printer's two inputs closes its output [out]
    if and only if both inputs have closed: [out] is never closed while
    an input is open or a forwarder has not signalled ([wg.Done]); only
    the coordinator's [close(out)] closes it, after both signals; it is
    closed once, no goroutine of the printer panics; and once both
    inputs are closed, every interleaving closes [out]. *)
Theorem merge_closes_output_once (st : Printer.state)
    (R : reachable Printer.step Printer.init st) :
  (closed (Printer.out st) = true ->
     closed (Printer.Line1 st) = true /\ buf (Printer.Line1 st) = []
     /\ closed (Printer.Line2 st) = true /\ buf (Printer.Line2 st) = []
     /\ Printer.output1 st = Printer.OReturned
     /\ Printer.output2 st = Printer.OReturned
     /\ Printer.wg st = 0%Z)
  /\ (forall l st', Printer.step l st = Next st' ->
        closed (Printer.out st) = false -> closed (Printer.out st') = true ->
        l = Printer.Closer
        /\ Printer.output1 st = Printer.OReturned
        /\ Printer.output2 st = Printer.OReturned
        /\ Printer.wg st = 0%Z)
  /\ Printer.closes_out st = (if closed (Printer.out st) then 1 else 0)%nat
  /\ (forall l, Printer.internal l = true -> Printer.step l st <> Panic)
  /\ (Printer.inputs_closed st ->
        inevitably Printer.step
          (fun s => closed (Printer.out s) = true /\ Printer.closes_out s = 1%nat) st).
Proof.
  pose proof (printer_reachable_inv st R) as I.
  split; [|split; [|split; [|split]]].
  - intros C. destruct (printer_out_closed st I C)
      as (_ & O1 & O2 & W & C1 & B1 & C2 & B2 & _). auto 10.
  - intros l st' H C C'.
    destruct (printer_who_closes_out st l st' I H C C') as (-> & _ & O1 & O2 & W).
    auto.
  - apply I.
  - intros l Hl. apply printer_no_panic; auto.
  - intros C. eapply inevitably_mono; [|apply (printer_inevitably_exit st I C)].
    intros s [(Is & _) E]. cbv beta.
    pose proof (printer_exit_done s Is E) as D.
    destruct (printer_done_closed s Is D) as (_ & Co & _).
    destruct (printer_out_closed s Is Co) as (_ & _ & _ & _ & _ & _ & _ & _ & _ & _ & N).
    auto.
Qed.

Lemma merge_closes_output_once_witness :
  reachable Printer.step Printer.init Printer.final_words_first
  /\ closed (Printer.out Printer.final_words_first) = true
  /\ closed (Printer.Line1 Printer.final_words_first) = true
  /\ closed (Printer.Line2 Printer.final_words_first) = true
  /\ Printer.closes_out Printer.final_words_first = 1%nat.
Proof.
  pose proof final_words_first_reachable as R.
  assert (C : closed (Printer.out Printer.final_words_first) = true)
    by (vm_compute; reflexivity).
  destruct (merge_closes_output_once Printer.final_words_first R)
    as (H & _ & N & _).
  destruct (H C) as (C1 & _ & C2 & _).
  rewrite C in N.
  exact (conj R (conj C (conj C1 (conj C2 N)))).
Defined.



(** C3. The channel [done] is closed once, by the printer's goroutine
    alone, after the merged stream is exhausted and every count that
    arrived has been printed, in arrival order; the driver's [<-done]
    is blocked until then and passes from then on. *)
Theorem printer_closes_done_once (st : Printer.state)
    (R : reachable Printer.step Printer.init st) :
  (closed (Printer.Done st) = true ->
     Printer.sink st = Printer.SReturned
     /\ closed (Printer.out st) = true
     /\ Printer.from Printer.L1 (Printer.merged st) = Printer.sent1 st
     /\ Printer.from Printer.L2 (Printer.merged st) = Printer.sent2 st
     /\ Printer.printed (Printer.stdout st)
        = map Printer.render (map snd (Printer.merged st)))
  /\ Printer.printed (Printer.stdout st)
     ++ map Printer.render (Printer.unprinted (Printer.sink st))
     = map Printer.render (map snd (Printer.merged st))
  /\ (forall l st', Printer.step l st = Next st' ->
        closed (Printer.Done st) = false -> closed (Printer.Done st') = true ->
        l = Printer.Sink /\ Printer.sink st = Printer.SCloseDone)
  /\ Printer.closes_done st = (if closed (Printer.Done st) then 1 else 0)%nat
  /\ (forall l, Printer.internal l = true -> Printer.step l st <> Panic)
  /\ (Printer.main st = Printer.MWait ->
        (closed (Printer.Done st) = false -> Printer.step Printer.Main st = Blocked)
        /\ (closed (Printer.Done st) = true ->
              Printer.step Printer.Main st
              = Next (Printer.set_main Printer.MPrintShutdown st)))
  /\ (Printer.main st = Printer.MPrintShutdown \/ Printer.main st = Printer.MExit ->
        closed (Printer.Done st) = true)
  /\ (Printer.inputs_closed st ->
        inevitably Printer.step
          (fun s => Printer.main s = Printer.MExit
                    /\ closed (Printer.Done s) = true
                    /\ Printer.closes_done s = 1%nat) st).
Proof.
  pose proof (printer_reachable_inv st R) as I.
  split; [|split; [|split; [|split; [|split; [|split; [|split]]]]]].
  - intros C. destruct (printer_done_closed st I C) as (K & Co & P & _).
    destruct (printer_out_closed st I Co) as (_ & _ & _ & _ & _ & _ & _ & _ & F1 & F2 & _).
    auto 10.
  - apply I.
  - intros l st' H C C'. exact (printer_who_closes_done st l st' I H C C').
  - apply I.
  - intros l Hl. apply printer_no_panic; auto.
  - intros M.
    assert (B : buf (Printer.Done st) = []) by apply I.
    unfold Printer.step. rewrite M. unfold recv. rewrite B.
    split; intros ->; reflexivity.
  - intros M.
    assert (H : (8 <? Printer.main_rank (Printer.main st))%nat = true ->
                closed (Printer.Done st) = true) by apply I.
    apply H. destruct M as [-> | ->]; reflexivity.
  - intros C. eapply inevitably_mono; [|apply (printer_inevitably_exit st I C)].
    intros s [(Is & _) E]. cbv beta.
    pose proof (printer_exit_done s Is E) as D.
    destruct (printer_done_closed s Is D) as (_ & _ & _ & N). auto.
Qed.

Lemma printer_closes_done_once_witness :
  reachable Printer.step Printer.init Printer.final_words_first
  /\ closed (Printer.Done Printer.final_words_first) = true
  /\ Printer.sink Printer.final_words_first = Printer.SReturned
  /\ Printer.printed (Printer.stdout Printer.final_words_first)
     = [Printer.render Printer.words3; Printer.render Printer.letters3].
Proof.
  pose proof final_words_first_reachable as R.
  assert (C : closed (Printer.Done Printer.final_words_first) = true)
    by (vm_compute; reflexivity).
  assert (M : map Printer.render (map snd (Printer.merged Printer.final_words_first))
              = [Printer.render Printer.words3; Printer.render Printer.letters3])
    by (vm_compute; reflexivity).
  destruct (printer_closes_done_once Printer.final_words_first R) as (H & _).
  destruct (H C) as (K & _ & _ & _ & P).
  rewrite M in P.
  exact (conj R (conj C (conj K P))).
Defined.

(* ===================================================================== *)
(** * The splitter *)
(* ===================================================================== *)

Lemma splitter_inv_init st : Splitter.init st -> Splitter.inv st.
Proof.
  intros (c & c1 & c2 & ->). unfold Splitter.inv, Splitter.copies. cbn.
  repeat split; auto; try discriminate; try lia.
Qed.

Lemma splitter_reachable_inv st :
  reachable Splitter.step Splitter.init st -> Splitter.inv st.
Proof.
  apply reachable_ind_inv.
  - apply splitter_inv_init.
  - intros s l s' I E. exact (splitter_inv_step s l s' I E).
Qed.

Ltac sstart st I :=
  destruct st as [i o1 o2 m g out sn rc w1 w2 r1 r2];
  unfold Splitter.inv, Splitter.copies in I;
  cbn [Splitter.In Splitter.Out1 Splitter.Out2 Splitter.main Splitter.gor Splitter.stdout Splitter.sent Splitter.rcvd Splitter.wrote1 Splitter.wrote2 Splitter.got1 Splitter.got2] in *;
  destruct I as (I1 & I2 & I3 & I4 & I5 & I6 & I7 & I8 & I9).

(** An output goes from open to closed only by the goroutine's own
    [close], after it has seen its input exhausted. *)
Lemma splitter_who_closes st l st' :
  Splitter.inv st -> Splitter.step l st = Next st' ->
  (closed (Splitter.Out1 st) = false /\ closed (Splitter.Out1 st') = true)
  \/ (closed (Splitter.Out2 st) = false /\ closed (Splitter.Out2 st') = true) ->
  l = Splitter.Goroutine /\ Splitter.exhausted (Splitter.gor st) = true.
Proof.
  intros I H C. sstart st I.
  destruct l; cbn [Splitter.step] in H; destruct m, g; step_cases H;
    cbn in C; try (split; reflexivity); exfalso; intuition congruence.
Qed.

(** A new value is read only when both copies of every earlier value
    have been written. *)
Lemma splitter_reads_after_copies st l st' :
  Splitter.inv st -> Splitter.step l st = Next st' ->
  Splitter.rcvd st' <> Splitter.rcvd st ->
  Splitter.wrote1 st = Splitter.rcvd st /\ Splitter.wrote2 st = Splitter.rcvd st
  /\ exists v, Splitter.rcvd st' = Splitter.rcvd st ++ [v].
Proof.
  intros I H C. sstart st I.
  destruct l; cbn [Splitter.step] in H; destruct m, g; step_cases H;
    cbn in C, I1; try congruence; destruct I1; repeat split; auto;
    cbn; eexists; reflexivity.
Qed.

Lemma splitter_no_panic st :
  Splitter.inv st -> Splitter.step Splitter.Goroutine st <> Panic.
Proof.
  intros I H. sstart st I. cbn [Splitter.step] in H.
  destruct g; try discriminate; unfold recv, send, close in H; cbn [buf cap closed] in H;
    repeat match type of H with
    | context [match ?x with _ => _ end] =>
        lazymatch x with
        | context [match _ with _ => _ end] => fail
        | _ => destruct x eqn:?
        end
    end; try discriminate; congruence.
Qed.

(** After the goroutine has seen its input exhausted, its next three
    statements run whatever the other goroutines do, and close both
    outputs. *)
Lemma splitter_shutdown st :
  Splitter.inv st -> Splitter.gor st = Splitter.PrintFinished ->
  exists st',
    run Splitter.step [Splitter.Goroutine; Splitter.Goroutine; Splitter.Goroutine] st
    = Some st'
    /\ Splitter.gor st' = Splitter.Returned
    /\ closed (Splitter.Out1 st') = true /\ closed (Splitter.Out2 st') = true.
Proof.
  intros I G. sstart st I. subst g.
  destruct o1 as [b1 k1 c1], o2 as [b2 k2 c2]. cbn in I5, I6. subst c1 c2.
  cbn. eexists. repeat split.
Qed.

Lemma splitter_exhaustion st :
  Splitter.gor st = Splitter.Recv ->
  closed (Splitter.In st) = true -> buf (Splitter.In st) = [] ->
  exists st', Splitter.step Splitter.Goroutine st = Next st'
              /\ Splitter.gor st' = Splitter.PrintFinished.
Proof.
  destruct st as [i o1 o2 m g out sn rc w1 w2 r1 r2]. cbn. intros -> C B.
  unfold recv. rewrite B, C. eexists. split; reflexivity.
Qed.

(** The goroutine's two sends put the value at the end of the channel
    they name and leave the other channel as it is. *)
Lemma splitter_sends st s st' :
  Splitter.step Splitter.Goroutine st = Next st' ->
  (Splitter.gor st = Splitter.Send1 s ->
   buf (Splitter.Out1 st') = buf (Splitter.Out1 st) ++ [s]
   /\ Splitter.Out2 st' = Splitter.Out2 st
   /\ Splitter.gor st' = Splitter.Send2 s)
  /\ (Splitter.gor st = Splitter.Send2 s ->
      buf (Splitter.Out2 st') = buf (Splitter.Out2 st) ++ [s]
      /\ Splitter.Out1 st' = Splitter.Out1 st
      /\ Splitter.gor st' = Splitter.Recv).
Proof.
  destruct st as [i o1 o2 m g out sn rc w1 w2 r1 r2].
  cbn [Splitter.step Splitter.gor Splitter.Out1 Splitter.Out2].
  intros H. split; intros ->; step_cases H; cbn; auto.
Qed.

(** C7. The splitter writes each value it receives to [Out1], then to
    [Out2], before it reads the next one, so each output carries the
    input sequence in order; it closes its outputs after it has seen
    the input exhausted, and not before.  What an output carries is
    what its reader has taken from it followed by what the channel
    holds. *)
Theorem splitter_copies_to_both_outputs (st : Splitter.state)
    (R : reachable Splitter.step Splitter.init st) :
  (match Splitter.gor st with
   | Splitter.Send1 s =>
       Splitter.rcvd st = Splitter.wrote1 st ++ [s]
       /\ Splitter.wrote2 st = Splitter.wrote1 st
   | Splitter.Send2 s =>
       Splitter.rcvd st = Splitter.wrote1 st
       /\ Splitter.wrote1 st = Splitter.wrote2 st ++ [s]
   | _ => Splitter.wrote1 st = Splitter.rcvd st
          /\ Splitter.wrote2 st = Splitter.rcvd st
   end)
  /\ Splitter.sent st = Splitter.rcvd st ++ buf (Splitter.In st)
  /\ (forall l st', Splitter.step l st = Next st' ->
        Splitter.rcvd st' <> Splitter.rcvd st ->
        Splitter.wrote1 st = Splitter.rcvd st
        /\ Splitter.wrote2 st = Splitter.rcvd st
        /\ exists v, Splitter.rcvd st' = Splitter.rcvd st ++ [v])
  /\ (closed (Splitter.Out1 st) = true \/ closed (Splitter.Out2 st) = true ->
        Splitter.exhausted (Splitter.gor st) = true
        /\ closed (Splitter.In st) = true /\ buf (Splitter.In st) = []
        /\ Splitter.wrote1 st = Splitter.sent st
        /\ Splitter.wrote2 st = Splitter.sent st)
  /\ (forall l st', Splitter.step l st = Next st' ->
        (closed (Splitter.Out1 st) = false /\ closed (Splitter.Out1 st') = true)
        \/ (closed (Splitter.Out2 st) = false /\ closed (Splitter.Out2 st') = true) ->
        l = Splitter.Goroutine /\ Splitter.exhausted (Splitter.gor st) = true)
  /\ (Splitter.gor st = Splitter.Recv ->
      closed (Splitter.In st) = true -> buf (Splitter.In st) = [] ->
      exists st', Splitter.step Splitter.Goroutine st = Next st'
                  /\ Splitter.gor st' = Splitter.PrintFinished)
  /\ (Splitter.gor st = Splitter.PrintFinished ->
      exists st',
        run Splitter.step
          [Splitter.Goroutine; Splitter.Goroutine; Splitter.Goroutine] st = Some st'
        /\ Splitter.gor st' = Splitter.Returned
        /\ closed (Splitter.Out1 st') = true /\ closed (Splitter.Out2 st') = true)
  /\ Splitter.step Splitter.Goroutine st <> Panic
  (* the same on the channels themselves *)
  /\ (Splitter.wrote1 st = Splitter.got1 st ++ buf (Splitter.Out1 st)
      /\ Splitter.wrote2 st = Splitter.got2 st ++ buf (Splitter.Out2 st))
  /\ (match Splitter.gor st with
      | Splitter.Send1 s =>
          Splitter.rcvd st
          = (Splitter.got1 st ++ buf (Splitter.Out1 st)) ++ [s]
          /\ Splitter.got2 st ++ buf (Splitter.Out2 st)
             = Splitter.got1 st ++ buf (Splitter.Out1 st)
      | Splitter.Send2 s =>
          Splitter.rcvd st = Splitter.got1 st ++ buf (Splitter.Out1 st)
          /\ Splitter.got1 st ++ buf (Splitter.Out1 st)
             = (Splitter.got2 st ++ buf (Splitter.Out2 st)) ++ [s]
      | _ => Splitter.got1 st ++ buf (Splitter.Out1 st) = Splitter.rcvd st
             /\ Splitter.got2 st ++ buf (Splitter.Out2 st) = Splitter.rcvd st
      end)
  /\ (closed (Splitter.Out1 st) = true \/ closed (Splitter.Out2 st) = true ->
      Splitter.got1 st ++ buf (Splitter.Out1 st) = Splitter.sent st
      /\ Splitter.got2 st ++ buf (Splitter.Out2 st) = Splitter.sent st)
  /\ (forall s st', Splitter.step Splitter.Goroutine st = Next st' ->
        (Splitter.gor st = Splitter.Send1 s ->
         buf (Splitter.Out1 st') = buf (Splitter.Out1 st) ++ [s]
         /\ Splitter.Out2 st' = Splitter.Out2 st
         /\ Splitter.gor st' = Splitter.Send2 s)
        /\ (Splitter.gor st = Splitter.Send2 s ->
            buf (Splitter.Out2 st') = buf (Splitter.Out2 st) ++ [s]
            /\ Splitter.Out1 st' = Splitter.Out1 st
            /\ Splitter.gor st' = Splitter.Recv)).
Proof.
  pose proof (splitter_reachable_inv st R) as I.
  assert (Hc : closed (Splitter.Out1 st) = true \/ closed (Splitter.Out2 st) = true ->
               Splitter.exhausted (Splitter.gor st) = true
               /\ closed (Splitter.In st) = true /\ buf (Splitter.In st) = []
               /\ Splitter.wrote1 st = Splitter.sent st
               /\ Splitter.wrote2 st = Splitter.sent st).
  { intros C. sstart st I.
    assert (E : Splitter.exhausted g = true)
      by (destruct g; cbn in *; intuition congruence).
    destruct (I4 E) as [Ci Bi]. rewrite Bi, app_nil_r in I2.
    destruct g; cbn in E; try discriminate; intuition congruence. }
  assert (Hw : Splitter.wrote1 st = Splitter.got1 st ++ buf (Splitter.Out1 st)
               /\ Splitter.wrote2 st = Splitter.got2 st ++ buf (Splitter.Out2 st))
    by (split; apply I).
  assert (Hk : Splitter.copies st) by apply I.
  split; [|split; [|split; [|split; [|split; [|split; [|split; [|split;
    [|split; [|split; [|split]]]]]]]]]].
  - exact Hk.
  - apply I.
  - intros l st' H C. exact (splitter_reads_after_copies st l st' I H C).
  - exact Hc.
  - intros l st' H C. exact (splitter_who_closes st l st' I H C).
  - apply splitter_exhaustion.
  - apply splitter_shutdown; auto.
  - apply splitter_no_panic; auto.
  - exact Hw.
  - destruct Hw as [<- <-]. exact Hk.
  - intros C. destruct Hw as [<- <-]. apply (Hc C).
  - intros s st' H. exact (splitter_sends st s st' H).
Qed.

Lemma splitter_final_three_reachable :
  reachable Splitter.step Splitter.init Splitter.final_three.
Proof.
  eapply (reachable_run _ _ Splitter.schedule_three).
  - apply reach_init. exists 10%nat, 10%nat, 10%nat. reflexivity.
  - vm_compute. reflexivity.
Qed.

Lemma splitter_final_handover_reachable :
  reachable Splitter.step Splitter.init Splitter.final_handover.
Proof.
  eapply (reachable_run _ _ Splitter.schedule_handover).
  - apply reach_init. exists 10%nat, O, O. reflexivity.
  - vm_compute. reflexivity.
Qed.

Lemma splitter_copies_to_both_outputs_witness :
  (reachable Splitter.step Splitter.init Splitter.final_three
   /\ closed (Splitter.Out1 Splitter.final_three) = true
   /\ [sentence1] ++ buf (Splitter.Out1 Splitter.final_three)
      = [sentence1; sentence2; sentence3]
   /\ [sentence1] ++ buf (Splitter.Out2 Splitter.final_three)
      = [sentence1; sentence2; sentence3])
  /\ (reachable Splitter.step Splitter.init Splitter.final_handover
      /\ closed (Splitter.Out1 Splitter.final_handover) = true
      /\ Splitter.got1 Splitter.final_handover ++ [] = [sentence1; sentence2]
      /\ Splitter.got2 Splitter.final_handover ++ [] = [sentence1; sentence2]).
Proof.
  split.
  - pose proof splitter_final_three_reachable as R.
    assert (C : closed (Splitter.Out1 Splitter.final_three) = true)
      by (vm_compute; reflexivity).
    assert (S1 : Splitter.sent Splitter.final_three
                 = [sentence1; sentence2; sentence3])
      by (vm_compute; reflexivity).
    assert (G1 : Splitter.got1 Splitter.final_three = [sentence1])
      by (vm_compute; reflexivity).
    assert (G2 : Splitter.got2 Splitter.final_three = [sentence1])
      by (vm_compute; reflexivity).
    destruct (splitter_copies_to_both_outputs Splitter.final_three R)
      as (_ & _ & _ & _ & _ & _ & _ & _ & _ & _ & H & _).
    destruct (H (or_introl C)) as (W1 & W2).
    rewrite S1, G1 in W1. rewrite S1, G2 in W2.
    exact (conj R (conj C (conj W1 W2))).
  - pose proof splitter_final_handover_reachable as R.
    assert (C : closed (Splitter.Out1 Splitter.final_handover) = true)
      by (vm_compute; reflexivity).
    assert (S1 : Splitter.sent Splitter.final_handover = [sentence1; sentence2])
      by (vm_compute; reflexivity).
    assert (B1 : buf (Splitter.Out1 Splitter.final_handover) = [])
      by (vm_compute; reflexivity).
    assert (B2 : buf (Splitter.Out2 Splitter.final_handover) = [])
      by (vm_compute; reflexivity).
    destruct (splitter_copies_to_both_outputs Splitter.final_handover R)
      as (_ & _ & _ & _ & _ & _ & _ & _ & _ & _ & H & _).
    destruct (H (or_introl C)) as (W1 & W2).
    rewrite S1, B1 in W1. rewrite S1, B2 in W2.
    exact (conj R (conj C (conj W1 W2))).
Defined.

(* ===================================================================== *)
(** * The counters *)
(* ===================================================================== *)

Ltac nsimpl := cbn -[wordCounter_emit letterCounter_emit letterCounter_Init] in *.

Ltac nfin :=
  repeat match goal with
  | H : cap ?c = O, H' : (List.length (buf ?c) <= cap ?c)%nat |- _ =>
      let E := fresh "E" in
      destruct (buf c) eqn:E; [| rewrite H in H'; simpl in H'; lia]
  end;
  nsimpl; rewrite ?map_app in *; nsimpl;
  intuition (subst; nsimpl; try congruence; try discriminate; try lia);
  repeat match goal with
  | H : _ ++ [_] = [] |- _ => apply app_eq_nil in H; destruct H; discriminate
  | H : buf ?c = _ |- _ => rewrite H in *
  end;
  rewrite <- ?app_assoc, ?app_nil_r, ?length_app in *; nsimpl;
  try congruence; try lia.

Lemma wordCounter_inv_init st : WordCounter.init st -> WordCounter.inv st.
Proof.
  intros (c & c1 & ->). unfold WordCounter.inv. cbn.
  repeat split; auto; try discriminate; try lia.
Qed.

Lemma wordCounter_inv_step st l st' :
  WordCounter.inv st -> WordCounter.step l st = Next st' -> WordCounter.inv st'.
Proof.
  intros I H. destruct st as [i o m g out sn rc em tk].
  unfold WordCounter.inv in *.
  cbn [WordCounter.Sentence WordCounter.Count WordCounter.main WordCounter.gor WordCounter.stdout WordCounter.sent WordCounter.rcvd WordCounter.emitted WordCounter.taken] in *.
  destruct I as (I1 & I2 & I3 & I4 & I5 & I6 & I7).
  destruct l; cbn [WordCounter.step] in H; destruct m, g; step_cases H.
  all: nfin.
  all: rewrite I1, <- app_assoc; reflexivity.
Qed.

Lemma letterCounter_inv_init st : LetterCounter.init st -> LetterCounter.inv st.
Proof.
  intros (c & c1 & ->). unfold LetterCounter.inv. cbn.
  repeat split; auto; try discriminate; try lia.
Qed.

Lemma letterCounter_inv_step st l st' :
  LetterCounter.inv st -> LetterCounter.step l st = Next st' -> LetterCounter.inv st'.
Proof.
  intros I H. destruct st as [i o r m g out sn rc em nc tk].
  unfold LetterCounter.inv in *.
  cbn [LetterCounter.Sentence LetterCounter.Count LetterCounter.re LetterCounter.main LetterCounter.gor LetterCounter.stdout LetterCounter.sent LetterCounter.rcvd LetterCounter.emitted LetterCounter.compiles LetterCounter.taken] in *.
  destruct I as (I1 & I2 & I4 & I5 & I6 & I7 & I8 & I9).
  destruct l; cbn [LetterCounter.step] in H; destruct m, g; step_cases H.
  all: try (nfin; fail).
  all: destruct r; nfin.
  all: rewrite I2, <- app_assoc; reflexivity.
Qed.

Import GoString.
Local Open Scope Z_scope.

Lemma wordCounter_reachable_inv st :
  reachable WordCounter.step WordCounter.init st -> WordCounter.inv st.
Proof.
  apply reachable_ind_inv.
  - apply wordCounter_inv_init.
  - intros s l s' I E. exact (wordCounter_inv_step s l s' I E).
Qed.

Lemma letterCounter_reachable_inv st :
  reachable LetterCounter.step LetterCounter.init st -> LetterCounter.inv st.
Proof.
  apply reachable_ind_inv.
  - apply letterCounter_inv_init.
  - intros s l s' I E. exact (letterCounter_inv_step s l s' I E).
Qed.

Lemma wordCounter_emit_tokens (sentence : string) :
  wordCounter_emit sentence
  = mkCount "Words" (Z.of_nat (List.length (Spec.tokens sentence))).
Proof. unfold wordCounter_emit. now rewrite Split_space. Qed.

Lemma letterCounter_emit_letters (re : regexp.Regexp) (sentence : string) :
  letterCounter_Init = Some re ->
  letterCounter_emit re sentence = mkCount "Letters" (Z.of_nat (Spec.letters sentence)).
Proof.
  rewrite letterCounter_Init_class. intros H. inversion H; subst.
  unfold letterCounter_emit. now rewrite FindAllString_letters.
Qed.

Lemma byteZ_to_byte (x : Z) : byteZ (utf8.to_byte x) = Z.land x 0xFF.
Proof.
  unfold byteZ, utf8.to_byte.
  assert (H : 0 <= Z.land x 0xFF < 256).
  { change 0xFF with (Z.ones 8). rewrite Z.land_ones by lia.
    change (2 ^ 8) with 256. apply Z.mod_pos_bound. lia. }
  rewrite N_ascii_embedding by lia. lia.
Qed.

Lemma to_byte_marked (m x : Z) :
  0x80 <= m < 256 -> 0x80 <= byteZ (utf8.to_byte (Z.lor m x)).
Proof.
  intros Hm. rewrite byteZ_to_byte, Z.land_lor_distr_l.
  assert (E : Z.land m 0xFF = m).
  { change 0xFF with (Z.ones 8). rewrite Z.land_ones by lia.
    change (2 ^ 8) with 256. apply Z.mod_small. lia. }
  rewrite E. apply lor_lb_l; try lia.
  apply Z.land_nonneg. right. lia.
Qed.

(** The encoding of a rune outside the class has no byte of the class. *)
Lemma EncodeRune_letters (r : Z) :
  0 <= r -> Spec.isLetterRune r = false -> Spec.letters (utf8.EncodeRune r) = O.
Proof.
  intros Hr L. unfold utf8.EncodeRune, utf8.rune1Max, utf8.t2, utf8.t3, utf8.t4, utf8.tx.
  destruct (r <=? 127) eqn:E1.
  - apply Z.leb_le in E1. cbn [Spec.letters].
    assert (B : byteZ (utf8.to_byte r) = r).
    { rewrite byteZ_to_byte. change 0xFF with (Z.ones 8).
      rewrite Z.land_ones by lia. change (2 ^ 8) with 256. apply Z.mod_small. lia. }
    assert (Spec.isLetter (utf8.to_byte r) = false) as ->; [|reflexivity].
    rewrite <- isLetterRune_byte, B. exact L.
  - repeat match goal with
    | |- context [if ?b then _ else _] => destruct b
    end; cbn [Spec.letters];
    repeat match goal with
    | |- context [Spec.isLetter (utf8.to_byte (Z.lor ?m ?x))] =>
        rewrite (isLetter_high (utf8.to_byte (Z.lor m x)))
          by (apply to_byte_marked; lia)
    end; reflexivity.
Qed.

(** C4. The count the wordCounter sends for a sentence is the number of
    tokens between single spaces, empty tokens counted like the others:
    the number of spaces plus one. *)
Theorem wordCounter_counts_tokens (st : WordCounter.state)
    (R : reachable WordCounter.step WordCounter.init st) :
  (forall sentence,
      strings.Split sentence " " = Spec.tokens sentence
      /\ wordCounter_emit sentence
         = mkCount "Words" (Z.of_nat (List.length (Spec.tokens sentence)))
      /\ count_n (wordCounter_emit sentence) = Z.of_nat (Spec.spaces sentence) + 1)
  /\ strings.Split "a  b" " " = ["a"; ""; "b"]
  /\ WordCounter.emitted st ++ WordCounter.pending (WordCounter.gor st)
     = map wordCounter_emit (WordCounter.rcvd st).
Proof.
  split; [|split].
  - intros s. split; [apply Split_space|]. split; [apply wordCounter_emit_tokens|].
    rewrite wordCounter_emit_tokens. cbn [count_n]. rewrite length_tokens. lia.
  - vm_compute. reflexivity.
  - symmetry. apply (wordCounter_reachable_inv st R).
Qed.

Lemma wordCounter_final_three_reachable :
  reachable WordCounter.step WordCounter.init WordCounter.final_three.
Proof.
  eapply (reachable_run _ _ WordCounter.schedule_three).
  - apply reach_init. exists 10%nat, 10%nat. reflexivity.
  - vm_compute. reflexivity.
Qed.

Lemma wordCounter_counts_tokens_witness :
  reachable WordCounter.step WordCounter.init WordCounter.final_three
  /\ WordCounter.emitted WordCounter.final_three
     ++ WordCounter.pending (WordCounter.gor WordCounter.final_three)
     = map wordCounter_emit (WordCounter.rcvd WordCounter.final_three)
  /\ count_n (wordCounter_emit sentence3) = Z.of_nat (Spec.spaces sentence3) + 1.
Proof.
  pose proof wordCounter_final_three_reachable as R.
  destruct (wordCounter_counts_tokens WordCounter.final_three R) as (H & _ & E).
  split; [exact R|]. split; [exact E|apply H].
Defined.

(** C5. For the three sentences of [main] the wordCounter sends the
    counts 13, 17 and 8, each tagged "Words". *)
Theorem wordCounter_reference_counts :
  map wordCounter_emit [sentence1; sentence2; sentence3]
  = [mkCount "Words" 13; mkCount "Words" 17; mkCount "Words" 8]
  /\ WordCounter.emitted WordCounter.final_three
     = [mkCount "Words" 13; mkCount "Words" 17; mkCount "Words" 8]
  /\ (forall sentence, tag (wordCounter_emit sentence) = "Words").
Proof.
  split; [vm_compute; reflexivity|].
  split; [vm_compute; reflexivity|].
  intros sentence. reflexivity.
Qed.

(** C9. The count the wordCounter sends is at least 1 for every sentence;
    for the empty sentence it is 1. *)
Theorem wordCounter_count_at_least_one :
  (forall sentence, 1 <= count_n (wordCounter_emit sentence))
  /\ wordCounter_emit "" = mkCount "Words" 1.
Proof.
  split; [|vm_compute; reflexivity].
  intros s. rewrite wordCounter_emit_tokens. cbn [count_n].
  rewrite length_tokens. lia.
Qed.

Lemma letterCounter_no_panic st :
  LetterCounter.inv st -> LetterCounter.step LetterCounter.Goroutine st <> Panic.
Proof.
  intros I H. destruct st as [i o r m g out sn rc em nc tk].
  unfold LetterCounter.inv in I.
  cbn [LetterCounter.Sentence LetterCounter.Count LetterCounter.re LetterCounter.main LetterCounter.gor LetterCounter.stdout LetterCounter.sent LetterCounter.rcvd LetterCounter.emitted LetterCounter.compiles LetterCounter.taken] in *.
  destruct I as (I1 & I2 & I4 & I5 & I6 & I7 & I8 & I9).
  cbn [LetterCounter.step] in H.
  destruct g; try discriminate.
  - unfold recv in H. destruct (buf i); [destruct (closed i)|]; discriminate.
  - destruct r as [r|]; [|destruct I1 as (_ & N & _); congruence].
    unfold send in H. rewrite I7 in H.
    destruct (List.length (buf o) <? cap o)%nat; discriminate.
  - unfold close in H. rewrite I7 in H. discriminate.
Qed.

(** C6. The count the letterCounter sends for a sentence is the number
    of its bytes in [A-Z] or [a-z], found by the matcher that the
    goroutine compiles once, before its first receive; for the three
    sentences of [main] the counts are 45, 70 and 36, tagged "Letters". *)
Theorem letterCounter_counts_letters (re : regexp.Regexp)
    (Hre : letterCounter_Init = Some re)
    (st : LetterCounter.state)
    (R : reachable LetterCounter.step LetterCounter.init st) :
  (forall sentence,
      letterCounter_emit re sentence
      = mkCount "Letters" (Z.of_nat (Spec.letters sentence)))
  /\ map (letterCounter_emit re) [sentence1; sentence2; sentence3]
     = [mkCount "Letters" 45; mkCount "Letters" 70; mkCount "Letters" 36]
  /\ LetterCounter.emitted st
     ++ map (letterCounter_emit re) (LetterCounter.pending (LetterCounter.gor st))
     = map (letterCounter_emit re) (LetterCounter.rcvd st)
  /\ (LetterCounter.compiles st <= 1)%nat
  /\ (match LetterCounter.gor st with
      | LetterCounter.NotStarted | LetterCounter.Init =>
          LetterCounter.compiles st = O /\ LetterCounter.re st = None
          /\ LetterCounter.rcvd st = []
      | _ => LetterCounter.compiles st = 1%nat /\ LetterCounter.re st = Some re
      end)
  /\ LetterCounter.step LetterCounter.Goroutine st <> Panic.
Proof.
  pose proof (letterCounter_reachable_inv st R) as I.
  split; [|split; [|split; [|split; [|split]]]].
  - intros s. now apply letterCounter_emit_letters.
  - rewrite letterCounter_Init_class in Hre. inversion Hre. vm_compute. reflexivity.
  - destruct I as (I1 & I2 & _).
    destruct (LetterCounter.re st) as [r|] eqn:E.
    + assert (r = re) as ->.
      { destruct (LetterCounter.gor st); destruct I1 as [I1 ?]; congruence. }
      auto.
    + destruct I2 as (-> & -> & ->). reflexivity.
  - destruct I as (I1 & _). destruct (LetterCounter.gor st); intuition lia.
  - destruct I as (I1 & I2 & _).
    destruct (LetterCounter.gor st); destruct I1 as [I1 I1'];
      try (split; [apply I1' | congruence]).
    + rewrite I1 in I2. intuition.
    + rewrite I1 in I2. intuition.
  - apply letterCounter_no_panic; auto.
Qed.

Lemma letterCounter_final_three_reachable :
  reachable LetterCounter.step LetterCounter.init LetterCounter.final_three.
Proof.
  eapply (reachable_run _ _ LetterCounter.schedule_three).
  - apply reach_init. exists 10%nat, 10%nat. reflexivity.
  - vm_compute. reflexivity.
Qed.

Lemma letterCounter_counts_letters_witness :
  letterCounter_Init = Some (regexp.mkRegexp [(97, 122); (65, 90)])
  /\ reachable LetterCounter.step LetterCounter.init LetterCounter.final_three
  /\ letterCounter_emit (regexp.mkRegexp [(97, 122); (65, 90)]) sentence3
     = mkCount "Letters" (Z.of_nat (Spec.letters sentence3))
  /\ (LetterCounter.compiles LetterCounter.final_three <= 1)%nat.
Proof.
  pose proof letterCounter_final_three_reachable as R.
  destruct (letterCounter_counts_letters
              (regexp.mkRegexp [(97, 122); (65, 90)]) letterCounter_Init_class
              LetterCounter.final_three R) as (H & _ & _ & C & _).
  exact (conj letterCounter_Init_class (conj R (conj (H sentence3) C))).
Defined.

(** C10. The letter count is additive over concatenation, and a
    character outside [a-zA-Z] adds nothing: a byte outside the class,
    or the UTF-8 encoding of a rune outside it, put anywhere in a
    string leaves the count as it was. *)
Theorem letter_count_additive (re : regexp.Regexp)
    (Hre : letterCounter_Init = Some re) :
  (forall s t : string,
      count_n (letterCounter_emit re (s ++ t)%string)
      = count_n (letterCounter_emit re s) + count_n (letterCounter_emit re t))
  /\ (forall (c : ascii) (s t : string),
        Spec.isLetter c = false ->
        count_n (letterCounter_emit re (s ++ String c t)%string)
        = count_n (letterCounter_emit re s) + count_n (letterCounter_emit re t))
  /\ (forall (r : Z) (s t : string),
        0 <= r -> Spec.isLetterRune r = false ->
        count_n (letterCounter_emit re (s ++ utf8.EncodeRune r ++ t)%string)
        = count_n (letterCounter_emit re s) + count_n (letterCounter_emit re t))
  /\ map (fun r => count_n (letterCounter_emit re (utf8.EncodeRune r)))
         [0x37; 0x2E; 0x20; 0x09; 0xE9; 0x416; 0x4E2D; 0x1F600]
     = [0; 0; 0; 0; 0; 0; 0; 0]
  /\ map (fun r => count_n (letterCounter_emit re (utf8.EncodeRune r)))
         [0x41; 0x5A; 0x61; 0x7A]
     = [1; 1; 1; 1].
Proof.
  assert (E : forall s, count_n (letterCounter_emit re s) = Z.of_nat (Spec.letters s)).
  { intros s. now rewrite (letterCounter_emit_letters re s Hre). }
  split; [|split; [|split; [|split]]].
  - intros s t. rewrite !E, letters_app. lia.
  - intros c s t L. rewrite !E, letters_app. cbn [Spec.letters]. rewrite L. lia.
  - intros r s t Hr L. rewrite !E, !letters_app, (EncodeRune_letters r Hr L). lia.
  - cbn [map]. rewrite !E. vm_compute. reflexivity.
  - cbn [map]. rewrite !E. vm_compute. reflexivity.
Qed.

Lemma letter_count_additive_witness :
  letterCounter_Init = Some (regexp.mkRegexp [(97, 122); (65, 90)])
  /\ count_n (letterCounter_emit (regexp.mkRegexp [(97, 122); (65, 90)])
                (sentence1 ++ sentence2)%string)
     = count_n (letterCounter_emit (regexp.mkRegexp [(97, 122); (65, 90)]) sentence1)
       + count_n (letterCounter_emit (regexp.mkRegexp [(97, 122); (65, 90)]) sentence2).
Proof.
  split; [exact letterCounter_Init_class|].
  apply (letter_count_additive (regexp.mkRegexp [(97, 122); (65, 90)])
           letterCounter_Init_class).
Defined.

(* ===================================================================== *)
(** * Starting the nodes *)
(* ===================================================================== *)

Local Close Scope Z_scope.

(** C8. [Process] of every node returns to its caller without waiting
    on anything: whatever the state of the node's channels and of the
    other goroutines, the caller's statements run one after the other
    up to the return; the goroutines they start stand at their first
    statement and the channels are as they were. *)
Theorem Process_returns_without_blocking :
  (forall st : Splitter.state,
      Splitter.main st = Splitter.MPrintStart ->
      exists st',
        run Splitter.step [Splitter.Main; Splitter.Main] st = Some st'
        /\ Splitter.main st' = Splitter.MReturned
        /\ Splitter.gor st' = Splitter.Recv
        /\ Splitter.In st' = Splitter.In st
        /\ Splitter.Out1 st' = Splitter.Out1 st
        /\ Splitter.Out2 st' = Splitter.Out2 st)
  /\ (forall st : WordCounter.state,
        WordCounter.main st = WordCounter.MPrintStart ->
        exists st',
          run WordCounter.step [WordCounter.Main; WordCounter.Main] st = Some st'
          /\ WordCounter.main st' = WordCounter.MReturned
          /\ WordCounter.gor st' = WordCounter.Recv
          /\ WordCounter.Sentence st' = WordCounter.Sentence st
          /\ WordCounter.Count st' = WordCounter.Count st)
  /\ (forall st : LetterCounter.state,
        LetterCounter.main st = LetterCounter.MPrintStart ->
        exists st',
          run LetterCounter.step [LetterCounter.Main; LetterCounter.Main] st = Some st'
          /\ LetterCounter.main st' = LetterCounter.MReturned
          /\ LetterCounter.gor st' = LetterCounter.Init
          /\ LetterCounter.Sentence st' = LetterCounter.Sentence st
          /\ LetterCounter.Count st' = LetterCounter.Count st)
  /\ (forall st : Printer.state,
        Printer.main st = Printer.MPrintStart ->
        exists st',
          run Printer.step
            [Printer.Main; Printer.Main; Printer.Main; Printer.Main;
             Printer.Main; Printer.Main; Printer.Main] st = Some st'
          /\ Printer.main st' = Printer.MReturned
          /\ Printer.output1 st' = Printer.ORange
          /\ Printer.output2 st' = Printer.ORange
          /\ Printer.closer st' = Printer.CWait
          /\ Printer.sink st' = Printer.SRecv
          /\ Printer.Line1 st' = Printer.Line1 st
          /\ Printer.Line2 st' = Printer.Line2 st
          /\ Printer.Done st' = Printer.Done st)
  /\ (forall st : Printer.state,
        (Printer.main_rank (Printer.main st) < 7)%nat ->
        exists st', Printer.step Printer.Main st = Next st').
Proof.
  split; [|split; [|split; [|split]]].
  - intros [i o1 o2 m g out sn rc w1 w2 r1 r2]. cbn. intros ->.
    eexists. repeat split.
  - intros [i o m g out sn rc em tk]. cbn. intros ->.
    eexists. repeat split.
  - intros [i o r m g out sn rc em nc tk]. cbn. intros ->.
    eexists. repeat split.
  - intros [l1 l2 o d w m o1 o2 c k so s1 s2 mg co cd]. cbn. intros ->.
    eexists. repeat split.
  - intros [l1 l2 o d w m o1 o2 c k so s1 s2 mg co cd]. cbn.
    destruct m; cbn; intros H; try lia; eexists; reflexivity.
Qed.

Lemma Process_returns_without_blocking_witness :
  Printer.main (Printer.init_state 10 10) = Printer.MPrintStart
  /\ exists st',
       run Printer.step
         [Printer.Main; Printer.Main; Printer.Main; Printer.Main;
          Printer.Main; Printer.Main; Printer.Main] (Printer.init_state 10 10)
       = Some st'
       /\ Printer.main st' = Printer.MReturned.
Proof.
  split; [reflexivity|].
  destruct Process_returns_without_blocking as (_ & _ & _ & H & _).
  destruct (H (Printer.init_state 10 10) eq_refl) as (st' & E & M & _).
  exists st'. split; [exact E | exact M].
Defined.

(* ===================================================================== *)
(** * The whole network: what every reachable state satisfies *)
(* ===================================================================== *)

Ltac nproj :=
  cbn [Network.input Network.sToWc Network.sToLc Network.wcToP Network.lcToP
       Network.out Network.done Network.wg Network.re Network.main
       Network.called_s Network.called_wc Network.called_lc Network.called_p
       Network.returned_s Network.returned_wc Network.returned_lc
       Network.returned_p
       Network.sp Network.wc Network.lc Network.o1 Network.o2 Network.cl
       Network.sk Network.stdout Network.fed Network.merged] in *.

Ltac nstart st I :=
  destruct st as [ci c1 c2 c3 c4 co cd w r m fs fw fl fp rs rw rl rp gs gw gl g1 g2 gc gk so fd mg];
  unfold Network.inv_control in I; nproj;
  destruct I as (I1 & I2 & I3 & I4 & I5 & I6 & I7 & I8 & I9 & I10 & I11 & I12
                 & I13 & I14 & I15 & I16 & I17 & I18 & I19 & I20 & I21 & I22
                 & I23 & I24 & I25 & I26 & I27 & I28 & I29 & I30 & I31 & I32
                 & I33 & I34 & I35 & I36 & I37 & I38 & I39).

Ltac nconj := repeat match goal with |- _ /\ _ => split end.

Ltac nbool :=
  repeat match goal with
  | H : _ && _ = true |- _ => apply andb_prop in H; destruct H
  | H : negb _ = true |- _ => apply negb_true_iff in H
  | H : negb _ = false |- _ => apply negb_false_iff in H
  end.

Ltac ncases :=
  repeat match goal with
  | H : Printer.spawned_output ?o = false |- _ => is_var o; destruct o; try discriminate H
  | H : Printer.spawned_closer ?o = false |- _ => is_var o; destruct o; try discriminate H
  | H : Printer.spawned_sink ?o = false |- _ => is_var o; destruct o; try discriminate H
  | H : Network.spawned_sp ?o = false |- _ => is_var o; destruct o; try discriminate H
  | H : Network.spawned_wc ?o = false |- _ => is_var o; destruct o; try discriminate H
  | H : Network.spawned_lc ?o = false |- _ => is_var o; destruct o; try discriminate H
  | H : true = match ?x with _ => _ end |- _ => is_var x; destruct x; try discriminate H
  | H : match ?x with _ => _ end = true |- _ => is_var x; destruct x; try discriminate H
  end.

Ltac nsmp :=
  cbn -[Z.add Z.sub Z.opp Z.mul Z.leb Z.ltb Z.eqb Nat.add Nat.mul Nat.sub
        wordCounter_emit letterCounter_emit letterCounter_Init Network.lettersRe] in *.

Ltac nifs :=
  repeat match goal with
  | H : context [if ?b then _ else _] |- _ => destruct b eqn:?
  | |- context [if ?b then _ else _] => destruct b eqn:?
  end.

Ltac ndone :=
  try assumption; try reflexivity; try discriminate; try congruence; try lia.

Ltac nif_goal :=
  repeat match goal with
  | |- context [if ?b then _ else _] =>
      let E := fresh "E" in destruct b eqn:E; rewrite ?E in *
  | |- context [match ?x with _ => _ end] => is_var x; destruct x
  end.

Ltac nand :=
  repeat match goal with
  | H : _ /\ _ |- _ => destruct H
  | H : buf ?c = _ |- _ => rewrite H in *
  end.

Ltac nfin1 :=
  ndone; nbool; subst; nsmp; ndone; ncases; nsmp; ndone; subst; nsmp; ndone;
  nif_goal; nsmp; ndone; ncases; nsmp; ndone;
  nand; nsmp; nconj; ndone; boolprop; ndone;
  rewrite <- ?app_assoc, ?app_nil_r in *; cbn [app] in *; ndone.

Ltac nstep H :=
  unfold recv, send, close in H; cbn [buf cap closed] in H;
  repeat match type of H with
  | context [match ?x with _ => _ end] =>
      lazymatch x with
      | context [match _ with _ => _ end] => fail
      | _ => destruct x eqn:?
      end
  end;
  try discriminate H; injection H as <-; boolprop.

Lemma network_Init : letterCounter_Init = Some Network.lettersRe.
Proof. vm_compute. reflexivity. Qed.

Lemma network_control_init feed : Network.inv_control feed Network.init_state.
Proof.
  unfold Network.inv_control, Network.init_state. cbn.
  nconj; auto.
Qed.

Ltac nopen :=
  unfold Network.inv_control; nproj;
  unfold Network.println, Network.add_fed, Network.add_merged; nsmp; nconj.

Lemma network_control_step ord feed st l st' :
  Network.inv_control feed st -> Network.step ord feed l st = Next st' ->
  Network.inv_control feed st'.
Proof.
  intros I H. nstart st I.
  destruct l as [| n | | | | i | |]; cbn [Network.step] in H; nproj.
  - unfold Network.all_called in *; nproj.
    destruct m; nstep H; unfold Network.feed_pc;
      try match goal with |- context [match ?l with [] => _ | _ => _ end] =>
        is_var l; destruct l end.
    all: nopen.
    all: nfin1.
  - destruct m; try discriminate H.
    unfold Network.may_start in H.
    destruct n, ord; cbn [Network.called Network.set_called Network.first_pc] in H; nproj;
      nstep H; nopen.
    all: nfin1.
  - destruct gs; nstep H; nopen.
    all: nfin1.
  - destruct gw; nstep H; nopen.
    all: nfin1.
  - destruct gl; rewrite ?network_Init in H; nstep H; nopen.
    all: nfin1.
  - destruct i; cbn [Network.output_of Network.line_of Network.set_output_of Network.set_line_of] in H; nproj;
    [destruct g1 | destruct g2]; nstep H; nopen.
    all: nfin1.
  - destruct gc; nstep H; nopen.
    all: nfin1.
  - destruct gk; nstep H; nopen.
    all: nfin1.
Qed.

Lemma network_data_init : Network.inv_data Network.init_state.
Proof. unfold Network.inv_data. cbn. auto. Qed.

Ltac dopen :=
  unfold Network.inv_data; nproj;
  unfold Network.println, Network.add_fed, Network.add_merged,
         Printer.from, Printer.printed in *;
  rewrite ?filter_app, ?map_app in *; nsmp; nconj.

Ltac dnorm :=
  rewrite ?filter_app, ?map_app, <- ?app_assoc, ?app_nil_r in *; nsmp.

Ltac dfin :=
  ndone; nbool; subst; nsmp; ndone; ncases; nsmp; ndone;
  nand; nsmp; dnorm; ndone;
  repeat match goal with
  | H : map _ ?l = _ |- context [map _ ?l] => is_var l; rewrite H; clear H
  | H : _ = map _ (map _ ?l) |- context [map _ (map _ ?l)] =>
      is_var l; rewrite <- H; clear H
  end; dnorm; ndone.

Lemma network_data_step ord feed st l st' :
  Network.inv_control feed st -> Network.inv_data st ->
  Network.step ord feed l st = Next st' -> Network.inv_data st'.
Proof.
  intros I D H. nstart st I.
  unfold Network.inv_data in D; nproj. destruct D as (D1 & D2 & D3).
  destruct l as [| n | | | | i | |]; cbn [Network.step] in H; nproj.
  - unfold Network.all_called in *; nproj.
    destruct m; nstep H; dopen.
    all: dfin.
  - destruct m; try discriminate H.
    unfold Network.may_start in H.
    destruct n, ord; cbn [Network.called Network.set_called Network.first_pc] in H; nproj;
      nstep H; dopen.
    all: dfin.
  - destruct gs; nstep H; dopen.
    all: dfin.
  - destruct gw; nstep H; dopen.
    all: dfin.
  - destruct gl; rewrite ?network_Init in H; nstep H; dopen.
    all: dfin.
  - destruct i; cbn [Network.output_of Network.line_of Network.set_output_of Network.set_line_of] in H; nproj;
    [destruct g1 | destruct g2]; nstep H; dopen.
    all: dfin.
  - destruct gc; nstep H; dopen.
    all: dfin.
  - destruct gk; nstep H; dopen.
    all: dfin.
Qed.

Lemma network_inv_init feed : Network.inv feed Network.init_state.
Proof. split; [apply network_control_init | apply network_data_init]. Qed.

Lemma network_inv_step ord feed st l st' :
  Network.inv feed st -> Network.step ord feed l st = Next st' ->
  Network.inv feed st'.
Proof.
  intros [I D] H. split.
  - eapply network_control_step; eauto.
  - eapply network_data_step; eauto.
Qed.

Lemma network_reachable_inv ord feed st :
  reachable (Network.step ord feed) Network.init st -> Network.inv feed st.
Proof.
  apply reachable_ind_inv.
  - intros s ->. apply network_inv_init.
  - intros s l s' I E. exact (network_inv_step ord feed s l s' I E).
Qed.

Ltac npanic H :=
  unfold recv, send, close in H; cbn [buf cap closed] in H;
  repeat match type of H with
  | context [match ?x with _ => _ end] =>
      lazymatch x with
      | context [match _ with _ => _ end] => fail
      | _ => destruct x eqn:?
      end
  end;
  try discriminate H; clear H; boolprop.

Ltac nfin2 :=
  ndone; nbool; subst; nsmp; ndone; ncases; nsmp; ndone;
  repeat match goal with
  | H : context [if ?b then _ else _] |- _ =>
      let E := fresh "E" in destruct b eqn:E; rewrite ?E in *
  end; nsmp; ndone; ncases; nsmp; ndone; nand; ndone.

Ltac nrank :=
  match goal with
  | H : context [Network.printer_rank ?m ?f] |- _ =>
      let k := fresh "k" in let E := fresh "E" in
      remember (Network.printer_rank m f) as k eqn:E; clear E;
      destruct k as [|[|[|[|[|[|[|k]]]]]]]
  end.

Lemma network_step_not_panic ord feed st l :
  Network.inv_control feed st -> Network.step ord feed l st <> Panic.
Proof.
  intros I H. nstart st I.
  pose proof (returned_range g1) as R1. pose proof (returned_range g2) as R2.
  destruct l as [| n | | | | i | |]; cbn [Network.step] in H; nproj.
  - unfold Network.all_called in *; nproj.
    destruct m; npanic H.
    all: nfin2.
  - destruct m; try discriminate H.
    unfold Network.may_start in H.
    destruct n, ord; cbn [Network.called Network.set_called Network.first_pc] in H; nproj;
      npanic H.
  - destruct gs; npanic H.
    all: nfin2.
  - destruct gw; npanic H.
    all: nfin2.
  - destruct gl; rewrite ?network_Init in H; npanic H.
    all: nfin2.
  - destruct i; cbn [Network.output_of Network.line_of Network.set_output_of Network.set_line_of] in H; nproj;
    [destruct g1 | destruct g2]; npanic H.
    all: nsmp; nrank; nsmp; ndone; ncases; nsmp; ndone.
  - destruct gc; npanic H.
    all: nfin2.
  - destruct gk; npanic H.
    all: nfin2.
Qed.

Ltac mopen :=
  unfold Network.moves_left, Network.main_weight, Network.calls_left,
         Network.returns_left,
         Network.println, Network.add_fed, Network.add_merged, Network.feed_pc;
  cbn -[Nat.mul Nat.add Nat.sub Z.add Z.sub Z.mul];
  rewrite ?length_app; cbn [List.length].

Ltac mfin :=
  nsmp; nbool; subst; nsmp; ncases; nsmp; try congruence;
  repeat match goal with
  | H : buf ?c = _ |- _ => rewrite H in *
  end; cbn [List.length] in *;
  repeat match goal with
  | |- context [if ?b then ?x else ?y] =>
      is_var b;
      let n := fresh "n" in let E := fresh "E" in
      remember (if b then x else y) as n eqn:E; clear E
  end;
  repeat match goal with
  | |- context [if ?b then _ else _] => destruct b
  end; try lia.

Lemma network_step_moves ord feed st l st' :
  Network.inv_control feed st -> Network.step ord feed l st = Next st' ->
  (Network.moves_left feed st' < Network.moves_left feed st)%nat.
Proof.
  intros I H.
  nstart st I.
  destruct l as [| n | | | | i | |]; cbn [Network.step] in H; nproj.
  - unfold Network.all_called in *; nproj.
    destruct m; nstep H; unfold Network.feed_pc;
      try match goal with |- context [match ?l with [] => _ | _ => _ end] =>
        is_var l; destruct l end.
    all: mopen; mfin.
  - destruct m; try discriminate H.
    unfold Network.may_start in H.
    destruct n, ord; cbn [Network.called Network.set_called Network.first_pc] in H; nproj;
      nstep H; mopen; mfin.
  - destruct gs; nstep H; mopen; mfin.
  - destruct gw; nstep H; mopen; mfin.
  - destruct gl; rewrite ?network_Init in H; nstep H; mopen; mfin.
  - destruct i; cbn [Network.output_of Network.line_of Network.set_output_of Network.set_line_of] in H; nproj;
    [destruct g1 | destruct g2]; nstep H; mopen; mfin.
  - destruct gc; nstep H; mopen; mfin.
  - destruct gk; nstep H; mopen; mfin.
Qed.

(* ===================================================================== *)
(** * The whole network: some goroutine can always move *)
(* ===================================================================== *)

(** Once [main] is past the calls every goroutine has been started. *)
Lemma network_all_spawned feed st :
  Network.inv_control feed st -> Network.past_calls (Network.main st) = true ->
  Network.spawned_sp (Network.sp st) = true
  /\ Network.spawned_wc (Network.wc st) = true
  /\ Network.spawned_lc (Network.lc st) = true
  /\ Printer.spawned_output (Network.o1 st) = true
  /\ Printer.spawned_output (Network.o2 st) = true
  /\ Printer.spawned_closer (Network.cl st) = true
  /\ Printer.spawned_sink (Network.sk st) = true
  /\ Network.wg st
     = (2 - Printer.returned (Network.o1 st) - Printer.returned (Network.o2 st))%Z.
Proof.
  intros I P. nstart st I. unfold Network.all_called in I4; nproj.
  destruct m; try discriminate P; nsmp; nbool; subst; nsmp; nconj; ndone.
Qed.

Ltac nfire l :=
  exists l; cbn [Network.step]; nproj;
  cbn [Network.output_of Network.line_of Network.set_output_of Network.set_line_of];
  nproj;
  unfold recv, send, close, Network.may_start, Network.all_called;
  cbn [buf cap closed Network.called]; nproj;
  repeat match goal with
  | H : buf ?c = _ |- context [buf ?c] => rewrite H
  | H : closed ?c = _ |- context [closed ?c] => rewrite H
  | H : cap ?c = _ |- context [cap ?c] => rewrite H
  | H : (_ <? _)%nat = _ |- _ => rewrite H
  end; cbn -[Z.sub Z.ltb Z.eqb];
  try match goal with
  | |- context [(?a <? ?b)%Z] =>
      replace (a <? b)%Z with false by (symmetry; apply Z.ltb_ge; lia)
  | |- context [(?a =? ?b)%Z] =>
      replace (a =? b)%Z with true by (symmetry; apply Z.eqb_eq; lia)
  end;
  rewrite ?network_Init;
  eexists; reflexivity.

(** Open a state in which the sink waits: the facts on the goroutines
    started, without the ones on [main]'s calls. *)
Ltac wstart st I W :=
  let A := fresh "A" in
  pose proof W as (W1 & W2 & W3);
  pose proof (network_all_spawned _ st I W1) as A;
  pose proof I as I0; pose proof W as W0;
  unfold Network.can_move;
  destruct st as [ci c1 c2 c3 c4 co cd w r m fs fw fl fp rs rw rl rp gs gw gl g1 g2 gc gk so fd mg];
  unfold Network.inv_control in I; nproj;
  destruct I as (I1 & I2 & I3 & _ & _ & _ & _ & _ & _ & _ & _ & _
                 & _ & _ & _ & _ & I17 & I18 & I19 & I20 & I21 & I22
                 & I23 & I24 & I25 & I26 & I27 & I28 & I29 & I30 & I31 & I32
                 & I33 & I34 & I35 & I36 & I37 & I38 & I39);
  destruct A as (A1 & A2 & A3 & A4 & A5 & A6 & A7 & A8); subst.

Section Progress.
Variable ord : Network.start_order.
Variable feed : list string.

(** [output(p.Line1)] moves unless it waits for a value. *)
Lemma network_output1_moves st :
  Network.inv_control feed st -> Network.sink_waits st ->
  Network.o1 st <> Printer.OReturned ->
  (Network.o1 st = Printer.ORange ->
   buf (Network.wcToP st) <> [] \/ closed (Network.wcToP st) = true) ->
  Network.can_move ord feed st.
Proof.
  intros I W N E. wstart st I W.
  pose proof (returned_range g2) as R2.
  destruct g1; try discriminate A4; try congruence;
    try (nfire (Network.Output Printer.L1); fail).
  destruct E as [E | E]; auto; destruct (buf c3) eqn:B3; try congruence;
    nfire (Network.Output Printer.L1).
Qed.

Lemma network_output2_moves st :
  Network.inv_control feed st -> Network.sink_waits st ->
  Network.o2 st <> Printer.OReturned ->
  (Network.o2 st = Printer.ORange ->
   buf (Network.lcToP st) <> [] \/ closed (Network.lcToP st) = true) ->
  Network.can_move ord feed st.
Proof.
  intros I W N E. wstart st I W.
  pose proof (returned_range g1) as R1.
  destruct g2; try discriminate A5; try congruence;
    try (nfire (Network.Output Printer.L2); fail).
  destruct E as [E | E]; auto; destruct (buf c4) eqn:B4; try congruence;
    nfire (Network.Output Printer.L2).
Qed.

(** The wordCounter's goroutine moves, or the printer does, unless the
    wordCounter waits for a sentence. *)
Lemma network_wordCounter_moves st :
  Network.inv_control feed st -> Network.sink_waits st ->
  Network.wc st <> WordCounter.Returned ->
  (Network.wc st = WordCounter.Recv ->
   buf (Network.sToWc st) <> [] \/ closed (Network.sToWc st) = true) ->
  Network.can_move ord feed st.
Proof.
  intros I W N E.
  destruct (Network.wc st) eqn:G; try congruence.
  - pose proof (network_all_spawned _ st I (proj1 W)) as (_ & A & _).
    rewrite G in A. discriminate A.
  - wstart st I W. nproj. subst.
    destruct E as [E | E]; auto; destruct (buf c1) eqn:B1; try congruence;
      nfire Network.WordCounterG.
  - (* [wc.Count <- ...] *)
    destruct (List.length (buf (Network.wcToP st)) <? 10)%nat eqn:F.
    + wstart st I W. nproj. subst. nfire Network.WordCounterG.
    + apply network_output1_moves; auto.
      * intros O. pose proof I as I0. nstart st I. nproj. subst.
        cbn in I34. destruct I34 as [_ B]. rewrite B in F. discriminate F.
      * intros _. left. intros B. rewrite B in F. discriminate F.
  - wstart st I W. nproj. subst. nfire Network.WordCounterG.
  - wstart st I W. nproj. subst. nfire Network.WordCounterG.
Qed.

(** Likewise the letterCounter's goroutine. *)
Lemma network_letterCounter_moves st :
  Network.inv_control feed st -> Network.sink_waits st ->
  Network.lc st <> LetterCounter.Returned ->
  (Network.lc st = LetterCounter.Recv ->
   buf (Network.sToLc st) <> [] \/ closed (Network.sToLc st) = true) ->
  Network.can_move ord feed st.
Proof.
  intros I W N E.
  destruct (Network.lc st) eqn:G; try congruence.
  - pose proof (network_all_spawned _ st I (proj1 W)) as (_ & _ & A & _).
    rewrite G in A. discriminate A.
  - wstart st I W. nproj. subst. nfire Network.LetterCounterG.
  - wstart st I W. nproj. subst.
    destruct E as [E | E]; auto; destruct (buf c2) eqn:B2; try congruence;
      nfire Network.LetterCounterG.
  - (* [lc.Count <- ...] *)
    destruct (List.length (buf (Network.lcToP st)) <? 10)%nat eqn:F.
    + wstart st I W. nproj. subst. nfire Network.LetterCounterG.
    + apply network_output2_moves; auto.
      * intros O. pose proof I as I0. nstart st I. nproj. subst.
        cbn in I35. destruct I35 as [_ B]. rewrite B in F. discriminate F.
      * intros _. left. intros B. rewrite B in F. discriminate F.
  - wstart st I W. nproj. subst. nfire Network.LetterCounterG.
  - wstart st I W. nproj. subst. nfire Network.LetterCounterG.
Qed.

(** The splitter's goroutine moves, or a node after it does, unless the
    splitter waits for a sentence. *)
Lemma network_splitter_moves st :
  Network.inv_control feed st -> Network.sink_waits st ->
  Network.sp st <> Splitter.Returned ->
  (Network.sp st = Splitter.Recv ->
   buf (Network.input st) <> [] \/ closed (Network.input st) = true) ->
  Network.can_move ord feed st.
Proof.
  intros I W N E.
  destruct (Network.sp st) eqn:G; try congruence.
  - pose proof (network_all_spawned _ st I (proj1 W)) as (A & _).
    rewrite G in A. discriminate A.
  - wstart st I W. nproj. subst.
    destruct E as [E | E]; auto; destruct (buf ci) eqn:B; try congruence;
      nfire Network.SplitterG.
  - (* [s.Out1 <- str] *)
    destruct (List.length (buf (Network.sToWc st)) <? 10)%nat eqn:F.
    + wstart st I W. nproj. subst. nfire Network.SplitterG.
    + assert (B : buf (Network.sToWc st) <> [])
        by (intros B; rewrite B in F; discriminate F).
      apply network_wordCounter_moves; auto.
      intros O. pose proof I as I0. nstart st I. nproj. subst.
      cbn in I32. destruct I32 as [_ B']. congruence.
  - (* [s.Out2 <- str] *)
    destruct (List.length (buf (Network.sToLc st)) <? 10)%nat eqn:F.
    + wstart st I W. nproj. subst. nfire Network.SplitterG.
    + assert (B : buf (Network.sToLc st) <> [])
        by (intros B; rewrite B in F; discriminate F).
      apply network_letterCounter_moves; auto.
      intros O. pose proof I as I0. nstart st I. nproj. subst.
      cbn in I33. destruct I33 as [_ B']. congruence.
  - wstart st I W. nproj. subst. nfire Network.SplitterG.
  - wstart st I W. nproj. subst. nfire Network.SplitterG.
  - wstart st I W. nproj. subst. nfire Network.SplitterG.
Qed.

(** With the input open and empty [main] is the one to move. *)
Lemma network_main_feeds st :
  Network.inv_control feed st -> Network.past_calls (Network.main st) = true ->
  buf (Network.input st) = [] -> closed (Network.input st) = false ->
  Network.can_move ord feed st.
Proof.
  intros I P B C. unfold Network.can_move. nstart st I. nproj.
  destruct m; try discriminate P; nsmp; try congruence;
    try (nfire Network.Main; fail).
  destruct rest; [contradiction|]. nfire Network.Main.
Qed.

(** While the splitter has statements other than [return] left something
    moves. *)
Lemma network_source_moves st :
  Network.inv_control feed st -> Network.sink_waits st ->
  Network.sp st <> Splitter.Returned -> Network.can_move ord feed st.
Proof.
  intros I W N.
  destruct (buf (Network.input st)) eqn:B.
  - destruct (closed (Network.input st)) eqn:C.
    + apply network_splitter_moves; auto.
    + apply network_main_feeds; auto. apply W.
  - apply network_splitter_moves; auto. intros _. left. congruence.
Qed.

(** While a counter has statements other than [return] left something
    moves. *)
Lemma network_words_move st :
  Network.inv_control feed st -> Network.sink_waits st ->
  Network.wc st <> WordCounter.Returned -> Network.can_move ord feed st.
Proof.
  intros I W N.
  destruct (buf (Network.sToWc st)) eqn:B.
  - destruct (closed (Network.sToWc st)) eqn:C.
    + apply network_wordCounter_moves; auto.
    + apply network_source_moves; auto.
      intros G. nstart st I. nproj. subst. cbn in I25. congruence.
  - apply network_wordCounter_moves; auto. intros _. left. congruence.
Qed.

Lemma network_letters_move st :
  Network.inv_control feed st -> Network.sink_waits st ->
  Network.lc st <> LetterCounter.Returned -> Network.can_move ord feed st.
Proof.
  intros I W N.
  destruct (buf (Network.sToLc st)) eqn:B.
  - destruct (closed (Network.sToLc st)) eqn:C.
    + apply network_letterCounter_moves; auto.
    + apply network_source_moves; auto.
      intros G. nstart st I. nproj. subst. cbn in I26. congruence.
  - apply network_letterCounter_moves; auto. intros _. left. congruence.
Qed.

(** While an [output] has not ended something moves. *)
Lemma network_line1_moves st :
  Network.inv_control feed st -> Network.sink_waits st ->
  Network.o1 st <> Printer.OReturned -> Network.can_move ord feed st.
Proof.
  intros I W N.
  destruct (buf (Network.wcToP st)) eqn:B.
  - destruct (closed (Network.wcToP st)) eqn:C.
    + apply network_output1_moves; auto.
    + apply network_words_move; auto.
      intros G. nstart st I. nproj. subst. cbn in I27. congruence.
  - apply network_output1_moves; auto. intros _. left. congruence.
Qed.

Lemma network_line2_moves st :
  Network.inv_control feed st -> Network.sink_waits st ->
  Network.o2 st <> Printer.OReturned -> Network.can_move ord feed st.
Proof.
  intros I W N.
  destruct (buf (Network.lcToP st)) eqn:B.
  - destruct (closed (Network.lcToP st)) eqn:C.
    + apply network_output2_moves; auto.
    + apply network_letters_move; auto.
      intros G. nstart st I. nproj. subst. cbn in I28. congruence.
  - apply network_output2_moves; auto. intros _. left. congruence.
Qed.

(** While the sink waits something moves. *)
Lemma network_sink_waits_moves st :
  Network.inv_control feed st -> Network.sink_waits st ->
  Network.can_move ord feed st.
Proof.
  intros I W.
  destruct (Network.o1 st) eqn:G1;
    try (apply network_line1_moves; auto; congruence).
  destruct (Network.o2 st) eqn:G2;
    try (apply network_line2_moves; auto; congruence).
  wstart st I W. nproj. subst.
  destruct gc; try discriminate A6; try (nfire Network.Closer; fail).
  cbn in I29. congruence.
Qed.

(** When the sink has seen [out] closed every goroutine before it has
    run its last [close] or [wg.Done()], and the input is closed. *)
Lemma network_sink_done st :
  Network.inv_control feed st -> Network.past_calls (Network.main st) = true ->
  Printer.sink_done (Network.sk st) = true ->
  Network.cl st = Printer.CReturned
  /\ Network.o1 st = Printer.OReturned /\ Network.o2 st = Printer.OReturned
  /\ Network.wc st = WordCounter.Returned /\ Network.lc st = LetterCounter.Returned
  /\ Network.sp st = Splitter.Returned
  /\ closed (Network.input st) = true.
Proof.
  intros I P K.
  pose proof (network_all_spawned _ st I P) as A.
  destruct st as [ci c1 c2 c3 c4 co cd w r m fs fw fl fp rs rw rl rp gs gw gl g1 g2 gc gk so fd mg];
  unfold Network.inv_control in I; nproj;
  destruct I as (I1 & I2 & I3 & _ & _ & _ & _ & _ & _ & _ & _ & _
                 & _ & _ & _ & _ & I17 & I18 & I19 & I20 & I21 & I22
                 & I23 & I24 & I25 & I26 & I27 & I28 & I29 & I30 & I31 & I32
                 & I33 & I34 & I35 & I36 & I37 & I38 & I39);
  destruct A as (A1 & A2 & A3 & A4 & A5 & A6 & A7 & A8).
  pose proof (returned_range g1) as R1. pose proof (returned_range g2) as R2.
  rewrite K in I37.
  destruct gc; try (rewrite I37 in I29; discriminate I29).
  cbn in I36.
  destruct g1; try discriminate A4; cbn in R1, A8, I34; try lia;
  destruct g2; try discriminate A5; cbn in R2, A8, I35; try lia.
  destruct I34 as [C3 _], I35 as [C4 _].
  destruct gw; try (rewrite C3 in I27; discriminate I27).
  destruct gl; try (rewrite C4 in I28; discriminate I28).
  destruct I32 as [C1 _], I33 as [C2 _].
  destruct gs; try (rewrite C2 in I26; discriminate I26).
  cbn in I31. destruct I31 as [C0 _]. auto 10.
Qed.

(** No deadlock: until [main] has left, some goroutine can move. *)
Lemma network_progress st :
  Network.inv_control feed st ->
  Network.main st = Network.MExit \/ Network.can_move ord feed st.
Proof.
  intros I.
  destruct (Network.past_calls (Network.main st)) eqn:P.
  - destruct (Network.sk st) eqn:K.
    + pose proof (network_all_spawned _ st I P) as (_ & _ & _ & _ & _ & _ & A & _).
      rewrite K in A. discriminate A.
    + destruct (closed (Network.out st)) eqn:C.
      * right. unfold Network.can_move. nstart st I. nproj. subst.
        nfire Network.Sink.
      * right. apply network_sink_waits_moves; auto. repeat split; auto.
    + right. unfold Network.can_move. nstart st I. nproj. subst. nfire Network.Sink.
    + right. unfold Network.can_move. nstart st I. nproj. subst. nfire Network.Sink.
    + right. unfold Network.can_move. nstart st I. nproj. subst. nfire Network.Sink.
    + (* the sink has returned *)
      assert (D : Printer.sink_done (Network.sk st) = true) by (rewrite K; reflexivity).
      destruct (network_sink_done st I P D) as (_ & _ & _ & _ & _ & _ & C).
      unfold Network.can_move. nstart st I. nproj. subst.
      destruct m; try discriminate P; nsmp; try congruence;
        try (left; reflexivity); right; nfire Network.Main.
  - right. unfold Network.can_move. nstart st I. nproj.
    unfold Network.all_called in *; nproj.
    destruct m; try discriminate P; try (nfire Network.Main; fail).
    destruct fs; [| destruct ord; nfire (Network.Start Network.NSplitter)].
    destruct fw; [| destruct ord; nfire (Network.Start Network.NWordCounter)].
    destruct fl; [| destruct ord; nfire (Network.Start Network.NLetterCounter)].
    destruct fp; [| destruct ord; nfire (Network.Start Network.NPrinter)].
    nfire Network.Main.
Qed.
End Progress.

(* ===================================================================== *)
(** * The whole network: what is printed *)
(* ===================================================================== *)

Section OutputFacts.

Lemma filter_filter_sub {A : Type} (f g : A -> bool) (l : list A) :
  (forall x, f x = true -> g x = true) -> filter f (filter g l) = filter f l.
Proof.
  intros H. induction l as [|x l IH]; cbn; auto.
  destruct (g x) eqn:G; cbn.
  - rewrite IH. reflexivity.
  - destruct (f x) eqn:F; auto. rewrite (H x F) in G. discriminate.
Qed.

Lemma tagged_count_line t l :
  Network.tagged t l = true -> Printer.is_count_line l = true.
Proof.
  destruct l as [|[x|n] [|[y|k] [|z l]]]; cbn; auto; discriminate.
Qed.

Lemma filter_tagged_printed t o :
  filter (Network.tagged t) (Printer.printed o) = filter (Network.tagged t) o.
Proof. apply filter_filter_sub. apply tagged_count_line. Qed.

Lemma tagged_render t c :
  Network.tagged t (Printer.render c) = String.eqb (tag c ++ ":") t.
Proof. reflexivity. Qed.

Lemma filter_tagged_merged (m : list (Printer.line_id * count)) :
  Forall (fun c => tag c = "Words"%string) (Printer.from Printer.L1 m) ->
  Forall (fun c => tag c = "Letters"%string) (Printer.from Printer.L2 m) ->
  filter (Network.tagged "Words:") (map Printer.render (map snd m))
  = map Printer.render (Printer.from Printer.L1 m)
  /\ filter (Network.tagged "Letters:") (map Printer.render (map snd m))
     = map Printer.render (Printer.from Printer.L2 m).
Proof.
  unfold Printer.from.
  induction m as [|[i c] m IH]; cbn [map filter fst snd]; auto.
  rewrite !tagged_render.
  destruct i; cbn [Printer.line_eqb map]; intros F1 F2.
  - inversion F1 as [|? ? T F1']; subst.
    destruct (IH F1' F2) as [E1 E2]. rewrite T.
    change (String.eqb ("Words" ++ ":") "Words:") with true.
    change (String.eqb ("Words" ++ ":") "Letters:") with false.
    cbv iota. rewrite E1, E2. auto.
  - inversion F2 as [|? ? T F2']; subst.
    destruct (IH F1 F2') as [E1 E2]. rewrite T.
    change (String.eqb ("Letters" ++ ":") "Words:") with false.
    change (String.eqb ("Letters" ++ ":") "Letters:") with true.
    cbv iota. rewrite E1, E2. auto.
Qed.

Lemma Forall_prefix_map {A B : Type} (f : A -> B) (P : B -> Prop) l p r :
  (forall x, P (f x)) -> map f l = p ++ r -> Forall P p.
Proof.
  intros H E.
  assert (F : Forall P (map f l)) by (apply Forall_map, Forall_forall; auto).
  rewrite E in F. apply Forall_app in F. tauto.
Qed.

(** At every moment the count lines printed are, kind by kind, the
    first counts of the sentences sent so far. *)
Lemma network_printed_prefix feed st :
  Network.inv feed st ->
  exists rest1 rest2,
    map Printer.render (map wordCounter_emit (Network.fed st))
    = filter (Network.tagged "Words:") (Network.stdout st) ++ rest1
    /\ map Printer.render (map (letterCounter_emit Network.lettersRe) (Network.fed st))
       = filter (Network.tagged "Letters:") (Network.stdout st) ++ rest2.
Proof.
  intros [I (D1 & D2 & D3)].
  assert (F1 : Forall (fun c => tag c = "Words"%string)
                 (Printer.from Printer.L1 (Network.merged st)))
    by (eapply Forall_prefix_map; [|exact D1]; reflexivity).
  assert (F2 : Forall (fun c => tag c = "Letters"%string)
                 (Printer.from Printer.L2 (Network.merged st)))
    by (eapply Forall_prefix_map; [|exact D2]; reflexivity).
  destruct (filter_tagged_merged _ F1 F2) as [E1 E2].
  rewrite <- D3, filter_app, filter_tagged_printed in E1, E2.
  rewrite D1, D2, !map_app.
  rewrite <- E1, <- E2, <- !app_assoc. eauto.
Qed.

(** Where the network stands when [main] has left. *)
Lemma network_exit feed st :
  Network.inv feed st -> Network.main st = Network.MExit ->
  (Network.sp st = Splitter.Returned /\ Network.wc st = WordCounter.Returned
   /\ Network.lc st = LetterCounter.Returned
   /\ Network.o1 st = Printer.OReturned /\ Network.o2 st = Printer.OReturned
   /\ Network.cl st = Printer.CReturned /\ Network.sk st = Printer.SReturned)
  /\ (buf (Network.input st) = [] /\ buf (Network.sToWc st) = []
      /\ buf (Network.sToLc st) = [] /\ buf (Network.wcToP st) = []
      /\ buf (Network.lcToP st) = [] /\ buf (Network.out st) = []
      /\ buf (Network.done st) = [])
  /\ (closed (Network.input st) = true /\ closed (Network.sToWc st) = true
      /\ closed (Network.sToLc st) = true /\ closed (Network.wcToP st) = true
      /\ closed (Network.lcToP st) = true /\ closed (Network.out st) = true
      /\ closed (Network.done st) = true)
  /\ Network.wg st = 0%Z
  /\ Network.fed st = feed
  /\ Printer.from Printer.L1 (Network.merged st) = map wordCounter_emit feed
  /\ Printer.from Printer.L2 (Network.merged st)
     = map (letterCounter_emit Network.lettersRe) feed
  /\ Printer.printed (Network.stdout st)
     = map Printer.render (map snd (Network.merged st)).
Proof.
  intros [I (D1 & D2 & D3)] E.
  assert (P : Network.past_calls (Network.main st) = true) by (rewrite E; reflexivity).
  assert (K : Network.sk st = Printer.SReturned).
  { nstart st I. nproj. subst. cbn in I38. rewrite I38 in I30.
    destruct gk; try discriminate I30. reflexivity. }
  assert (D : Printer.sink_done (Network.sk st) = true) by (rewrite K; reflexivity).
  destruct (network_sink_done feed st I P D) as (G1 & G2 & G3 & G4 & G5 & G6 & C).
  nstart st I. nproj. subst. nsmp. nand. rewrite ?app_nil_r in *. subst.
  repeat match goal with |- _ /\ _ => split end; auto.
Qed.
End OutputFacts.

(* ===================================================================== *)
(** * The whole network: panics, deadlocks, termination, shutdown *)
(* ===================================================================== *)

Lemma network_init_reachable ord feed :
  reachable (Network.step ord feed) Network.init Network.init_state.
Proof. apply reach_init. reflexivity. Qed.

Lemma sample_final_run :
  run (Network.step Network.InOrder Network.sentences) Network.sample_schedule
    Network.init_state = Some Network.sample_final.
Proof. vm_compute. reflexivity. Qed.

Lemma sample_final_reachable :
  reachable (Network.step Network.InOrder Network.sentences) Network.init
    Network.sample_final.
Proof.
  eapply reachable_run; [apply network_init_reachable | apply sample_final_run].
Qed.

(** X1. No statement of [main] or of a goroutine of the four nodes
    panics, whatever the sentences sent, the order of the calls of
    [Process] and the interleaving: no send on a closed channel, no
    channel closed twice, no negative WaitGroup counter, no use of the
    matcher before [Init] has stored it. *)
Theorem network_never_panics (ord : Network.start_order) (feed : list string)
    (st : Network.state) (l : Network.label) :
  reachable (Network.step ord feed) Network.init st ->
  Network.step ord feed l st <> Panic.
Proof.
  intros R. apply network_step_not_panic.
  apply (network_reachable_inv ord feed st R).
Qed.

Lemma network_never_panics_witness :
  reachable (Network.step Network.InOrder Network.sentences) Network.init
    Network.sample_final
  /\ Network.step Network.InOrder Network.sentences Network.Sink
       Network.sample_final <> Panic.
Proof.
  pose proof sample_final_reachable as R.
  exact (conj R (network_never_panics Network.InOrder Network.sentences
                   Network.sample_final Network.Sink R)).
Defined.

(** X2. The network never deadlocks: in every reachable state either
    [main] has left or some goroutine can run its next statement. *)
Theorem network_never_deadlocks (ord : Network.start_order) (feed : list string)
    (st : Network.state) :
  reachable (Network.step ord feed) Network.init st ->
  Network.main st = Network.MExit \/ Network.can_move ord feed st.
Proof.
  intros R. apply network_progress.
  apply (network_reachable_inv ord feed st R).
Qed.

Lemma network_never_deadlocks_witness :
  reachable (Network.step Network.MapRange Network.sentences) Network.init
    Network.init_state
  /\ (Network.main Network.init_state = Network.MExit
      \/ Network.can_move Network.MapRange Network.sentences Network.init_state).
Proof.
  pose proof (network_init_reachable Network.MapRange Network.sentences) as R.
  exact (conj R (network_never_deadlocks Network.MapRange Network.sentences
                   Network.init_state R)).
Defined.

(** On every interleaving [main] returns. *)
Lemma network_inevitably_returns (ord : Network.start_order) (feed : list string) :
  inevitably (Network.step ord feed)
    (fun st => Network.inv feed st /\ Network.main st = Network.MExit)
    Network.init_state.
Proof.
  apply (inevitably_by_measure (Network.step ord feed)
           (Network.moves_left feed) (Network.inv feed)
           (fun st => Network.main st = Network.MExit)).
  - intros s l s' I H. split.
    + eapply network_inv_step; eauto.
    + eapply network_step_moves; eauto. apply I.
  - intros s I. apply network_progress. apply I.
  - apply network_inv_init.
Qed.

(** The count lines printed when [main] has returned. *)
Lemma network_exit_lines feed st :
  Network.inv feed st -> Network.main st = Network.MExit ->
  filter (Network.tagged "Words:") (Network.stdout st)
  = map Printer.render (map wordCounter_emit feed)
  /\ filter (Network.tagged "Letters:") (Network.stdout st)
     = map Printer.render (map (letterCounter_emit Network.lettersRe) feed).
Proof.
  intros I E.
  destruct (network_exit feed st I E) as (_ & _ & _ & _ & F & M1 & M2 & P).
  destruct I as [Ic (D1 & D2 & D3)].
  assert (F1 : Forall (fun c => tag c = "Words"%string)
                 (Printer.from Printer.L1 (Network.merged st)))
    by (eapply Forall_prefix_map; [|exact D1]; reflexivity).
  assert (F2 : Forall (fun c => tag c = "Letters"%string)
                 (Printer.from Printer.L2 (Network.merged st)))
    by (eapply Forall_prefix_map; [|exact D2]; reflexivity).
  destruct (filter_tagged_merged _ F1 F2) as [E1 E2].
  rewrite <- P, filter_tagged_printed in E1, E2.
  rewrite E1, E2, M1, M2. auto.
Qed.

(** X3. Whatever the sentences, the order of the calls of [Process] and
    the interleaving, [main] returns, and by then the lines [Words: n]
    printed are the word counts of the sentences in the order sent, and
    the lines [Letters: n] their letter counts in the order sent. *)
Theorem network_terminates (ord : Network.start_order) (feed : list string) :
  inevitably (Network.step ord feed)
    (fun st =>
       Network.main st = Network.MExit
       /\ filter (Network.tagged "Words:") (Network.stdout st)
          = map Printer.render (map wordCounter_emit feed)
       /\ filter (Network.tagged "Letters:") (Network.stdout st)
          = map Printer.render
              (map (letterCounter_emit Network.lettersRe) feed))
    Network.init_state.
Proof.
  eapply inevitably_mono; [| apply (network_inevitably_returns ord feed)].
  intros st [I E]. cbv beta.
  split; [exact E | exact (network_exit_lines feed st I E)].
Qed.

(** X4. [main] with its three sentences prints the word counts 13, 17
    and 8 in this order and the letter counts 45, 70 and 36 in this
    order, and returns, on every interleaving and for every order of
    the calls of [Process]. *)
Theorem main_prints_the_six_counts (ord : Network.start_order) :
  inevitably (Network.step ord Network.sentences)
    (fun st =>
       Network.main st = Network.MExit
       /\ filter (Network.tagged "Words:") (Network.stdout st)
          = [[Str "Words:"; Int 13]; [Str "Words:"; Int 17]; [Str "Words:"; Int 8]]
       /\ filter (Network.tagged "Letters:") (Network.stdout st)
          = [[Str "Letters:"; Int 45]; [Str "Letters:"; Int 70];
             [Str "Letters:"; Int 36]])
    Network.init_state.
Proof.
  eapply inevitably_mono;
    [| apply (network_inevitably_returns ord Network.sentences)].
  intros st [I E]. cbv beta.
  destruct (network_exit_lines Network.sentences st I E) as [W L].
  rewrite W, L.
  split; [exact E|]. split; vm_compute; reflexivity.
Qed.

(** X5. At every moment the lines [Words: n] printed so far are the
    word counts of the first sentences sent, in the order sent, and
    the lines [Letters: n] the letter counts of the first sentences
    sent: no count is made up, repeated, or overtaken by a later count
    of its kind. *)
Theorem network_prints_counts_in_order (ord : Network.start_order)
    (feed : list string) (st : Network.state) :
  reachable (Network.step ord feed) Network.init st ->
  exists rest1 rest2,
    map Printer.render (map wordCounter_emit feed)
    = filter (Network.tagged "Words:") (Network.stdout st) ++ rest1
    /\ map Printer.render (map (letterCounter_emit Network.lettersRe) feed)
       = filter (Network.tagged "Letters:") (Network.stdout st) ++ rest2.
Proof.
  intros R. pose proof (network_reachable_inv ord feed st R) as I.
  destruct (network_printed_prefix feed st I) as (r1 & r2 & P1 & P2).
  destruct I as [(I1 & _) _].
  assert (Q : forall f : string -> count,
            map Printer.render (map f feed)
            = map Printer.render (map f (Network.fed st))
              ++ map Printer.render
                   (map f (Network.unsent feed (Network.main st))))
    by (intros f; rewrite I1 at 1; rewrite !map_app; reflexivity).
  rewrite !Q, P1, P2, <- !app_assoc. eauto.
Qed.

Lemma network_prints_counts_in_order_witness :
  reachable (Network.step Network.InOrder Network.sentences) Network.init
    Network.sample_final
  /\ exists rest1 rest2,
       map Printer.render (map wordCounter_emit Network.sentences)
       = filter (Network.tagged "Words:") (Network.stdout Network.sample_final)
         ++ rest1
       /\ map Printer.render
            (map (letterCounter_emit Network.lettersRe) Network.sentences)
          = filter (Network.tagged "Letters:")
              (Network.stdout Network.sample_final) ++ rest2.
Proof.
  pose proof sample_final_reachable as R.
  exact (conj R (network_prints_counts_in_order Network.InOrder
                   Network.sentences Network.sample_final R)).
Defined.

(** X6. When [main] returns the network has shut down: every goroutine
    has run its last [close] or [wg.Done()].  The goroutines of the
    three nodes and the printer's own stand at their [return] or past
    it, the two [output] goroutines and the one that closes [out] have
    ended; the seven channels are closed and empty, the WaitGroup
    counter is zero, every sentence has been sent, and every count
    merged has been printed.  The only statements left to run are the
    [return]s of those four goroutines: nothing orders them before the
    return of [main], and where [sample_schedule] ends none has run. *)
Theorem network_shuts_down_clean (ord : Network.start_order)
    (feed : list string) (st : Network.state) :
  reachable (Network.step ord feed) Network.init st ->
  Network.main st = Network.MExit ->
  (Network.sp st = Splitter.Returned /\ Network.wc st = WordCounter.Returned
   /\ Network.lc st = LetterCounter.Returned
   /\ Network.o1 st = Printer.OReturned /\ Network.o2 st = Printer.OReturned
   /\ Network.cl st = Printer.CReturned /\ Network.sk st = Printer.SReturned)
  /\ (buf (Network.input st) = [] /\ buf (Network.sToWc st) = []
      /\ buf (Network.sToLc st) = [] /\ buf (Network.wcToP st) = []
      /\ buf (Network.lcToP st) = [] /\ buf (Network.out st) = []
      /\ buf (Network.done st) = [])
  /\ (closed (Network.input st) = true /\ closed (Network.sToWc st) = true
      /\ closed (Network.sToLc st) = true /\ closed (Network.wcToP st) = true
      /\ closed (Network.lcToP st) = true /\ closed (Network.out st) = true
      /\ closed (Network.done st) = true)
  /\ Network.wg st = 0%Z
  /\ Network.fed st = feed
  /\ Printer.printed (Network.stdout st)
     = map Printer.render (map snd (Network.merged st))
  (* the only statements left are the four [return]s *)
  /\ (forall l st', Network.step ord feed l st = Next st' ->
        (l = Network.SplitterG /\ Network.returned_s st = false
         /\ st' = Network.set_returned_s true st)
        \/ (l = Network.WordCounterG /\ Network.returned_wc st = false
            /\ st' = Network.set_returned_wc true st)
        \/ (l = Network.LetterCounterG /\ Network.returned_lc st = false
            /\ st' = Network.set_returned_lc true st)
        \/ (l = Network.Sink /\ Network.returned_p st = false
            /\ st' = Network.set_returned_p true st)).
Proof.
  intros R E. pose proof (network_reachable_inv ord feed st R) as I.
  destruct (network_exit feed st I E) as (G & B & C & W & F & _ & _ & P).
  split; [exact G|]. split; [exact B|]. split; [exact C|].
  split; [exact W|]. split; [exact F|]. split; [exact P|].
  destruct G as (G1 & G2 & G3 & G4 & G5 & G6 & G7).
  intros l st' H.
  destruct l as [| n | | | | i | |]; cbn [Network.step] in H.
  - rewrite E in H. discriminate H.
  - rewrite E in H. discriminate H.
  - rewrite G1 in H. destruct (Network.returned_s st) eqn:F1; [discriminate H|].
    injection H as <-. auto.
  - rewrite G2 in H. destruct (Network.returned_wc st) eqn:F2; [discriminate H|].
    injection H as <-. auto 6.
  - rewrite G3 in H. destruct (Network.returned_lc st) eqn:F3; [discriminate H|].
    injection H as <-. auto 6.
  - destruct i; cbn [Network.output_of] in H; rewrite ?G4, ?G5 in H;
      discriminate H.
  - rewrite G6 in H. discriminate H.
  - rewrite G7 in H. destruct (Network.returned_p st) eqn:F4; [discriminate H|].
    injection H as <-. auto 8.
Qed.

Lemma network_shuts_down_clean_witness :
  reachable (Network.step Network.InOrder Network.sentences) Network.init
    Network.sample_final
  /\ Network.main Network.sample_final = Network.MExit
  /\ Network.sk Network.sample_final = Printer.SReturned
  /\ closed (Network.done Network.sample_final) = true
  /\ Network.fed Network.sample_final = Network.sentences
  /\ Network.wg Network.sample_final = 0%Z
  /\ (Network.returned_s Network.sample_final,
      Network.returned_wc Network.sample_final,
      Network.returned_lc Network.sample_final,
      Network.returned_p Network.sample_final)
     = (false, false, false, false).
Proof.
  pose proof sample_final_reachable as R.
  assert (E : Network.main Network.sample_final = Network.MExit)
    by (vm_compute; reflexivity).
  assert (F : (Network.returned_s Network.sample_final,
               Network.returned_wc Network.sample_final,
               Network.returned_lc Network.sample_final,
               Network.returned_p Network.sample_final)
              = (false, false, false, false))
    by (vm_compute; reflexivity).
  destruct (network_shuts_down_clean Network.InOrder Network.sentences
              Network.sample_final R E)
    as ((_ & _ & _ & _ & _ & _ & K) & _ & (_ & _ & _ & _ & _ & _ & D) & W & Fd & _).
  exact (conj R (conj E (conj K (conj D (conj Fd (conj W F)))))).
Defined.

(** X7. The shutdown travels down the network: a channel is closed only
    once the channel before it is closed and drained.  [sToWc] is
    closed only after the input is closed and empty, [sToLc] only after
    [sToWc]; a counter closes its output only after its input is closed
    and empty; [out] is closed only after both inputs of the printer
    are closed and empty; [done] only after [out] is closed and every
    count merged is printed. *)
Theorem network_closes_downstream_last (ord : Network.start_order)
    (feed : list string) (st : Network.state) :
  reachable (Network.step ord feed) Network.init st ->
  (closed (Network.sToWc st) = true ->
   closed (Network.input st) = true /\ buf (Network.input st) = [])
  /\ (closed (Network.sToLc st) = true -> closed (Network.sToWc st) = true)
  /\ (closed (Network.wcToP st) = true ->
      closed (Network.sToWc st) = true /\ buf (Network.sToWc st) = [])
  /\ (closed (Network.lcToP st) = true ->
      closed (Network.sToLc st) = true /\ buf (Network.sToLc st) = [])
  /\ (closed (Network.out st) = true ->
      (closed (Network.wcToP st) = true /\ buf (Network.wcToP st) = [])
      /\ (closed (Network.lcToP st) = true /\ buf (Network.lcToP st) = []))
  /\ (closed (Network.done st) = true ->
      closed (Network.out st) = true
      /\ Printer.printed (Network.stdout st)
         = map Printer.render (map snd (Network.merged st))).
Proof.
  intros R. destruct (network_reachable_inv ord feed st R) as [I (D1 & D2 & D3)].
  pose proof (returned_range (Network.o1 st)) as R1.
  pose proof (returned_range (Network.o2 st)) as R2.
  nstart st I. nproj.
  split; [|split; [|split; [|split; [|split]]]]; intros C.
  - rewrite C in I25. destruct gs; try discriminate I25; exact I31.
  - rewrite C in I26. destruct gs; try discriminate I26; exact I25.
  - rewrite C in I27. destruct gw; try discriminate I27; exact I32.
  - rewrite C in I28. destruct gl; try discriminate I28; exact I33.
  - rewrite C in I29. destruct gc; try discriminate I29.
    nrank; nsmp; try discriminate I14;
      destruct g1; try discriminate I12; destruct g2; try discriminate I13;
      nsmp; try lia; auto.
  - rewrite C in I30. destruct gk; try discriminate I30.
    cbn in I37, D3. rewrite app_nil_r in D3. auto.
Qed.

Lemma network_closes_downstream_last_witness :
  reachable (Network.step Network.InOrder Network.sentences) Network.init
    Network.sample_final
  /\ closed (Network.done Network.sample_final) = true
  /\ closed (Network.out Network.sample_final) = true.
Proof.
  pose proof sample_final_reachable as R.
  assert (C : closed (Network.done Network.sample_final) = true)
    by (vm_compute; reflexivity).
  destruct (network_closes_downstream_last Network.InOrder Network.sentences
              Network.sample_final R) as (_ & _ & _ & _ & _ & H).
  exact (conj R (conj C (proj1 (H C)))).
Defined.

(** X8. No sentence is lost or counted twice on its way: the word
    counts of the sentences sent so far are, in order, the counts
    already merged from [Line1], the one [output(p.Line1)] holds, the
    ones in [wcToP], and the counts of the sentences the wordCounter
    holds, [sToWc] holds, the splitter has still to write to [Out1],
    and the input holds; likewise the letter counts along [Out2]. *)
Theorem network_conserves_sentences (ord : Network.start_order)
    (feed : list string) (st : Network.state) :
  reachable (Network.step ord feed) Network.init st ->
  map wordCounter_emit (Network.fed st)
  = Printer.from Printer.L1 (Network.merged st)
    ++ Printer.inflight (Network.o1 st) ++ buf (Network.wcToP st)
    ++ map wordCounter_emit
         (Network.hold_wc (Network.wc st) ++ buf (Network.sToWc st)
          ++ Network.hold1 (Network.sp st) ++ buf (Network.input st))
  /\ map (letterCounter_emit Network.lettersRe) (Network.fed st)
     = Printer.from Printer.L2 (Network.merged st)
       ++ Printer.inflight (Network.o2 st) ++ buf (Network.lcToP st)
       ++ map (letterCounter_emit Network.lettersRe)
            (LetterCounter.pending (Network.lc st) ++ buf (Network.sToLc st)
             ++ Network.hold2 (Network.sp st) ++ buf (Network.input st))
  /\ feed = Network.fed st ++ Network.unsent feed (Network.main st).
Proof.
  intros R. destruct (network_reachable_inv ord feed st R) as [I (D1 & D2 & D3)].
  destruct I as (I1 & _). auto.
Qed.

Lemma network_conserves_sentences_witness :
  reachable (Network.step Network.InOrder Network.sentences) Network.init
    Network.sample_final
  /\ map wordCounter_emit (Network.fed Network.sample_final)
     = Printer.from Printer.L1 (Network.merged Network.sample_final).
Proof.
  pose proof sample_final_reachable as R.
  destruct (network_conserves_sentences Network.InOrder Network.sentences
              Network.sample_final R) as (H & _).
  assert (E : Printer.from Printer.L1 (Network.merged Network.sample_final)
              ++ Printer.inflight (Network.o1 Network.sample_final)
              ++ buf (Network.wcToP Network.sample_final)
              ++ map wordCounter_emit
                   (Network.hold_wc (Network.wc Network.sample_final)
                    ++ buf (Network.sToWc Network.sample_final)
                    ++ Network.hold1 (Network.sp Network.sample_final)
                    ++ buf (Network.input Network.sample_final))
              = Printer.from Printer.L1 (Network.merged Network.sample_final))
    by (vm_compute; reflexivity).
  rewrite E in H. exact (conj R H).
Defined.

(** X9. The calls of [Process] in program order, as in [flow2go.go], are
    one of the orders the range over the map of
    [flow2goWithInterface.go] may take: every move of the former
    program is a move of the latter, and so is every reachable state. *)
Theorem network_program_order_is_a_map_order (feed : list string)
    (st : Network.state) :
  reachable (Network.step Network.InOrder feed) Network.init st ->
  reachable (Network.step Network.MapRange feed) Network.init st.
Proof.
  assert (S : forall l s s', Network.step Network.InOrder feed l s = Next s' ->
                             Network.step Network.MapRange feed l s = Next s').
  { intros l s s' H. destruct l; try exact H.
    cbn [Network.step] in *. destruct (Network.main s); try discriminate H.
    unfold Network.may_start in *.
    destruct (negb (Network.called n s)); [|discriminate H].
    cbn [andb] in *. destruct n; cbn [andb] in *; auto;
    match type of H with (if ?b then _ else _) = _ =>
      destruct b; [exact H | discriminate H] end. }
  intros R. induction R as [s E | s l s' R IH H].
  - apply reach_init. exact E.
  - eapply reach_step; [exact IH | apply S; exact H].
Qed.

Lemma network_program_order_is_a_map_order_witness :
  reachable (Network.step Network.MapRange Network.sentences) Network.init
    Network.sample_final.
Proof.
  exact (network_program_order_is_a_map_order Network.sentences
           Network.sample_final sample_final_reachable).
Defined.

(** X10. The output listed at the end of [flow2go.go] is one the program
    prints: an interleaving of [main] with the three sentences prints
    exactly these seventeen lines, and [main] has returned. *)
Theorem network_sample_output :
  exists st,
    run (Network.step Network.InOrder Network.sentences) Network.sample_schedule
      Network.init_state = Some st
    /\ Network.stdout st = Network.sample_output
    /\ Network.main st = Network.MExit.
Proof.
  exists Network.sample_final.
  split; [exact sample_final_run|].
  split; vm_compute; reflexivity.
Qed.

(** X11. The WaitGroup of [merge] counts the [output] goroutines that
    have not returned: the counter stays between 0 and 2, the goroutine
    that closes [out] gets past [wg.Wait()] only when both [output]
    goroutines have returned, and none of them starts before
    [wg.Add(2)]. *)
Theorem network_waitgroup_counts_outputs (ord : Network.start_order)
    (feed : list string) (st : Network.state) :
  reachable (Network.step ord feed) Network.init st ->
  (0 <= Network.wg st <= 2)%Z
  /\ (Printer.past_wait (Network.cl st) = true ->
      Network.o1 st = Printer.OReturned /\ Network.o2 st = Printer.OReturned)
  /\ (Printer.spawned_output (Network.o1 st) = true
      \/ Printer.spawned_output (Network.o2 st) = true ->
      Network.wg st
      = (2 - Printer.returned (Network.o1 st)
           - Printer.returned (Network.o2 st))%Z).
Proof.
  intros R. destruct (network_reachable_inv ord feed st R) as [I _].
  pose proof (returned_range (Network.o1 st)) as R1.
  pose proof (returned_range (Network.o2 st)) as R2.
  nstart st I. nproj.
  split; [|split].
  - nrank; nsmp;
      destruct g1; try discriminate I12; destruct g2; try discriminate I13;
      nsmp; lia.
  - intros P. rewrite P in I36.
    nrank; nsmp;
      destruct gc; try discriminate I14; try discriminate P;
      destruct g1; try discriminate I12; destruct g2; try discriminate I13;
      nsmp; try lia; auto.
  - intros [P | P]; [rewrite P in I12 | rewrite P in I13];
      nrank; nsmp; try discriminate I12; try discriminate I13; exact I16.
Qed.

Lemma network_waitgroup_counts_outputs_witness :
  reachable (Network.step Network.InOrder Network.sentences) Network.init
    Network.sample_final
  /\ (0 <= Network.wg Network.sample_final <= 2)%Z.
Proof.
  pose proof sample_final_reachable as R.
  exact (conj R (proj1 (network_waitgroup_counts_outputs Network.InOrder
                          Network.sentences Network.sample_final R))).
Defined.

(* ===================================================================== *)
(** * Laws of the two counts *)
(* ===================================================================== *)

Local Open Scope Z_scope.

Lemma tokens_nonempty (s : string) : Spec.tokens s <> [].
Proof.
  intros E. pose proof (length_tokens s) as L. rewrite E in L. discriminate L.
Qed.

Lemma concat_cons (sep x : string) (xs : list string) :
  xs <> [] -> String.concat sep (x :: xs) = (x ++ sep ++ String.concat sep xs)%string.
Proof. destruct xs; [congruence | reflexivity]. Qed.

Lemma concat_tokens (s : string) : String.concat " " (Spec.tokens s) = s.
Proof.
  induction s as [|c s IH]; [reflexivity|].
  cbn [Spec.tokens]. pose proof (tokens_nonempty s) as N.
  destruct (Ascii.eqb c " ") eqn:E.
  - apply Ascii.eqb_eq in E. subst c.
    rewrite concat_cons, IH by assumption. reflexivity.
  - destruct (Spec.tokens s) as [|tok rest]; [congruence|].
    destruct rest as [|tok' rest].
    + cbn [String.concat] in *. now rewrite IH.
    + rewrite concat_cons by discriminate.
      rewrite concat_cons in IH by discriminate.
      rewrite <- IH. reflexivity.
Qed.

Lemma tokens_no_space (s : string) :
  Forall (fun tok => Spec.spaces tok = O) (Spec.tokens s).
Proof.
  induction s as [|c s IH]; cbn [Spec.tokens].
  - constructor; [reflexivity | constructor].
  - destruct (Ascii.eqb c " ") eqn:E.
    + constructor; [reflexivity | exact IH].
    + destruct (Spec.tokens s) as [|tok rest].
      * constructor; [cbn; now rewrite E | constructor].
      * inversion IH as [|? ? T F]; subst.
        constructor; [cbn; now rewrite E, T | exact F].
Qed.

Lemma spaces_app (s t : string) :
  Spec.spaces (s ++ t)%string = (Spec.spaces s + Spec.spaces t)%nat.
Proof.
  induction s as [|c s IH]; simpl; auto. rewrite IH. lia.
Qed.

Lemma wordCounter_emit_spaces (s : string) :
  count_n (wordCounter_emit s) = Z.of_nat (Spec.spaces s) + 1.
Proof.
  rewrite wordCounter_emit_tokens. cbn [count_n]. rewrite length_tokens. lia.
Qed.

Lemma to_byte_small (r : Z) : 0 <= r <= 127 -> byteZ (utf8.to_byte r) = r.
Proof.
  intros H. rewrite byteZ_to_byte. change 0xFF with (Z.ones 8).
  rewrite Z.land_ones by lia. change (2 ^ 8) with 256. apply Z.mod_small. lia.
Qed.

Lemma byteZ_inj (a b : ascii) : byteZ a = byteZ b -> a = b.
Proof.
  unfold byteZ. intros H. apply N2Z.inj in H.
  rewrite <- (ascii_N_embedding a), <- (ascii_N_embedding b). now rewrite H.
Qed.

Lemma space_byte (c : ascii) : Ascii.eqb c " " = (byteZ c =? 32).
Proof.
  destruct (Ascii.eqb c " ") eqn:E.
  - apply Ascii.eqb_eq in E. subst c. reflexivity.
  - symmetry. apply Z.eqb_neq. intros H. apply Ascii.eqb_neq in E. apply E.
    apply byteZ_inj. rewrite H. reflexivity.
Qed.

(** The encoding of a rune other than U+0020 has no space byte. *)
Lemma EncodeRune_spaces (r : Z) :
  0 <= r -> r <> 32 -> Spec.spaces (utf8.EncodeRune r) = O.
Proof.
  intros Hr N. unfold utf8.EncodeRune, utf8.rune1Max, utf8.t2, utf8.t3, utf8.t4, utf8.tx.
  destruct (r <=? 127) eqn:E1.
  - apply Z.leb_le in E1. cbn [Spec.spaces].
    rewrite space_byte, to_byte_small by lia.
    destruct (r =? 32) eqn:E; [apply Z.eqb_eq in E; lia | reflexivity].
  - repeat match goal with
    | |- context [if ?b then _ else _] => destruct b
    end; cbn [Spec.spaces];
    repeat match goal with
    | |- context [Ascii.eqb (utf8.to_byte (Z.lor ?m ?x)) " "] =>
        let H := fresh "H" in
        assert (H : 0x80 <= byteZ (utf8.to_byte (Z.lor m x)))
          by (apply to_byte_marked; lia);
        rewrite (space_byte (utf8.to_byte (Z.lor m x)));
        replace (byteZ (utf8.to_byte (Z.lor m x)) =? 32) with false
          by (symmetry; apply Z.eqb_neq; lia);
        clear H
    end; reflexivity.
Qed.

(** X12. [strings.Split(sentence, " ")] loses nothing: the tokens
    joined by single spaces are the sentence again, and no token has a
    space in it. *)
Theorem wordCounter_split_round_trip (sentence : string) :
  String.concat " " (strings.Split sentence " ") = sentence
  /\ Forall (fun tok => Spec.spaces tok = O) (strings.Split sentence " ").
Proof.
  rewrite Split_space. split; [apply concat_tokens | apply tokens_no_space].
Qed.

(** X13. The word count of [s ++ " " ++ t] is the sum of the counts of
    [s] and [t], and of [s ++ t] one less; only the byte U+0020
    separates words: any other byte, and the UTF-8 encoding of any other
    rune, put anywhere in a sentence leaves its count as it was, so a
    tab, a line feed, a no-break space or an ideographic space does not
    end a word. *)
Theorem word_count_additive :
  (forall s t : string,
      count_n (wordCounter_emit (s ++ " " ++ t)%string)
      = count_n (wordCounter_emit s) + count_n (wordCounter_emit t))
  /\ (forall s t : string,
        count_n (wordCounter_emit (s ++ t)%string)
        = count_n (wordCounter_emit s) + count_n (wordCounter_emit t) - 1)
  /\ (forall (c : ascii) (s t : string),
        c <> " "%char ->
        count_n (wordCounter_emit (s ++ String c t)%string)
        = count_n (wordCounter_emit (s ++ t)%string))
  /\ (forall (r : Z) (s t : string),
        0 <= r -> r <> 0x20 ->
        count_n (wordCounter_emit (s ++ utf8.EncodeRune r ++ t)%string)
        = count_n (wordCounter_emit (s ++ t)%string))
  /\ map (fun r => count_n (wordCounter_emit
                              ("a" ++ utf8.EncodeRune r ++ "b")%string))
         [0x20; 0x09; 0x0A; 0xA0; 0x3000]
     = [2; 1; 1; 1; 1].
Proof.
  split; [|split; [|split; [|split]]].
  - intros s t. rewrite !wordCounter_emit_spaces, !spaces_app.
    cbn [Spec.spaces String.append Ascii.eqb Bool.eqb]. lia.
  - intros s t. rewrite !wordCounter_emit_spaces, !spaces_app. lia.
  - intros c s t N. rewrite !wordCounter_emit_spaces, !spaces_app.
    cbn [Spec.spaces]. apply Ascii.eqb_neq in N. rewrite N. lia.
  - intros r s t Hr N. rewrite !wordCounter_emit_spaces, !spaces_app.
    rewrite EncodeRune_spaces by assumption. lia.
  - vm_compute. reflexivity.
Qed.

Lemma letterMatches_app (s t : string) :
  letterMatches (s ++ t)%string = letterMatches s ++ letterMatches t.
Proof.
  induction s as [|c s IH]; cbn [letterMatches String.append app]; auto.
  destruct (Spec.isLetter c); cbn [app]; now rewrite IH.
Qed.

Lemma letterMatches_none (s : string) :
  Spec.letters s = O -> letterMatches s = [].
Proof.
  induction s as [|c s IH]; cbn [letterMatches Spec.letters]; auto.
  destruct (Spec.isLetter c); [discriminate | auto].
Qed.

Lemma length_letterMatches (s : string) :
  List.length (letterMatches s) = Spec.letters s.
Proof.
  induction s as [|c s IH]; cbn [letterMatches Spec.letters]; auto.
  destruct (Spec.isLetter c); cbn [List.length]; lia.
Qed.

Lemma drop_add (n m : nat) (s : string) : drop (n + m) s = drop m (drop n s).
Proof.
  revert s; induction n as [|n IH]; intros s; simpl; auto.
  destruct s as [|c t]; simpl; auto. destruct m; reflexivity.
Qed.

Lemma leftmost_matches (k : nat) (s : string) :
  (len s <= k)%nat ->
  match regexp.leftmost k (regexp.mkRegexp [(97, 122); (65, 90)]) s with
  | None => letterMatches s = []
  | Some (a, b) =>
      (a < b <= len s)%nat /\ letterMatches (take b s) = [slice a b s]
  end.
Proof.
  revert s; induction k as [|k IH]; intros s Hk.
  - destruct s; simpl in *; [reflexivity | lia].
  - destruct s as [|c t]; [reflexivity|].
    cbn [regexp.leftmost].
    pose proof (step_letters c t) as St. cbv zeta in St.
    destruct (regexp.step (String c t)) as [r w]. cbn [fst snd] in St.
    rewrite matchRune_class. destruct St as [Hw St].
    destruct (Spec.isLetterRune r).
    + destruct St as [-> L]. split; [lia|].
      unfold slice. cbn. now rewrite L.
    + assert (Hd : (len (drop w (String c t)) <= k)%nat).
      { rewrite len_drop. unfold len in *. cbn [String.length] in *. lia. }
      specialize (IH _ Hd).
      destruct (regexp.leftmost k _ (drop w (String c t))) as [[a b]|];
        cbn [option_map fst snd].
      * destruct IH as [Hab L]. rewrite len_drop in Hab. split; [lia|].
        rewrite take_add, letterMatches_app, (letterMatches_none _ St), L.
        unfold slice. rewrite drop_add.
        replace (w + b - (w + a))%nat with (b - a)%nat by lia. reflexivity.
      * rewrite <- (take_drop w (String c t)), letterMatches_app,
          (letterMatches_none _ St), IH. reflexivity.
Qed.

Lemma allMatches_matches (k : nat) (s : string) :
  (Spec.letters s <= k)%nat ->
  regexp.allMatches k (regexp.mkRegexp [(97, 122); (65, 90)]) s = letterMatches s.
Proof.
  revert s; induction k as [|k IH]; intros s Hk; cbn [regexp.allMatches].
  - symmetry. apply letterMatches_none. lia.
  - unfold regexp.doExecute.
    pose proof (leftmost_matches (len s) s (Nat.le_refl _)) as Hl.
    destruct (regexp.leftmost (len s) _ s) as [[a b]|]; [|auto].
    destruct Hl as [Hab L].
    assert (E : letterMatches s = slice a b s :: letterMatches (drop b s)).
    { rewrite <- (take_drop b s) at 1. rewrite letterMatches_app, L. reflexivity. }
    rewrite E, IH; [reflexivity|].
    pose proof (length_letterMatches s) as Ls. rewrite E in Ls.
    cbn [List.length] in Ls. rewrite length_letterMatches in Ls. lia.
Qed.

(** X14. [lc.re.FindAllString(sentence, -1)] delivers the letters of the
    sentence themselves: each byte in [A-Z] or [a-z] as a string of its
    own, in the order they stand, and nothing else; so every match is
    one byte long and is a letter. *)
Theorem letterCounter_matches_are_the_letters (re : regexp.Regexp)
    (Hre : letterCounter_Init = Some re) (sentence : string) :
  regexp.FindAllString re sentence (-1) = letterMatches sentence
  /\ Forall (fun m => exists c, m = String c EmptyString /\ Spec.isLetter c = true)
            (regexp.FindAllString re sentence (-1)).
Proof.
  rewrite letterCounter_Init_class in Hre. inversion Hre; subst re.
  assert (E : regexp.FindAllString (regexp.mkRegexp [(97, 122); (65, 90)])
                sentence (-1) = letterMatches sentence).
  { unfold regexp.FindAllString. change (-1 <? 0) with true. cbv beta iota zeta.
    apply allMatches_matches. pose proof (letters_le_len sentence). lia. }
  split; [exact E|]. rewrite E. clear E Hre.
  induction sentence as [|c s IH]; cbn [letterMatches]; [constructor|].
  destruct (Spec.isLetter c) eqn:L; [|exact IH].
  constructor; [eauto | exact IH].
Qed.

Lemma letterCounter_matches_are_the_letters_witness :
  letterCounter_Init = Some (regexp.mkRegexp [(97, 122); (65, 90)])
  /\ regexp.FindAllString (regexp.mkRegexp [(97, 122); (65, 90)]) "Go 1.x!" (-1)
     = ["G"; "o"; "x"]%string.
Proof.
  pose proof (letterCounter_matches_are_the_letters
                (regexp.mkRegexp [(97, 122); (65, 90)]) letterCounter_Init_class
                "Go 1.x!") as [H _].
  exact (conj letterCounter_Init_class H).
Defined.

Lemma spaces_letters_le_len (s : string) :
  (Spec.spaces s + Spec.letters s <= len s)%nat.
Proof.
  induction s as [|c s IH]; [simpl; lia|].
  cbn [Spec.spaces Spec.letters]. unfold len in *. cbn [String.length].
  destruct (Ascii.eqb c " ") eqn:E.
  - apply Ascii.eqb_eq in E. subst c.
    change (Spec.isLetter " ") with false. cbv iota. lia.
  - destruct (Spec.isLetter c); lia.
Qed.

(** X15. The two counts of one sentence are bounded by its length in
    bytes: the word count lies between 1 and the length plus one, the
    letter count between 0 and the length, and since a byte is a space
    or a letter or neither, the two together are at most the length plus
    one. *)
Theorem counts_bounded_by_length (re : regexp.Regexp)
    (Hre : letterCounter_Init = Some re) (sentence : string) :
  1 <= count_n (wordCounter_emit sentence) <= Z.of_nat (len sentence) + 1
  /\ 0 <= count_n (letterCounter_emit re sentence) <= Z.of_nat (len sentence)
  /\ count_n (wordCounter_emit sentence) + count_n (letterCounter_emit re sentence)
     <= Z.of_nat (len sentence) + 1.
Proof.
  rewrite wordCounter_emit_spaces, (letterCounter_emit_letters re sentence Hre).
  cbn [count_n].
  pose proof (spaces_letters_le_len sentence). lia.
Qed.

Lemma counts_bounded_by_length_witness :
  letterCounter_Init = Some (regexp.mkRegexp [(97, 122); (65, 90)])
  /\ count_n (wordCounter_emit sentence3)
     + count_n (letterCounter_emit (regexp.mkRegexp [(97, 122); (65, 90)]) sentence3)
     <= Z.of_nat (len sentence3) + 1.
Proof.
  pose proof (counts_bounded_by_length
                (regexp.mkRegexp [(97, 122); (65, 90)]) letterCounter_Init_class
                sentence3) as (_ & _ & H).
  exact (conj letterCounter_Init_class H).
Defined.

Local Close Scope Z_scope.

(* ===================================================================== *)
(** * The counters close their output last *)
(* ===================================================================== *)

(** X16. The wordCounter puts the count of every sentence on [Count]:
    what the reader of [Count] has taken, followed by what the channel
    holds, is at every moment the counts of the first sentences sent to
    the node, in order, and each run of [wc.Count <- ...] adds its
    count at the end of the channel.  [Count] is closed only by the
    node's goroutine, at its [close(wc.Count)], after it has seen
    [Sentence] closed and drained; by then the counts of all the
    sentences sent have gone into [Count].  No statement of the
    goroutine panics, whatever the capacities of the two channels and
    the moves of its neighbours. *)
Theorem wordCounter_closes_after_exhaustion (st : WordCounter.state)
    (R : reachable WordCounter.step WordCounter.init st) :
  WordCounter.emitted st = WordCounter.taken st ++ buf (WordCounter.Count st)
  /\ (exists rest,
        map wordCounter_emit (WordCounter.sent st)
        = (WordCounter.taken st ++ buf (WordCounter.Count st)) ++ rest)
  /\ (forall s st', WordCounter.step WordCounter.Goroutine st = Next st' ->
        WordCounter.gor st = WordCounter.Send s ->
        buf (WordCounter.Count st')
        = buf (WordCounter.Count st) ++ [wordCounter_emit s]
        /\ WordCounter.gor st' = WordCounter.Recv)
  /\ (closed (WordCounter.Count st) = true ->
      WordCounter.gor st = WordCounter.Returned
      /\ closed (WordCounter.Sentence st) = true
      /\ buf (WordCounter.Sentence st) = []
      /\ WordCounter.taken st ++ buf (WordCounter.Count st)
         = map wordCounter_emit (WordCounter.sent st)
      /\ WordCounter.emitted st = map wordCounter_emit (WordCounter.sent st))
  /\ (exists rest,
        map wordCounter_emit (WordCounter.sent st) = WordCounter.emitted st ++ rest)
  /\ (forall l st', WordCounter.step l st = Next st' ->
        closed (WordCounter.Count st) = false ->
        closed (WordCounter.Count st') = true ->
        l = WordCounter.Goroutine /\ WordCounter.gor st = WordCounter.Close)
  /\ WordCounter.step WordCounter.Goroutine st <> Panic.
Proof.
  pose proof (wordCounter_reachable_inv st R) as I.
  destruct st as [i o m g out sn rc em tk]. unfold WordCounter.inv in I.
  cbn [WordCounter.Sentence WordCounter.Count WordCounter.main WordCounter.gor
       WordCounter.stdout WordCounter.sent WordCounter.rcvd WordCounter.emitted
       WordCounter.taken] in *.
  destruct I as (I1 & I2 & I3 & I4 & I5 & I6 & I7).
  assert (P : exists rest, map wordCounter_emit sn = em ++ rest)
    by (subst sn; rewrite map_app, I1, <- app_assoc; eauto).
  split; [|split; [|split; [|split; [|split; [|split]]]]].
  - exact I7.
  - rewrite <- I7. exact P.
  - intros s st' H ->. cbn [WordCounter.step] in H. step_cases H. cbn. auto.
  - intros C. rewrite C in I5. destruct g; try discriminate I5.
    destruct I4 as [C4 B4]. cbn in I1. rewrite B4, !app_nil_r in *. subst sn.
    rewrite <- I7. auto.
  - exact P.
  - intros l st' H C C'.
    destruct l; cbn [WordCounter.step] in H; destruct m, g; step_cases H;
      cbn [WordCounter.Count closed] in C'; try congruence; auto.
  - intros H. cbn [WordCounter.step] in H.
    destruct g; try discriminate H; unfold recv, send, close in H;
      repeat match type of H with
      | context [match ?x with _ => _ end] =>
          lazymatch x with
          | context [match _ with _ => _ end] => fail
          | _ => destruct x eqn:?
          end
      end; try discriminate H; congruence.
Qed.

Lemma wordCounter_closes_after_exhaustion_witness :
  reachable WordCounter.step WordCounter.init WordCounter.final_three
  /\ closed (WordCounter.Count WordCounter.final_three) = true
  /\ [] ++ buf (WordCounter.Count WordCounter.final_three)
     = map wordCounter_emit [sentence1; sentence2; sentence3].
Proof.
  pose proof wordCounter_final_three_reachable as R.
  assert (C : closed (WordCounter.Count WordCounter.final_three) = true)
    by (vm_compute; reflexivity).
  assert (T : WordCounter.taken WordCounter.final_three = [])
    by (vm_compute; reflexivity).
  assert (S1 : WordCounter.sent WordCounter.final_three
               = [sentence1; sentence2; sentence3])
    by (vm_compute; reflexivity).
  destruct (wordCounter_closes_after_exhaustion WordCounter.final_three R)
    as (_ & _ & _ & H & _).
  destruct (H C) as (_ & _ & _ & E & _).
  rewrite T, S1 in E.
  exact (conj R (conj C E)).
Defined.

(** X17. The letterCounter puts the count of every sentence on [Count]:
    what the reader of [Count] has taken, followed by what the channel
    holds, is at every moment the counts of the first sentences sent to
    the node, in order, and each run of [lc.Count <- ...] adds its
    count at the end of the channel.  [Count] is closed only by the
    node's goroutine, at its [close(lc.Count)], after it has seen
    [Sentence] closed and drained; by then the counts of all the
    sentences sent have gone into [Count]. *)
Theorem letterCounter_closes_after_exhaustion (re : regexp.Regexp)
    (Hre : letterCounter_Init = Some re) (st : LetterCounter.state)
    (R : reachable LetterCounter.step LetterCounter.init st) :
  LetterCounter.emitted st
  = LetterCounter.taken st ++ buf (LetterCounter.Count st)
  /\ (exists rest,
        map (letterCounter_emit re) (LetterCounter.sent st)
        = (LetterCounter.taken st ++ buf (LetterCounter.Count st)) ++ rest)
  /\ (forall s st', LetterCounter.step LetterCounter.Goroutine st = Next st' ->
        LetterCounter.gor st = LetterCounter.Send s ->
        buf (LetterCounter.Count st')
        = buf (LetterCounter.Count st) ++ [letterCounter_emit re s]
        /\ LetterCounter.gor st' = LetterCounter.Recv)
  /\ (closed (LetterCounter.Count st) = true ->
      LetterCounter.gor st = LetterCounter.Returned
      /\ closed (LetterCounter.Sentence st) = true
      /\ buf (LetterCounter.Sentence st) = []
      /\ LetterCounter.taken st ++ buf (LetterCounter.Count st)
         = map (letterCounter_emit re) (LetterCounter.sent st)
      /\ LetterCounter.emitted st
         = map (letterCounter_emit re) (LetterCounter.sent st))
  /\ (exists rest,
        map (letterCounter_emit re) (LetterCounter.sent st)
        = LetterCounter.emitted st ++ rest)
  /\ (forall l st', LetterCounter.step l st = Next st' ->
        closed (LetterCounter.Count st) = false ->
        closed (LetterCounter.Count st') = true ->
        l = LetterCounter.Goroutine /\ LetterCounter.gor st = LetterCounter.Close).
Proof.
  pose proof (letterCounter_reachable_inv st R) as I.
  destruct st as [i o r m g out sn rc em nc tk]. unfold LetterCounter.inv in I.
  cbn [LetterCounter.Sentence LetterCounter.Count LetterCounter.re
       LetterCounter.main LetterCounter.gor LetterCounter.stdout
       LetterCounter.sent LetterCounter.rcvd LetterCounter.emitted
       LetterCounter.compiles LetterCounter.taken] in *.
  destruct I as (I1 & I2 & I3 & I4 & I5 & I6 & I7 & I8).
  assert (E : map (letterCounter_emit re) rc
              = em ++ map (letterCounter_emit re) (LetterCounter.pending g)).
  { destruct r as [r|].
    - assert (r = re) as ->; [|exact I2].
      destruct g; destruct I1 as [I1 ?]; congruence.
    - destruct I2 as (-> & -> & ->). reflexivity. }
  assert (P : exists rest, map (letterCounter_emit re) sn = em ++ rest)
    by (subst sn; rewrite map_app, E, <- app_assoc; eauto).
  split; [|split; [|split; [|split; [|split]]]].
  - exact I8.
  - rewrite <- I8. exact P.
  - intros s st' H ->. cbn [LetterCounter.step] in H.
    assert (r = Some re) as -> by (destruct I1 as [I1 ?]; congruence).
    step_cases H. cbn. auto.
  - intros C. rewrite C in I6. destruct g; try discriminate I6.
    destruct I5 as [C5 B5]. cbn in E. rewrite B5, !app_nil_r in *. subst sn.
    rewrite <- I8. auto.
  - exact P.
  - intros l st' H C C'.
    destruct l; cbn [LetterCounter.step] in H; destruct m, g; step_cases H;
      cbn [LetterCounter.Count closed] in C'; try congruence; auto.
Qed.

Lemma letterCounter_closes_after_exhaustion_witness :
  letterCounter_Init = Some (regexp.mkRegexp [(97, 122); (65, 90)]%Z)
  /\ reachable LetterCounter.step LetterCounter.init LetterCounter.final_three
  /\ closed (LetterCounter.Count LetterCounter.final_three) = true
  /\ [] ++ buf (LetterCounter.Count LetterCounter.final_three)
     = map (letterCounter_emit (regexp.mkRegexp [(97, 122); (65, 90)]%Z))
         [sentence1; sentence2; sentence3].
Proof.
  pose proof letterCounter_final_three_reachable as R.
  assert (C : closed (LetterCounter.Count LetterCounter.final_three) = true)
    by (vm_compute; reflexivity).
  assert (T : LetterCounter.taken LetterCounter.final_three = [])
    by (vm_compute; reflexivity).
  assert (S1 : LetterCounter.sent LetterCounter.final_three
               = [sentence1; sentence2; sentence3])
    by (vm_compute; reflexivity).
  destruct (letterCounter_closes_after_exhaustion
              (regexp.mkRegexp [(97, 122); (65, 90)]%Z) letterCounter_Init_class
              LetterCounter.final_three R) as (_ & _ & _ & H & _).
  destruct (H C) as (_ & _ & _ & E & _).
  rewrite T, S1 in E.
  exact (conj letterCounter_Init_class (conj R (conj C E))).
Defined.

(* ===================================================================== *)
(** * The whole network: the order of the lines printed *)
(* ===================================================================== *)

Section OrderFacts.

Lemma seen_app m o x :
  Network.seen m (o ++ [x]) = Network.seen m o || Network.is_message m x.
Proof.
  unfold Network.seen. rewrite existsb_app. cbn [existsb].
  now rewrite orb_false_r.
Qed.

Lemma well_ordered_app b o x :
  Network.well_ordered b (o ++ [x])
  = Network.well_ordered b o && Network.may_print (b ++ o) x.
Proof.
  revert b; induction o as [|y o IH]; intros b; cbn [Network.well_ordered app].
  - now rewrite app_nil_r, andb_true_r.
  - rewrite IH, <- app_assoc, andb_assoc. reflexivity.
Qed.

(** When the sink has seen [out] closed the goroutines of the three
    nodes have run their last [close] and [main] has closed the input. *)
Lemma network_sink_done_all feed st :
  Network.inv_control feed st ->
  if Printer.sink_done (Network.sk st)
  then Network.sp st = Splitter.Returned /\ Network.wc st = WordCounter.Returned
       /\ Network.lc st = LetterCounter.Returned
       /\ Network.past_close (Network.main st) = true
  else True.
Proof.
  intros I. destruct (Printer.sink_done (Network.sk st)) eqn:K; [|exact Logic.I].
  pose proof (returned_range (Network.o1 st)) as R1.
  pose proof (returned_range (Network.o2 st)) as R2.
  nstart st I. nproj. rewrite K in I37.
  destruct gc; try (rewrite I37 in I29; discriminate I29).
  nrank; nsmp; try discriminate I14;
    destruct g1; try discriminate I12; destruct g2; try discriminate I13;
    nsmp; try lia.
  all: destruct I34 as [C3 _], I35 as [C4 _].
  all: destruct gw; try (rewrite C3 in I27; discriminate I27).
  all: destruct gl; try (rewrite C4 in I28; discriminate I28).
  all: destruct I32 as [C1 _], I33 as [C2 _].
  all: destruct gs; try (rewrite C2 in I26; discriminate I26).
  all: cbn in I31; destruct I31 as [C0 _]; rewrite C0 in I3; auto.
Qed.

(** A count in the sink's hands is the count of a sentence sent. *)
Lemma network_unprinted_fed st :
  Network.inv_data st ->
  match Printer.unprinted (Network.sk st) with
  | [] => True
  | _ :: _ => Network.fed st <> []
  end.
Proof.
  intros (D1 & D2 & D3).
  destruct (Printer.unprinted (Network.sk st)) as [|c u]; [exact Logic.I|].
  intros F. rewrite F in D1, D2. cbn [map] in D1, D2.
  symmetry in D1, D2. apply app_eq_nil in D1, D2.
  destruct D1 as [D1 _], D2 as [D2 _].
  destruct (Network.merged st) as [|[i n] mg].
  - cbn in D3. apply app_eq_nil in D3. destruct D3 as [_ D3]. discriminate D3.
  - unfold Printer.from in D1, D2. cbn in D1, D2. destruct i; discriminate.
Qed.

End OrderFacts.

Ltac lstart st J :=
  unfold Network.inv_log in J; nproj;
  destruct J as (J1 & J2 & J3 & J4 & J5 & J6 & J7 & J8 & J9 & J10 & J11 & J12
                 & J13 & J14).

Ltac lsmp :=
  cbn -[Z.add Z.sub Z.opp Z.mul Z.leb Z.ltb Z.eqb Nat.add Nat.mul Nat.sub
        wordCounter_emit letterCounter_emit letterCounter_Init Network.lettersRe
        Network.seen Network.well_ordered Network.may_print] in *.

Ltac lopen :=
  unfold Network.inv_log; nproj;
  unfold Network.println, Network.add_fed, Network.add_merged,
         Network.started in *;
  lsmp;
  rewrite ?well_ordered_app, ?seen_app; cbn [app];
  unfold Network.may_print;
  repeat match goal with
  | H : Network.seen _ _ = _ |- _ => rewrite H
  | H : Network.well_ordered _ _ = _ |- _ => rewrite H
  end;
  lsmp.

Ltac lcases :=
  repeat match goal with
  | |- context [Network.sp_printed ?g] => is_var g; destruct g
  | |- context [Network.wc_printed ?g] => is_var g; destruct g
  | |- context [Network.lc_printed ?g] => is_var g; destruct g
  | |- context [Network.sk_printed ?g] => is_var g; destruct g
  | |- context [match ?l with [] => _ | _ :: _ => _ end] => is_var l; destruct l
  | |- context [Network.past_send ?m] => is_var m; destruct m
  | |- context [Network.starting ?m] => is_var m; destruct m
  | |- context [Network.exited ?m] => is_var m; destruct m
  end.

Ltac lfin :=
  ndone; rewrite ?orb_false_r, ?andb_true_r, ?andb_false_r, ?orb_true_r in *;
  ndone; nbool; subst; nsmp; ndone; ncases; nsmp; ndone;
  lcases; nsmp; ndone; nand; subst; nsmp; ndone;
  rewrite ?orb_false_r, ?andb_true_r, ?andb_false_r, ?orb_true_r in *; ndone;
  try match goal with
  | |- match ?l with [] => True | _ :: _ => _ end => destruct l; ndone
  | H : match ?l with [] => True | _ :: _ => _ end, F : ?l <> [] |- _ =>
      destruct l; [congruence | nsmp; ndone]
  end.

Lemma network_log_init : Network.inv_log Network.init_state.
Proof. unfold Network.inv_log. cbn. auto 20. Qed.

Lemma network_log_step ord feed st l st' :
  Network.inv_control feed st -> Network.inv_data st -> Network.inv_log st ->
  Network.step ord feed l st = Next st' -> Network.inv_log st'.
Proof.
  intros I D J H.
  pose proof (network_sink_done_all feed st I) as F2.
  pose proof (network_unprinted_fed st D) as F3. clear D.
  nstart st I. lstart st J.
  destruct l as [| n | | | | i | |]; cbn [Network.step] in H; nproj.
  - unfold Network.all_called in *; nproj.
    destruct m; nstep H; unfold Network.feed_pc;
      try match goal with |- context [match ?l with [] => _ | _ => _ end] =>
        is_var l; destruct l end.
    all: lopen.
    all: nconj.
    all: lfin.
  - destruct m; try discriminate H.
    unfold Network.may_start in H.
    destruct n, ord; cbn [Network.called Network.set_called Network.first_pc] in H; nproj;
      nstep H; lopen; nconj.
    all: lfin.
  - destruct gs; nstep H; lopen; nconj.
    all: lfin.
  - destruct gw; nstep H; lopen; nconj.
    all: lfin.
  - destruct gl; rewrite ?network_Init in H; nstep H; lopen; nconj.
    all: lfin.
  - destruct i; cbn [Network.output_of Network.line_of Network.set_output_of Network.set_line_of] in H; nproj;
    [destruct g1 | destruct g2]; nstep H; lopen; nconj.
    all: lfin.
  - destruct gc; nstep H; lopen; nconj.
    all: lfin.
  - destruct gk; nstep H; lopen; nconj.
    all: lfin.
Qed.

Lemma network_reachable_log ord feed st :
  reachable (Network.step ord feed) Network.init st ->
  Network.inv feed st /\ Network.inv_log st.
Proof.
  apply (reachable_ind_inv (Network.step ord feed) Network.init
           (fun s => Network.inv feed s /\ Network.inv_log s)).
  - intros s ->. split; [apply network_inv_init | apply network_log_init].
  - intros s l s' [I J] E. split.
    + exact (network_inv_step ord feed s l s' I E).
    + destruct I as [Ic Id]. exact (network_log_step ord feed s l s' Ic Id J E).
Qed.

Lemma well_ordered_split b a x r :
  Network.well_ordered b (a ++ x :: r) = true ->
  Network.may_print (b ++ a) x = true.
Proof.
  revert b; induction a as [|y a IH]; intros b; cbn [Network.well_ordered app];
    intros H; apply andb_prop in H; destruct H as [H1 H2].
  - now rewrite app_nil_r.
  - specialize (IH _ H2). now rewrite <- app_assoc in IH.
Qed.

(** X18. The lines are printed in the order of the output listed in
    [flow2go.go], on every interleaving: each line of the output may
    follow the lines before it by the rules of [may_print].  The output
    begins with "Start the nodes."; no message is printed twice; "Send
    the data into the network." comes after the four starts; counts and
    ends of nodes come after it; the counters finish after the splitter
    and the printer after the counters; after "Printer has finished."
    only "Network has shut down." is printed, and nothing after that.
    When [main] returns each of the eleven messages has been printed. *)
Theorem network_prints_in_order (ord : Network.start_order)
    (feed : list string) (st : Network.state) :
  reachable (Network.step ord feed) Network.init st ->
  (forall a x b, Network.stdout st = a ++ x :: b -> Network.may_print a x = true)
  /\ (Network.main st = Network.MExit ->
      forallb (fun m => Network.seen m (Network.stdout st))
        ["Start the nodes."; "Splitter starts."; "WordCounter starts.";
         "LetterCounter starts."; "Printer starts.";
         "Send the data into the network."; "Splitter has finished.";
         "WordCounter has finished."; "LetterCounter has finished.";
         "Printer has finished."; "Network has shut down."]%string
      = true).
Proof.
  intros R. destruct (network_reachable_log ord feed st R) as [I J].
  split.
  - intros a x b E. destruct J as [J1 _]. rewrite E in J1.
    exact (well_ordered_split [] a x b J1).
  - intros E.
    destruct (network_exit feed st I E) as ((G1 & G2 & G3 & _ & _ & _ & G7) & _).
    destruct I as [I _].
    unfold Network.inv_log, Network.started in J.
    destruct J as (_ & J2 & J3 & J4 & J5 & J6 & J7 & J8 & J9 & J10 & J11 & J12 & _).
    unfold Network.inv_control, Network.all_called in I.
    destruct I as (_ & _ & _ & I4 & _).
    rewrite E in *. cbn in I4. nbool.
    cbn [forallb]. rewrite J2, J3, J4, J5, J6, J7, J8, J9, J10, J11, J12.
    rewrite G1, G2, G3, G7.
    cbn [Network.called].
    repeat match goal with H : _ = true |- _ => rewrite H end.
    reflexivity.
Qed.

Lemma network_prints_in_order_witness :
  reachable (Network.step Network.InOrder Network.sentences) Network.init
    Network.sample_final
  /\ Network.may_print (firstn 12 Network.sample_output)
       [Str "LetterCounter has finished."] = true.
Proof.
  pose proof sample_final_reachable as R.
  destruct (network_prints_in_order Network.InOrder Network.sentences
              Network.sample_final R) as [H _].
  assert (E : Network.stdout Network.sample_final
              = firstn 12 Network.sample_output
                ++ [Str "LetterCounter has finished."]
                   :: skipn 13 Network.sample_output)
    by (vm_compute; reflexivity).
  exact (conj R (H _ _ _ E)).
Defined.
